(** * WinoFPGA gateware: a cycle-accurate model and its properties

    The gateware is written in Amaranth: every class describes registers
    (assigned in the [sync] domain, they change at the clock edge) and wires
    (assigned in the [comb] domain, they are functions of the registers and
    of the inputs of the same cycle).  Each class is embedded as

    - a record [state] holding its registers,
    - a record [inputs] holding the input signals of one cycle,
    - functions for its wires, and
    - a function [step] giving the registers after the clock edge.

    Inside one [m.d.sync] or [m.d.comb] domain a later assignment to a signal
    overrides an earlier one, so the [If] blocks of an [elab] method are read
    from the last one backwards. *)

From Stdlib Require Import ZArith Lia List Bool.
From Equations Require Import Equations.
Import ListNotations.
Local Open Scope Z_scope.

(* ===================================================================== *)
(** * Part I: the model *)
(* ===================================================================== *)

(** ** Amaranth values *)

Module Amaranth.

(** The value an unsigned [w]-bit signal holds after [x] is assigned to it. *)
Definition unsigned (w x : Z) : Z := x mod 2 ^ w.

(** The value a [signed(w)] signal holds after [x] is assigned to it
    (two's complement wrap-around). *)
Definition signed (w x : Z) : Z := (x + 2 ^ (w - 1)) mod 2 ^ w - 2 ^ (w - 1).

(** The values a [signed(w)] signal can hold. *)
Definition fits_signed (w x : Z) : Prop := - 2 ^ (w - 1) <= x < 2 ^ (w - 1).

(** The values an unsigned [w]-bit signal can hold. *)
Definition fits_unsigned (w x : Z) : Prop := 0 <= x < 2 ^ w.

(** [x[lo:hi]], a slice of the bits of [x]. *)
Definition slice (x lo hi : Z) : Z := Z.land (Z.shiftr x lo) (Z.ones (hi - lo)).

(** [Cat(lo, hi)] where [lo] is [w] bits wide. *)
Definition Cat (w lo hi : Z) : Z := Z.lor (unsigned w lo) (Z.shiftl hi w).

(** The element an [Array] of [n] signals selects for index [i]: an index
    past the end selects the last element. *)
Definition array_index (n i : Z) : Z := Z.min i (n - 1).

(** [bits_for(n)] for [n >= 0]: the width of [Signal(range(n + 1))]. *)
Definition bits_for (n : Z) : Z := if n <=? 0 then 1 else Z.log2 n + 1.

(** Modelled from the spec: [tree_sum] of the amaranth_cfu package, which is
    not under src/.  The spec calls its result the sum of the operands; the
    package adds the two halves of the operand list recursively.  Amaranth
    sizes every intermediate sum so that no carry is lost, hence the sum is
    the exact integer sum. *)
Equations? tree_sum (operands : list Z) : Z by wf (length operands) lt :=
  tree_sum [] := 0;
  tree_sum [a] := a;
  tree_sum [a; b] := a + b;
  tree_sum (a :: b :: c :: l) :=
    tree_sum (firstn (Nat.div2 (3 + length l)) (a :: b :: c :: l))
    + tree_sum (skipn (Nat.div2 (3 + length l)) (a :: b :: c :: l)).
Proof.
  - rewrite length_firstn. cbn [length].
    destruct (length l) as [|n]; [lia|].
    assert (Nat.div2 n <= n)%nat
      by (rewrite Nat.div2_div; apply Nat.Div0.div_le_upper_bound; lia).
    lia.
  - rewrite length_skipn. cbn [length]. lia.
Qed.

(** The plain sum [tree_sum] is compared with. *)
Definition sum (l : list Z) : Z := fold_right Z.add 0 l.

End Amaranth.

(** ** delay.py: [Delayer] *)

Module Delayer.

(** [shift_register = Signal(6)], reset value 0. *)
Record state := { shift_register : Z }.

Definition reset : state := {| shift_register := 0 |}.

(** [cycles = Signal(4)] and [input = Signal()]. *)
Record inputs := { cycles : Z; input : bool }.

(** The [If]/[Elif]/[Else] chain driving [output]. *)
Definition output (s : state) (i : inputs) : bool :=
  if cycles i =? 5 then Z.testbit (shift_register s) 4
  else if cycles i =? 4 then Z.testbit (shift_register s) 3
  else if cycles i =? 3 then Z.testbit (shift_register s) 2
  else if cycles i =? 2 then Z.testbit (shift_register s) 1
  else Z.testbit (shift_register s) 0.

(** [shift_register[1:].eq(shift_register)] keeps the low five bits, moved up
    by one; [shift_register[0].eq(self.input)]. *)
Definition step (s : state) (i : inputs) : state :=
  {| shift_register :=
       Z.lor (Z.shiftl (Z.land (shift_register s) (Z.ones 5)) 1)
             (Z.b2z (input i)) |}.

(** The registers at tick [t], when the inputs of tick [k] are [i k]. *)
Fixpoint at_tick (i : nat -> inputs) (s0 : state) (t : nat) : state :=
  match t with
  | O => s0
  | S t' => step (at_tick i s0 t') (i t')
  end.

(** The delay a [cycles] setting is expected to give: the setting itself
    from 2 to 5, and one tick for any other setting. *)
Definition realized_delay (c : Z) : nat :=
  if (2 <=? c) && (c <=? 5) then Z.to_nat c else 1%nat.

(** A sample input stream: [cycles] held at [c], one input pulse at tick 0. *)
Definition pulse (c : Z) (k : nat) : inputs :=
  {| cycles := c; input := Nat.eqb k 0 |}.

End Delayer.


(** ** mul.py: [AccOrTrans] *)

Module AccOrTrans.

(** [in_values] are sixteen [signed(24)] products. *)
Record inputs := {
  add_en : bool;
  in_values : list Z;
  switch_PorD : bool;
  clear : bool
}.

(** The registers: [add_sum] is [signed(28)], [accumulator], [Y] and [Y_tmp]
    are [signed(32)], [late_in_values] are [signed(24)]; all reset to 0. *)
Record state := {
  add_sum : Z;
  accumulator : Z;
  Y : list Z;
  Y_tmp : list Z;
  late_in_values : list Z
}.

Definition reset : state :=
  {| add_sum := 0; accumulator := 0;
     Y := [0; 0; 0; 0]; Y_tmp := [0; 0; 0; 0];
     late_in_values := [0; 0; 0; 0] |}.

(** [self.in_values[n]]. *)
Definition iv (i : inputs) (n : nat) : Z := nth n (in_values i) 0.

(** The inputs are well formed when they are sixteen values of a
    [signed(24)] signal. *)
Definition wf_inputs (i : inputs) : Prop :=
  (length (in_values i) = 16)%nat /\
  Forall (Amaranth.fits_signed 24) (in_values i).

(** The four [tree_sum] operand lists of the depthwise branch. *)
Definition Y_tmp_operands (i : inputs) (n : nat) : list Z :=
  match n with
  | 0%nat => [iv i 0; iv i 2; iv i 8; iv i 1; iv i 3; iv i 9; iv i 4; iv i 6]
  | 1%nat => [iv i 1; iv i 3; iv i 9; - iv i 4; - iv i 6; - iv i 12;
              - iv i 5; - iv i 7]
  | 2%nat => [iv i 2; - iv i 8; - iv i 10; iv i 3; - iv i 9; - iv i 11;
              iv i 6; - iv i 12]
  | _ => [iv i 3; - iv i 9; - iv i 11; - iv i 6; iv i 12; iv i 14;
          - iv i 7; iv i 13]
  end.

(** [accumulator + add_sum], as the 32-bit signals receive it. *)
Definition acc_plus_sum (s : state) : Z :=
  Amaranth.signed 32 (accumulator s + add_sum s).

(** The registers after the clock edge.  Pointwise ([switch_PorD == 0]):
    [add_sum] takes the tree sum of [in_values[n] for n in range(8)]; the
    accumulator adds on [add_en]; the later [If(self.clear)] overrides the
    addition.  Depthwise: [late_in_values], [Y_tmp] and [Y] are loaded, each
    from the registers and inputs of the current cycle. *)
Definition step (s : state) (i : inputs) : state :=
  if negb (switch_PorD i) then
    {| add_sum := Amaranth.signed 28 (Amaranth.tree_sum (map (iv i) (seq 0 8)));
       accumulator :=
         if clear i then 0
         else if add_en i then acc_plus_sum s
         else accumulator s;
       Y := Y s; Y_tmp := Y_tmp s; late_in_values := late_in_values s |}
  else
    {| add_sum := add_sum s;
       accumulator := accumulator s;
       Y := [ Amaranth.signed 32 (nth 0 (Y_tmp s) 0 + nth 0 (late_in_values s) 0);
              Amaranth.signed 32 (nth 1 (Y_tmp s) 0 - nth 1 (late_in_values s) 0);
              Amaranth.signed 32 (nth 2 (Y_tmp s) 0 - nth 2 (late_in_values s) 0);
              Amaranth.signed 32 (nth 3 (Y_tmp s) 0 + nth 3 (late_in_values s) 0) ];
       Y_tmp := map (fun n => Amaranth.signed 32
                                (Amaranth.tree_sum (Y_tmp_operands i n)))
                    (seq 0 4);
       late_in_values := [iv i 12; iv i 13; iv i 14; iv i 15] |}.

(** The four [result] wires.  Pointwise drives only [result[0]]; the other
    three keep their reset value.  Depthwise drives [Y[n] >> 2]. *)
Definition result (s : state) (i : inputs) : list Z :=
  if negb (switch_PorD i) then
    [ (if add_en i then acc_plus_sum s else accumulator s); 0; 0; 0 ]
  else
    map (fun y => Amaranth.signed 32 (Z.shiftr y 2)) (Y s).

(** Sample inputs: sixteen products, pointwise or depthwise. *)
Definition sample (products : list Z) (mode en clr : bool) : inputs :=
  {| add_en := en; in_values := products; switch_PorD := mode; clear := clr |}.

(** A product vector whose only non-zero entry is product 8. *)
Definition only_product_8 : list Z :=
  [0; 0; 0; 0; 0; 0; 0; 0; 1; 0; 0; 0; 0; 0; 0; 0].

(** The products 1, 2, ..., 16. *)
Definition one_to_sixteen : list Z :=
  [1; 2; 3; 4; 5; 6; 7; 8; 9; 10; 11; 12; 13; 14; 15; 16].

End AccOrTrans.

(** ** sequencing.py: [UpCounter] *)

Module UpCounter.

(** [count = Signal.like(self.max)], reset value 0. *)
Record state := { count : Z }.

Definition reset : state := {| count := 0 |}.

Record inputs := { restart : bool; en : bool; max : Z }.

(** [last_count = self.max - 1]. *)
Definition last_count (i : inputs) : Z := max i - 1.

(** [next_count = Mux(count == last_count, 0, count + 1)], as the [w]-bit
    register receives it. *)
Definition next_count (w : Z) (s : state) (i : inputs) : Z :=
  if count s =? last_count i then 0 else Amaranth.unsigned w (count s + 1).

(** [done] is driven only inside [If(self.en)]. *)
Definition done (s : state) (i : inputs) : bool :=
  en i && (count s =? last_count i).

(** The later [If(self.restart)] overrides the count. *)
Definition step (w : Z) (s : state) (i : inputs) : state :=
  {| count := if restart i then 0
              else if en i then next_count w s i
              else count s |}.

End UpCounter.

(** ** sequencing.py: [GateCalculator] *)

Module GateCalculator.

Record state := { running : bool }.

Definition reset : state := {| running := false |}.

Record inputs := {
  start_run : bool;
  all_output_finished : bool;
  in_store_ready : bool;
  fifo_has_space : bool
}.

Definition gate (s : state) (i : inputs) : bool :=
  (running s || start_run i) && in_store_ready i && fifo_has_space i.

(** [If(start_run)] sets [running], the later [If(all_output_finished)]
    clears it. *)
Definition step (s : state) (i : inputs) : state :=
  {| running := if all_output_finished i then false
                else if start_run i then true
                else running s |}.

End GateCalculator.

(** ** sequencing.py: [Sequencer] *)

Module Sequencer.

(** What the module takes from files that are not under src/: the widths of
    [filter_value_words] and [input_depth_words] (fixed by
    [config.FILTER_DATA_TOTAL_WORDS] and [config.MAX_PER_PIXEL_INPUT_WORDS])
    and the constant [PostProcessor.PIPELINE_CYCLES]. *)
Record config := {
  filter_value_words_width : Z;
  input_depth_words_width : Z;
  PostProcessor_PIPELINE_CYCLES : Z
}.

Record inputs := {
  start_run : bool;
  in_store_ready : bool;
  fifo_has_space : bool;
  filter_value_words : Z;
  input_depth_words : Z;
  restart : bool;
  switch_PorD : bool;
  num_tile : Z
}.

(** The registers of the submodules. *)
Record state := {
  gate_calc : GateCalculator.state;
  fnext_count : UpCounter.state;
  f_count : UpCounter.state;
  i_count : UpCounter.state;
  four_count : UpCounter.state;
  mul_delay : Delayer.state;
  pp_delay : Delayer.state;
  depth2_delay : Delayer.state
}.

Definition reset : state :=
  {| gate_calc := GateCalculator.reset;
     fnext_count := UpCounter.reset; f_count := UpCounter.reset;
     i_count := UpCounter.reset; four_count := UpCounter.reset;
     mul_delay := Delayer.reset; pp_delay := Delayer.reset;
     depth2_delay := Delayer.reset |}.

(** [x[1:]], a signal without its lowest bit. *)
Definition drop_bit0 (x : Z) : Z := Z.shiftr x 1.

Section Wires.

Variable cfg : config.
Variables (s : state) (i : inputs).

(** [self.gate.eq(gate_calc.gate)].  The gate does not read
    [all_output_finished], which is wired back from [f_count.done] below. *)
Definition gate : bool :=
  GateCalculator.gate (gate_calc s)
    {| GateCalculator.start_run := start_run i;
       GateCalculator.all_output_finished := false;
       GateCalculator.in_store_ready := in_store_ready i;
       GateCalculator.fifo_has_space := fifo_has_space i |}.

Definition fnext_count_in : UpCounter.inputs :=
  {| UpCounter.restart := restart i;
     UpCounter.en := gate;
     UpCounter.max := num_tile i |}.

Definition filter_next : bool :=
  if negb (switch_PorD i) then gate
  else UpCounter.done (fnext_count s) fnext_count_in.

Definition f_count_in : UpCounter.inputs :=
  {| UpCounter.restart := restart i;
     UpCounter.en := gate;
     UpCounter.max :=
       if negb (switch_PorD i) then drop_bit0 (filter_value_words i)
       else Amaranth.unsigned (filter_value_words_width cfg) (num_tile i) |}.

Definition all_output_finished : bool :=
  UpCounter.done (f_count s) f_count_in.

Definition mul_delay_in : Delayer.inputs :=
  {| Delayer.cycles := if negb (switch_PorD i) then 3 else 5;
     Delayer.input := gate |}.

Definition mul_done : bool := Delayer.output (mul_delay s) mul_delay_in.

Definition i_count_in : UpCounter.inputs :=
  {| UpCounter.restart := restart i;
     UpCounter.en := mul_done;
     UpCounter.max :=
       if negb (switch_PorD i) then drop_bit0 (input_depth_words i)
       else Amaranth.unsigned (input_depth_words_width cfg) (num_tile i) |}.

Definition acc_done : bool := UpCounter.done (i_count s) i_count_in.

Definition pp_delay_in : Delayer.inputs :=
  {| Delayer.cycles := Amaranth.unsigned 4 (PostProcessor_PIPELINE_CYCLES cfg);
     Delayer.input := acc_done |}.

Definition pp_done : bool := Delayer.output (pp_delay s) pp_delay_in.

Definition four_count_in : UpCounter.inputs :=
  {| UpCounter.restart := restart i;
     UpCounter.en := pp_done;
     UpCounter.max := 4 |}.

Definition depth2_delay_in : Delayer.inputs :=
  {| Delayer.cycles := Amaranth.unsigned 4 (PostProcessor_PIPELINE_CYCLES cfg);
     Delayer.input := mul_done |}.

Definition out_word_done : bool :=
  if negb (switch_PorD i) then UpCounter.done (four_count s) four_count_in
  else Delayer.output (depth2_delay s) depth2_delay_in.

(** Every submodule takes its clock edge with the wires of this cycle. *)
Definition step : state :=
  {| gate_calc :=
       GateCalculator.step (gate_calc s)
         {| GateCalculator.start_run := start_run i;
            GateCalculator.all_output_finished := all_output_finished;
            GateCalculator.in_store_ready := in_store_ready i;
            GateCalculator.fifo_has_space := fifo_has_space i |};
     fnext_count := UpCounter.step 16 (fnext_count s) fnext_count_in;
     f_count :=
       UpCounter.step (filter_value_words_width cfg) (f_count s) f_count_in;
     i_count :=
       UpCounter.step (input_depth_words_width cfg) (i_count s) i_count_in;
     four_count := UpCounter.step 3 (four_count s) four_count_in;
     mul_delay := Delayer.step (mul_delay s) mul_delay_in;
     pp_delay := Delayer.step (pp_delay s) pp_delay_in;
     depth2_delay := Delayer.step (depth2_delay s) depth2_delay_in |}.

End Wires.

(** The registers after a list of cycles. *)
Definition run (cfg : config) (s : state) (l : list inputs) : state :=
  fold_left (step cfg) l s.

(** A cycle of a stall: the output FIFO has no space, and nobody restarts. *)
Definition stalled (i : inputs) : Prop :=
  fifo_has_space i = false /\ restart i = false.

(** A sample configuration.  The input-word counter depends on none of its
    three fields beyond being wide enough to count to 4. *)
Definition sample_config : config :=
  {| filter_value_words_width := 12;
     input_depth_words_width := 10;
     PostProcessor_PIPELINE_CYCLES := 2 |}.

(** Sample pointwise cycles: 8 input words and 16 filter words per pixel;
    [go] starts a run with data ready and space in the FIFO, [full] is a
    later cycle in which the FIFO has no space. *)
Definition go : inputs :=
  {| start_run := true; in_store_ready := true; fifo_has_space := true;
     filter_value_words := 16; input_depth_words := 8;
     restart := false; switch_PorD := false; num_tile := 2 |}.

Definition full : inputs :=
  {| start_run := false; in_store_ready := true; fifo_has_space := false;
     filter_value_words := 16; input_depth_words := 8;
     restart := false; switch_PorD := false; num_tile := 2 |}.

End Sequencer.

(** ** store.py: [StoreSetter] *)

Module StoreSetter.

(** The constructor's arguments; [num_memories] is [2 ^ num_memories_bits]. *)
Record params := {
  bits_width : Z;
  num_memories_bits : Z;
  depth : Z
}.

Definition num_memories (p : params) : Z := 2 ^ num_memories_bits p.

(** [w_addr = Signal(range(depth))]. *)
Definition addr_width (p : params) : Z := Amaranth.bits_for (depth p - 1).

(** [count = Signal(range(depth * num_memories + 1))]. *)
Definition count_width (p : params) : Z :=
  Amaranth.bits_for (depth p * num_memories p).

(** [start] and [in0] come from the [Xetter] base class. *)
Record inputs := { start : bool; in0 : Z; restart : bool }.

Record state := { count : Z }.

Definition reset : state := {| count := 0 |}.

Section Wires.

Variable p : params.
Variables (s : state) (i : inputs).

(** [self.w_addr.eq(self.count[self.num_memories_bits:])]. *)
Definition w_addr : Z :=
  Amaranth.unsigned (addr_width p) (Z.shiftr (count s) (num_memories_bits p)).

(** The [Elif(self.start)] branch is taken. *)
Definition writing : bool := negb (restart i) && start i.

(** [self.w_en[self.count[:self.num_memories_bits]].eq(1)]. *)
Definition w_en (n : Z) : bool :=
  writing &&
  (n =? Amaranth.array_index (num_memories p)
          (Amaranth.slice (count s) 0 (num_memories_bits p))).

Definition w_data : Z :=
  if writing then Amaranth.unsigned (bits_width p) (in0 i) else 0.

(** [Cat(self.w_en).any() | self.restart]. *)
Definition updated : bool :=
  existsb w_en (map Z.of_nat (seq 0 (Z.to_nat (num_memories p))))
  || restart i.

Definition step : state :=
  {| count := if restart i then 0
              else if start i then Amaranth.unsigned (count_width p) (count s + 1)
              else count s |}.

(** Modelled from the spec: the write port of the [DualPortMemory] banks that
    [connect_write_port] wires to the setter; the class is part of the
    amaranth_cfu package, not of src/.  The spec has the setter store the
    incoming word into a bank: at the clock edge the bank whose [w_en] is
    high stores [w_data] at [w_addr].  A store is a function from bank and
    word address to the word held there. *)
Definition write_port (mem : Z -> Z -> Z) : Z -> Z -> Z :=
  fun n a => if w_en n && (a =? w_addr) then w_data else mem n a.

End Wires.

(** Sample: four banks of two words each, holding three words already. *)
Definition sample_params : params :=
  {| bits_width := 32; num_memories_bits := 2; depth := 2 |}.

Definition sample_state : state := {| count := 3 |}.

Definition sample_write : inputs :=
  {| start := true; in0 := 305419896; restart := false |}.

End StoreSetter.

(** ** store.py: [CircularIncrementer] *)

Module CircularIncrementer.

Record inputs := { restart : bool; next : bool; limit : Z }.

(** [last_addr = Signal.like(self.r_addr)], reset value 0. *)
Record state := { last_addr : Z }.

Definition reset : state := {| last_addr := 0 |}.

(** [limit] and [r_addr] are [Signal(range(depth))]. *)
Definition addr_width (depth : Z) : Z := Amaranth.bits_for (depth - 1).

(** The address presented this cycle: the last address by default, changed
    by [restart] or else by [next]. *)
Definition r_addr (depth : Z) (s : state) (i : inputs) : Z :=
  if restart i then 0
  else if next i then
    Amaranth.unsigned (addr_width depth)
      (if last_addr s >=? limit i - 1 then 0 else last_addr s + 1)
  else last_addr s.

(** [m.d.sync += last_addr.eq(self.r_addr)]. *)
Definition step (depth : Z) (s : state) (i : inputs) : state :=
  {| last_addr := r_addr depth s i |}.

Definition run (depth : Z) (s : state) (l : list inputs) : state :=
  fold_left (step depth) l s.

(** Sample: a [next] pulse with the limit at [L]. *)
Definition pulse (L : Z) : inputs :=
  {| restart := false; next := true; limit := L |}.

End CircularIncrementer.

(** ** store.py: [FilterValueFetcher], the read position *)

Module FilterValueFetcher.

Record inputs := {
  limit : Z;
  next : bool;
  restart : bool;
  switch_PorD : bool
}.

(** [r_addr = Signal.like(self.limit)], reset value 0. *)
Record state := { r_addr : Z }.

Definition reset : state := {| r_addr := 0 |}.

(** [x[:2]]. *)
Definition low2 (x : Z) : Z := Amaranth.slice x 0 2.

(** The indices into the four-element [smr_nexts] array that are assigned 1
    in this cycle. *)
Definition smr_next_indices (s : state) (i : inputs) : list Z :=
  if restart i then []
  else if next i then
    if negb (switch_PorD i) then
      [low2 (r_addr s); low2 (r_addr s) + 1]
    else
      [low2 (r_addr s); low2 (r_addr s + 1); low2 (r_addr s + 2)]
  else [].

(** [smr_nexts[n]]: the [next] input of sequential memory reader [n]. *)
Definition smr_nexts (s : state) (i : inputs) (n : Z) : bool :=
  existsb (fun idx => n =? Amaranth.array_index 4 idx) (smr_next_indices s i).

(** How far one [next] pulse moves the read position. *)
Definition stride (mode : bool) : Z := if mode then 3 else 2.

(** [limit] is [Signal(range(max_depth * 4))], and [r_addr] is like it. *)
Definition limit_width (max_depth : Z) : Z :=
  Amaranth.bits_for (max_depth * 4 - 1).

Definition step (max_depth : Z) (s : state) (i : inputs) : state :=
  {| r_addr :=
       if restart i then 0
       else if next i then
         if negb (switch_PorD i) then
           if r_addr s =? limit i - 2 then 0
           else Amaranth.unsigned (limit_width max_depth) (r_addr s + 2)
         else
           if r_addr s =? limit i - 3 then 0
           else Amaranth.unsigned (limit_width max_depth) (r_addr s + 3)
       else r_addr s |}.

Definition run (max_depth : Z) (s : state) (l : list inputs) : state :=
  fold_left (step max_depth) l s.

(** Sample: a [next] pulse in either mode, 24 filter words stored. *)
Definition pulse (mode : bool) : inputs :=
  {| limit := 24; next := true; restart := false; switch_PorD := mode |}.

End FilterValueFetcher.

(** ** store.py: [InputStore] *)

Module InputStore.

Record inputs := {
  restart : bool;
  input_depth : Z;
  w_data : Z;
  w_en : bool;
  r_next : bool;
  r_finished : bool;
  switch_PorD : bool;
  offset : Z;
  input_width : Z;
  pad : Z
}.

(** The registers of the write side and of the read sequencing, all reset to
    0, the counter [input_width_count], and the contents of the four memory
    banks as a function from bank and address to the stored word. *)
Record state := {
  r_full_0 : bool;
  r_full_1 : bool;
  w_curr_buf : bool;
  w_addr : Z;
  r_curr_buf : bool;
  r_addr : Z;
  last_full : bool;
  r_ready : bool;
  input_width_count : UpCounter.state;
  mem : Z -> Z -> Z
}.

Definition reset : state :=
  {| r_full_0 := false; r_full_1 := false;
     w_curr_buf := false; w_addr := 0;
     r_curr_buf := false; r_addr := 0;
     last_full := false; r_ready := false;
     input_width_count := UpCounter.reset;
     mem := fun _ _ => 0 |}.

(** [r_full[b]]. *)
Definition r_full (s : state) (b : bool) : bool :=
  if b then r_full_1 s else r_full_0 s.

(** The width of [input_depth], [Signal(range(max_depth * 4 // 2))], which
    [w_addr] and [r_addr] share. *)
Definition depth_width (max_depth : Z) : Z :=
  Amaranth.bits_for (max_depth * 4 / 2 - 1).

Section Wires.

Variable max_depth : Z.
Variables (s : state) (i : inputs).

Local Abbreviation dw := (depth_width max_depth).

(** [self.w_ready.eq(~r_full[w_curr_buf])]. *)
Definition w_ready : bool := negb (r_full s (w_curr_buf s)).

(** A write is accepted. *)
Definition w_accept : bool := w_en i && w_ready.

(** The accepted write is the one at [w_addr == input_depth - 1]. *)
Definition w_last : bool := w_accept && (w_addr s =? input_depth i - 1).

(** [dp.w_addr.eq(Cat(w_addr[2:], w_curr_buf))]: the buffer selector is the
    top address bit. *)
Definition buf_addr (low : Z) (b : bool) : Z :=
  Amaranth.Cat (dw - 2) low (Z.b2z b).

Definition dp_w_addr : Z := buf_addr (Amaranth.slice (w_addr s) 2 dw) (w_curr_buf s).

(** [dp.w_en.eq(self.w_en & self.w_ready & (n == w_addr[:2]))]. *)
Definition dp_w_en (n : Z) : bool :=
  w_accept && (n =? Amaranth.slice (w_addr s) 0 2).

(** [full.eq(r_full[r_curr_buf])]. *)
Definition full : bool := r_full s (r_curr_buf s).

(** [full & ~last_full]. *)
Definition full_rose : bool := full && negb (last_full s).

(** [self.r_next & self.r_ready]. *)
Definition r_accept : bool := r_next i && r_ready s.

(** The inputs of [input_width_count]: [en] is [r_next & r_ready], and the
    later assignment under [full & ~last_full] in depthwise mode sets it. *)
Definition input_width_count_in : UpCounter.inputs :=
  {| UpCounter.restart := restart i || r_finished i;
     UpCounter.en := if full_rose && switch_PorD i then true else r_accept;
     UpCounter.max := Amaranth.unsigned 8 (input_width i - 1) |}.

(** [r_full[b]] after the clock edge: the restart block of [elab] comes
    first, then the write side, then [r_finished]. *)
Definition next_r_full (b : bool) : bool :=
  if r_finished i && Bool.eqb (r_curr_buf s) b then false
  else if w_last && Bool.eqb (w_curr_buf s) b then true
  else if restart i then false
  else r_full s b.

Definition next_r_addr : Z :=
  if restart i then 0
  else if r_finished i then 0
  else if r_accept then
    if negb (switch_PorD i) then
      if r_addr s =? input_depth i - 2 then 0
      else Amaranth.unsigned dw (r_addr s + 2)
    else
      if negb (UpCounter.done (input_width_count s) input_width_count_in)
      then Amaranth.unsigned dw (r_addr s + 1)
      else Amaranth.unsigned dw (r_addr s + pad i + 2)
  else if full_rose && switch_PorD i then 1
  else r_addr s.

(** Modelled from the spec: the write port of the four [DualPortMemory]
    banks (amaranth_cfu, not under src/): at the clock edge the bank whose
    [w_en] is high stores the 32-bit [w_data] at [w_addr]. *)
Definition next_mem : Z -> Z -> Z :=
  fun n a =>
    if dp_w_en n && (a =? dp_w_addr) then Amaranth.unsigned 32 (w_data i)
    else mem s n a.

Definition step : state :=
  {| r_full_0 := next_r_full false;
     r_full_1 := next_r_full true;
     w_curr_buf :=
       if restart i then false
       else if w_last then negb (w_curr_buf s)
       else w_curr_buf s;
     w_addr :=
       if restart i then 0
       else if w_last then 0
       else if w_accept then Amaranth.unsigned dw (w_addr s + 1)
       else w_addr s;
     r_curr_buf :=
       if restart i then false
       else if r_finished i then negb (r_curr_buf s)
       else r_curr_buf s;
     r_addr := next_r_addr;
     last_full :=
       if restart i then false
       else if r_finished i then false
       else full;
     r_ready :=
       if restart i then false
       else if r_finished i then false
       else if full_rose then true
       else r_ready s;
     input_width_count :=
       UpCounter.step 8 (input_width_count s) input_width_count_in;
     mem := next_mem |}.

End Wires.

(** The states the store reaches from reset, whatever the inputs. *)
Inductive reachable (max_depth : Z) : state -> Prop :=
| reachable_reset : reachable max_depth reset
| reachable_step s i :
    reachable max_depth s -> reachable max_depth (step max_depth s i).

(** Buffer [b] accepts writes. *)
Definition writable (s : state) (b : bool) : Prop :=
  w_curr_buf s = b /\ r_full s b = false.

(** Buffer [b] is offered to the reader. *)
Definition readable (s : state) (b : bool) : Prop :=
  r_curr_buf s = b /\ r_ready s = true.

Definition run (max_depth : Z) (s : state) (l : list inputs) : state :=
  fold_left (step max_depth) l s.

(** A cycle that writes the word [x] into a store configured for pixels of
    [D] words, and does nothing else. *)
Definition write_cycle (D x : Z) : inputs :=
  {| restart := false; input_depth := D; w_data := x; w_en := true;
     r_next := false; r_finished := false; switch_PorD := false;
     offset := 0; input_width := 0; pad := 0 |}.

(** The cycles that write the words [w k], ..., [w (k + n - 1)]. *)
Definition write_cycles (D : Z) (w : nat -> Z) (k n : nat) : list inputs :=
  map (fun j => write_cycle D (w j)) (seq k n).

(** A sample write of one word into a store configured for pixels of one
    word, with [r_finished] or [restart] raised in the same cycle or not. *)
Definition one_word (finished restarted : bool) : inputs :=
  {| restart := restarted; input_depth := 1; w_data := 7; w_en := true;
     r_next := false; r_finished := finished; switch_PorD := false;
     offset := 0; input_width := 0; pad := 0 |}.

(** *** The read data registers

    What the read side registers for the multiplier.  The memory reader
    outputs [smr_datas] and the memory outputs [smr_mem_datas] (four 32-bit
    words each), the low bits of [r_addr] and [r_next & r_ready] come from
    the read sequencing above and from the memories; nothing that leads to
    them reads [offset].  [smr_no_d] is a two-bit register, [r_data_tmp] are
    sixteen [signed(12)] registers, [r_data] is a 192-bit register of
    sixteen 12-bit lanes. *)

Record data_inputs := {
  smr_datas : list Z;
  smr_mem_datas : list Z;
  r_addr_low : Z;
  d_r_accept : bool;
  d_offset : Z;
  d_switch_PorD : bool
}.

Record data_state := {
  smr_no_d : Z;
  r_data_tmp : list Z;
  r_data : list Z
}.

Definition data_reset : data_state :=
  {| smr_no_d := 0; r_data_tmp := repeat 0 16; r_data := repeat 0 16 |}.

(** [Cat] of 32-bit words, the first one in the low bits. *)
Definition Cat32 (l : list Z) : Z :=
  fold_right (fun x acc => Z.lor (Amaranth.unsigned 32 x) (Z.shiftl acc 32)) 0 l.

(** [tmp1]: the pair of reader outputs selected by [smr_no_p = r_addr[:2]]. *)
Definition tmp1 (i : data_inputs) : Z :=
  let d n := nth n (smr_datas i) 0 in
  if r_addr_low i =? 0 then Cat32 [d 0%nat; d 1%nat]
  else if r_addr_low i =? 2 then Cat32 [d 2%nat; d 3%nat]
  else 0.

(** [tmp2]: the four memory outputs, rotated by [smr_no_d]. *)
Definition tmp2 (s : data_state) (i : data_inputs) : Z :=
  let m n := nth n (smr_mem_datas i) 0 in
  if smr_no_d s =? 0 then Cat32 [m 0%nat; m 1%nat; m 2%nat; m 3%nat]
  else if smr_no_d s =? 1 then Cat32 [m 1%nat; m 2%nat; m 3%nat; m 0%nat]
  else if smr_no_d s =? 2 then Cat32 [m 2%nat; m 3%nat; m 0%nat; m 1%nat]
  else if smr_no_d s =? 3 then Cat32 [m 3%nat; m 0%nat; m 1%nat; m 2%nat]
  else 0.

Definition tmp (s : data_state) (i : data_inputs) : Z :=
  if negb (d_switch_PorD i) then tmp1 i else tmp2 s i.

(** [cut(tmp, n, 8).as_signed()]. *)
Definition byte (t : Z) (n : Z) : Z :=
  Amaranth.signed 8 (Amaranth.slice t (n * 8) ((n + 1) * 8)).

(** The operand lists of the sixteen [tree_sum]s that load [r_data_tmp];
    operands 0 and 2 hold a difference written without a comma. *)
Definition r_data_tmp_operands (t : Z) (n : nat) : list Z :=
  let c := byte t in
  match n with
  | 0%nat => [c 0; - c 8 - c 4; c 12]
  | 1%nat => [c 1; - c 9; c 4; - c 12]
  | 2%nat => [c 2; c 8 - c 6; - c 12]
  | 3%nat => [c 3; c 9; c 6; c 12]
  | 4%nat => [- c 1; c 9; c 4; - c 12]
  | 5%nat => [c 1; - c 9; - c 5; c 13]
  | 6%nat => [- c 3; - c 9; c 6; c 12]
  | 7%nat => [c 3; c 9; - c 7; - c 13]
  | 8%nat => [- c 2; c 8; c 6; - c 12]
  | 9%nat => [- c 3; c 9; - c 6; c 12]
  | 10%nat => [c 2; - c 10; - c 6; c 14]
  | 11%nat => [c 3; - c 11; c 6; - c 14]
  | 12%nat => [c 3; - c 9; - c 6; c 12]
  | 13%nat => [- c 3; c 9; c 7; - c 13]
  | 14%nat => [- c 3; c 11; c 6; - c 14]
  | _ => [c 3; - c 11; - c 7; c 15]
  end.

(** Lane [n] of [r_data] after the clock edge.  Pointwise: lanes 0..7 take a
    byte of [tmp] plus the offset, the others keep their value.  Depthwise:
    every lane takes the register [r_data_tmp[n]] of the current cycle, and
    lane 3 takes [tree_sum([r_data_tmp[3], offset << 2])]. *)
Definition next_lane (s : data_state) (i : data_inputs) (n : nat) : Z :=
  if negb (d_switch_PorD i) then
    if (n <? 8)%nat then
      Amaranth.unsigned 12 (byte (tmp s i) (Z.of_nat n) + d_offset i)
    else nth n (r_data s) 0
  else
    if (n =? 3)%nat then
      Amaranth.unsigned 12
        (Amaranth.tree_sum [nth 3 (r_data_tmp s) 0; Z.shiftl (d_offset i) 2])
    else Amaranth.unsigned 12 (nth n (r_data_tmp s) 0).

Definition data_step (s : data_state) (i : data_inputs) : data_state :=
  {| smr_no_d := if d_r_accept i then r_addr_low i else 0;
     r_data_tmp :=
       if negb (d_switch_PorD i) then r_data_tmp s
       else map (fun n => Amaranth.signed 12
                            (Amaranth.tree_sum
                               (r_data_tmp_operands (tmp s i) n)))
                (seq 0 16);
     r_data := map (next_lane s i) (seq 0 16) |}.

Definition data_run (s : data_state) (l : list data_inputs) : data_state :=
  fold_left data_step l s.

(** Two cycles of the two runs compared: both depthwise, the same words
    from the memories and the same read sequencing, any two offsets. *)
Definition same_read (a b : data_inputs) : Prop :=
  smr_datas a = smr_datas b /\
  smr_mem_datas a = smr_mem_datas b /\
  r_addr_low a = r_addr_low b /\
  d_r_accept a = d_r_accept b /\
  d_switch_PorD a = true /\ d_switch_PorD b = true.

(** What two runs that differ only in the offset agree on. *)
Definition agree_but_lane_3 (s1 s2 : data_state) : Prop :=
  smr_no_d s1 = smr_no_d s2 /\
  r_data_tmp s1 = r_data_tmp s2 /\
  forall n : nat, n <> 3%nat -> nth n (r_data s1) 0 = nth n (r_data s2) 0.

(** A sample depthwise cycle: the memories deliver the bytes 1, 2, ..., 16. *)
Definition sample_read (off : Z) : data_inputs :=
  {| smr_datas := [0; 0; 0; 0];
     smr_mem_datas := [0x04030201; 0x08070605; 0x0c0b0a09; 0x100f0e0d];
     r_addr_low := 0; d_r_accept := false;
     d_offset := off; d_switch_PorD := true |}.

End InputStore.

(** ** Signals made of equal words *)

Module Words.

(** [Cat] of [w]-bit words, the first one in the low bits: the signal whose
    [w]-bit slices are assigned the elements of the list one by one. *)
Definition cat (w : Z) (l : list Z) : Z :=
  fold_right (fun x acc => Z.lor (Amaranth.unsigned w x) (Z.shiftl acc w)) 0 l.

(** Modelled from the spec: [all_words(x, w)] is part of the amaranth_cfu
    package, not of src/.  The multiplier's data signals hold their values
    side by side, and [all_words] yields them in order: word [n] is the slice
    [x[n*w:(n+1)*w]], the same slice the [cut] helpers of store.py take. *)
Definition word (w : Z) (x : Z) (n : Z) : Z :=
  Amaranth.slice x (n * w) ((n + 1) * w).

End Words.

(** ** test_mnv2_cfu.py: [pack_vals] *)

Module TestHelpers.

(** The loop of [pack_vals]: [i] is the index [enumerate] has reached and
    [result] the value built so far; [mask] is [(1 << bits) - 1]. *)
Fixpoint pack_from (i : Z) (values : list Z) (offset bits result : Z) : Z :=
  match values with
  | [] => result
  | v :: rest =>
      pack_from (i + 1) rest offset bits
        (result + Z.shiftl (Z.land (v + offset) (Z.shiftl 1 bits - 1)) (i * bits))
  end.

Definition pack_vals (values : list Z) (offset bits : Z) : Z :=
  pack_from 0 values offset bits 0.

End TestHelpers.

(** ** mul.py: [ByteToWordShifter] *)

Module ByteToWordShifter.

(** [clear] is declared but never read. *)
Record inputs := { shift_en : bool; in_value : Z }.

(** [register = Signal(32)]. *)
Record state := { register : Z }.

Definition reset : state := {| register := 0 |}.

(** [calc = Cat(register[8:], self.in_value)]: the upper 24 bits of the
    register move down, the 8-bit input takes the top byte. *)
Definition calc (s : state) (i : inputs) : Z :=
  Amaranth.unsigned 32
    (Amaranth.Cat 24 (Amaranth.slice (register s) 8 32)
                     (Amaranth.unsigned 8 (in_value i))).

(** [result] is the register, or [calc] in a cycle that shifts. *)
Definition result (s : state) (i : inputs) : Z :=
  if shift_en i then calc s i else register s.

Definition step (s : state) (i : inputs) : state :=
  {| register := if shift_en i then calc s i else register s |}.

Definition run (s : state) (l : list inputs) : state := fold_left step l s.

(** The bytes shifted in during a run, in order. *)
Definition shifted (l : list inputs) : list Z :=
  map in_value (filter shift_en l).

(** Sample: the cycles of the test in test_macc.py that shift 0x11, 0x22,
    0x33 and, after an idle cycle, 0x99 into the word. *)
Definition sample_cycles : list inputs :=
  [ {| shift_en := true; in_value := 0x11 |};
    {| shift_en := false; in_value := 0 |};
    {| shift_en := true; in_value := 0x22 |};
    {| shift_en := true; in_value := 0x33 |};
    {| shift_en := false; in_value := 0 |};
    {| shift_en := true; in_value := 0x99 |} ].

End ByteToWordShifter.

(** ** mul.py: [Mul8Pipeline] *)

Module Mul8Pipeline.

(** The two 192-bit data signals; [offset] and [switch_PorD] are declared
    but never read. *)
Record inputs := { i_data : Z; f_data : Z }.

(** The sixteen pairs of [signed(12)] registers [i_tmp] and [f_tmp]. *)
Record state := { i_tmp : list Z; f_tmp : list Z }.

Definition reset : state := {| i_tmp := repeat 0 16; f_tmp := repeat 0 16 |}.

(** [i_tmp.eq(i_val.as_signed())] and [f_tmp.eq(f_val.as_signed())] for
    the sixteen 12-bit words of each data signal. *)
Definition step (s : state) (i : inputs) : state :=
  {| i_tmp := map (fun n => Amaranth.signed 12
                              (Words.word 12 (i_data i) (Z.of_nat n)))
                  (seq 0 16);
     f_tmp := map (fun n => Amaranth.signed 12
                              (Words.word 12 (f_data i) (Z.of_nat n)))
                  (seq 0 16) |}.

(** [product.eq(i_tmp * f_tmp)], a [signed(24)] wire for each lane. *)
Definition products (s : state) : list Z :=
  map (fun n => Amaranth.signed 24 (nth n (i_tmp s) 0 * nth n (f_tmp s) 0))
      (seq 0 16).

End Mul8Pipeline.

(** ** store.py: [FilterValueFetcher], the data path *)

Module FilterValueFetcherData.

(** The outputs of the four sequential memory readers, the read position
    [r_addr] of this cycle (the register of [FilterValueFetcher.state]) and
    the mode. *)
Record inputs := {
  smr_datas : list Z;
  r_addr : Z;
  switch_PorD : bool
}.

(** The registers [data_tmp] (sixteen [signed(12)]), [late_tmp] (four
    [signed(8)]) and the sixteen 12-bit lanes of [data]. *)
Record state := {
  data_tmp : list Z;
  late_tmp : list Z;
  data : list Z
}.

Definition reset : state :=
  {| data_tmp := repeat 0 16; late_tmp := repeat 0 4; data := repeat 0 16 |}.

(** [smr_datas[k]] for a two-bit index [k]. *)
Definition smr_data (i : inputs) (k : Z) : Z := nth (Z.to_nat k) (smr_datas i) 0.

(** [tmp = Cat(smr_datas[r_addr[:2]], smr_datas[(r_addr+1)[:2]],
    smr_datas[(r_addr+2)[:2]])]: 96 bits in a 128-bit signal. *)
Definition tmp (i : inputs) : Z :=
  InputStore.Cat32
    [ smr_data i (FilterValueFetcher.low2 (r_addr i));
      smr_data i (FilterValueFetcher.low2 (r_addr i + 1));
      smr_data i (FilterValueFetcher.low2 (r_addr i + 2)) ].

(** [cut(tmp, n, 8).as_signed()]. *)
Definition byte (t : Z) (n : Z) : Z :=
  Amaranth.signed 8 (Amaranth.slice t (n * 8) ((n + 1) * 8)).

(** What the depthwise branch assigns to [data_tmp[n]], before the
    [signed(12)] register truncates it. *)
Definition data_tmp_in (t : Z) (n : nat) : Z :=
  let c := byte t in
  match n with
  | 0%nat => Z.shiftl (c 0) 2
  | 1%nat => Amaranth.tree_sum [c 0; c 1; c 2]
  | 2%nat => Amaranth.tree_sum [c 0; c 3; c 6]
  | 3%nat => Amaranth.tree_sum [c 0; c 3; c 6; c 1; c 4]
  | 4%nat => Amaranth.tree_sum [c 0; - c 1; c 2]
  | 5%nat => Z.shiftl (c 2) 2
  | 6%nat => Amaranth.tree_sum [c 0; c 3; c 6; - c 1; - c 4]
  | 7%nat => Amaranth.tree_sum [c 2; c 5; c 8]
  | 8%nat => Amaranth.tree_sum [c 0; - c 3; c 6]
  | 9%nat => Amaranth.tree_sum [c 0; - c 3; c 6; c 1; - c 4]
  | 10%nat => Z.shiftl (c 6) 2
  | 11%nat => Amaranth.tree_sum [c 6; c 7; c 8]
  | 12%nat => Amaranth.tree_sum [c 0; - c 3; c 6; - c 1; c 4]
  | 13%nat => Amaranth.tree_sum [c 2; - c 5; c 8]
  | 14%nat => Amaranth.tree_sum [c 6; - c 7; c 8]
  | _ => Z.shiftl (c 8) 2
  end.

(** What the depthwise branch assigns to lane [n] of [data], from the
    registers of the current cycle. *)
Definition data_in (s : state) (n : nat) : Z :=
  let d k := nth k (data_tmp s) 0 in
  let l k := nth k (late_tmp s) 0 in
  match n with
  | 0%nat => d 0%nat
  | 1%nat => Z.shiftl (d 1%nat) 1
  | 2%nat => Z.shiftl (d 2%nat) 1
  | 3%nat => Amaranth.tree_sum [d 3%nat; l 0%nat; l 1%nat; l 2%nat; l 3%nat]
  | 4%nat => Z.shiftl (d 4%nat) 1
  | 5%nat => d 5%nat
  | 6%nat => Amaranth.tree_sum [d 6%nat; - l 0%nat; l 1%nat; l 2%nat; l 3%nat]
  | 7%nat => Z.shiftl (d 7%nat) 1
  | 8%nat => Z.shiftl (d 8%nat) 1
  | 9%nat => Amaranth.tree_sum [d 9%nat; l 0%nat; l 1%nat; - l 2%nat; l 3%nat]
  | 10%nat => d 10%nat
  | 11%nat => Z.shiftl (d 11%nat) 1
  | 12%nat => Amaranth.tree_sum [d 12%nat; - l 0%nat; l 1%nat; - l 2%nat; l 3%nat]
  | 13%nat => Z.shiftl (d 13%nat) 1
  | 14%nat => Z.shiftl (d 14%nat) 1
  | _ => d 15%nat
  end.

(** Lane [n] of [data] after the clock edge.  Pointwise: lanes 0..7 take a
    sign-extended byte of [tmp], the others keep their value.  Depthwise:
    every lane is loaded from [data_tmp] and [late_tmp]. *)
Definition next_lane (s : state) (i : inputs) (n : nat) : Z :=
  if negb (switch_PorD i) then
    if (n <? 8)%nat then Amaranth.unsigned 12 (byte (tmp i) (Z.of_nat n))
    else nth n (data s) 0
  else Amaranth.unsigned 12 (data_in s n).

Definition step (s : state) (i : inputs) : state :=
  {| data_tmp :=
       if negb (switch_PorD i) then data_tmp s
       else map (fun n => Amaranth.signed 12 (data_tmp_in (tmp i) n)) (seq 0 16);
     late_tmp :=
       if negb (switch_PorD i) then late_tmp s
       else [ byte (tmp i) 7; byte (tmp i) 2; byte (tmp i) 5; byte (tmp i) 8 ];
     data := map (next_lane s i) (seq 0 16) |}.

(** The depthwise branch as it was before it was split into two stages: the
    assignments left in the comment below it compute every lane of [data]
    from the bytes of [tmp] in one step. *)
Definition one_stage_lane (t : Z) (n : nat) : Z :=
  let c := byte t in
  match n with
  | 0%nat => Z.shiftl (c 0) 2
  | 1%nat => Z.shiftl (c 0 + c 1 + c 2) 1
  | 2%nat => Z.shiftl (c 0 + c 3 + c 6) 1
  | 3%nat => c 0 + c 3 + c 6 + c 1 + c 4 + c 7 + c 2 + c 5 + c 8
  | 4%nat => Z.shiftl (c 0 - c 1 + c 2) 1
  | 5%nat => Z.shiftl (c 2) 2
  | 6%nat => c 0 + c 3 + c 6 - c 1 - c 4 - c 7 + c 2 + c 5 + c 8
  | 7%nat => Z.shiftl (c 2 + c 5 + c 8) 1
  | 8%nat => Z.shiftl (c 0 - c 3 + c 6) 1
  | 9%nat => c 0 - c 3 + c 6 + c 1 - c 4 + c 7 + c 2 - c 5 + c 8
  | 10%nat => Z.shiftl (c 6) 2
  | 11%nat => Z.shiftl (c 6 + c 7 + c 8) 1
  | 12%nat => c 0 - c 3 + c 6 - c 1 + c 4 - c 7 + c 2 - c 5 + c 8
  | 13%nat => Z.shiftl (c 2 - c 5 + c 8) 1
  | 14%nat => Z.shiftl (c 6 - c 7 + c 8) 1
  | _ => Z.shiftl (c 8) 2
  end.

(** Sample: a depthwise cycle presenting the filter bytes 1, 2, ..., 9. *)
Definition sample_filter : inputs :=
  {| smr_datas := [0x04030201; 0x08070605; 0x00000009; 0];
     r_addr := 0; switch_PorD := true |}.

End FilterValueFetcherData.

(** ** The minimal 2x2-output, 3x3-filter convolution

    The reference the depthwise path is compared with: the direct 3x3
    convolution of a 4x4 tile, and the three matrices of the minimal
    filtering algorithm F(2x2, 3x3) that computes it with sixteen
    multiplications. *)

Module Winograd.

(** The sum of [f 0], ..., [f (n - 1)]. *)
Definition sum_to (n : nat) (f : Z -> Z) : Z :=
  Amaranth.sum (map f (map Z.of_nat (seq 0 n))).

(** A 4x4 matrix is kept in sixteen lanes as four 2x2 blocks: entry
    (r, c) is lane [tile_index r c]. *)
Definition tile_index (r c : Z) : Z :=
  8 * (r / 2) + 4 * (c / 2) + 2 * (r mod 2) + c mod 2.

(** The direct computation: the 3x3 filter [g] laid over the tile [d] with
    its corner at row [a], column [b], every input raised by [off]. *)
Definition conv3x3 (g d : Z -> Z -> Z) (off a b : Z) : Z :=
  sum_to 3 (fun r => sum_to 3 (fun c => g r c * (d (a + r) (b + c) + off))).

(** The input transform matrix, 4x4. *)
Definition BT (r a : Z) : Z :=
  nth (Z.to_nat a)
      (nth (Z.to_nat r)
           [ [1; 0; -1; 0]; [0; 1; 1; 0]; [0; -1; 1; 0]; [0; 1; 0; -1] ] [])
      0.

(** Twice the filter transform matrix, 4x3: the entries of the matrix
    itself are halves. *)
Definition G2 (r a : Z) : Z :=
  nth (Z.to_nat a)
      (nth (Z.to_nat r) [ [2; 0; 0]; [1; 1; 1]; [1; -1; 1]; [0; 0; 2] ] [])
      0.

(** The output transform matrix, 2x4. *)
Definition AT (a r : Z) : Z :=
  nth (Z.to_nat r)
      (nth (Z.to_nat a) [ [1; 1; 1; 0]; [0; 1; -1; -1] ] [])
      0.

(** Entry (r, c) of [BT * (d + off) * B]. *)
Definition input_transform (d : Z -> Z -> Z) (off r c : Z) : Z :=
  sum_to 4 (fun a => sum_to 4 (fun b => BT r a * (d a b + off) * BT c b)).

(** Entry (r, c) of [G2 * g * G2^T], four times the filter transform. *)
Definition filter_transform (g : Z -> Z -> Z) (r c : Z) : Z :=
  sum_to 3 (fun a => sum_to 3 (fun b => G2 r a * g a b * G2 c b)).

(** Entry (a, b) of [AT * m * A]. *)
Definition output_transform (m : Z -> Z -> Z) (a b : Z) : Z :=
  sum_to 4 (fun r => sum_to 4 (fun c => AT a r * m r c * AT b c)).

End Winograd.

(** ** mnv2_cfu.py: the calculation path

    [elab_xetters] wires the read stage of the input store and the filter
    value fetcher to the multiplier, and the multiplier to the accumulator:
    [mul.i_data.eq(ins.r_data)], [mul.f_data.eq(fvf.data)],
    [acc.in_values[n].eq(mul.products[n])], [acc.add_en.eq(seq.mul_done)],
    [acc.clear.eq(seq.acc_done)]; the registers [switch_PorD] and
    [input_offset] feed every stage. *)

Module Datapath.

Record inputs := {
  ins_smr_datas : list Z;
  ins_smr_mem_datas : list Z;
  ins_r_addr_low : Z;
  ins_r_accept : bool;
  fvf_smr_datas : list Z;
  fvf_r_addr : Z;
  input_offset : Z;
  switch_PorD : bool;
  mul_done : bool;
  acc_done : bool
}.

Record state := {
  ins : InputStore.data_state;
  fvf : FilterValueFetcherData.state;
  mul : Mul8Pipeline.state;
  acc : AccOrTrans.state
}.

Definition reset : state :=
  {| ins := InputStore.data_reset; fvf := FilterValueFetcherData.reset;
     mul := Mul8Pipeline.reset; acc := AccOrTrans.reset |}.

Definition ins_in (i : inputs) : InputStore.data_inputs :=
  {| InputStore.smr_datas := ins_smr_datas i;
     InputStore.smr_mem_datas := ins_smr_mem_datas i;
     InputStore.r_addr_low := ins_r_addr_low i;
     InputStore.d_r_accept := ins_r_accept i;
     InputStore.d_offset := input_offset i;
     InputStore.d_switch_PorD := switch_PorD i |}.

Definition fvf_in (i : inputs) : FilterValueFetcherData.inputs :=
  {| FilterValueFetcherData.smr_datas := fvf_smr_datas i;
     FilterValueFetcherData.r_addr := fvf_r_addr i;
     FilterValueFetcherData.switch_PorD := switch_PorD i |}.

(** The two 192-bit signals are the sixteen 12-bit lanes side by side. *)
Definition mul_in (s : state) : Mul8Pipeline.inputs :=
  {| Mul8Pipeline.i_data := Words.cat 12 (InputStore.r_data (ins s));
     Mul8Pipeline.f_data := Words.cat 12 (FilterValueFetcherData.data (fvf s)) |}.

Definition acc_in (s : state) (i : inputs) : AccOrTrans.inputs :=
  {| AccOrTrans.add_en := mul_done i;
     AccOrTrans.in_values := Mul8Pipeline.products (mul s);
     AccOrTrans.switch_PorD := switch_PorD i;
     AccOrTrans.clear := acc_done i |}.

Definition step (s : state) (i : inputs) : state :=
  {| ins := InputStore.data_step (ins s) (ins_in i);
     fvf := FilterValueFetcherData.step (fvf s) (fvf_in i);
     mul := Mul8Pipeline.step (mul s) (mul_in s);
     acc := AccOrTrans.step (acc s) (acc_in s i) |}.

Definition run (s : state) (l : list inputs) : state := fold_left step l s.

(** [acc.result], the inputs of the four post processors. *)
Definition result (s : state) (i : inputs) : list Z :=
  AccOrTrans.result (acc s) (acc_in s i).

(** The input bytes and the filter bytes a cycle presents to the path. *)
Definition input_byte (s : state) (i : inputs) (n : Z) : Z :=
  InputStore.byte (InputStore.tmp (ins s) (ins_in i)) n.

Definition filter_byte (i : inputs) (n : Z) : Z :=
  FilterValueFetcherData.byte (FilterValueFetcherData.tmp (fvf_in i)) n.

(** Depthwise, the sixteen input bytes are a 4x4 tile and the first nine
    filter bytes a 3x3 filter, row-major. *)
Definition tile (s : state) (i : inputs) (r c : Z) : Z :=
  input_byte s i (Winograd.tile_index r c).

Definition taps (i : inputs) (r c : Z) : Z := filter_byte i (3 * r + c).

(** A sample depthwise cycle: the tile rows (1 2 3 4), (5 6 7 8),
    (9 10 11 12), (13 14 15 16) and the filter taps 1..9, offset [off]. *)
Definition sample_cycle (off : Z) : inputs :=
  {| ins_smr_datas := [0; 0; 0; 0];
     ins_smr_mem_datas := [0x06050201; 0x08070403; 0x0e0d0a09; 0x100f0c0b];
     ins_r_addr_low := 0; ins_r_accept := false;
     fvf_smr_datas := [0x04030201; 0x08070605; 0x00000009; 0];
     fvf_r_addr := 0;
     input_offset := off; switch_PorD := true;
     mul_done := false; acc_done := false |}.

(** A sample pointwise cycle: input bytes 1..8, filter bytes 1..8. *)
Definition sample_pointwise (off : Z) (en : bool) : inputs :=
  {| ins_smr_datas := [0x04030201; 0x08070605; 0; 0];
     ins_smr_mem_datas := [0; 0; 0; 0];
     ins_r_addr_low := 0; ins_r_accept := false;
     fvf_smr_datas := [0x04030201; 0x08070605; 0; 0];
     fvf_r_addr := 0;
     input_offset := off; switch_PorD := false;
     mul_done := en; acc_done := false |}.

End Datapath.

(** ** sequencing.py: runs of [UpCounter] and [Sequencer] *)

Module UpCounterRun.

Definition run (w : Z) (s : UpCounter.state) (l : list UpCounter.inputs)
  : UpCounter.state :=
  fold_left (UpCounter.step w) l s.

(** The number of cycles of a run in which [en] is high. *)
Definition pulses (l : list UpCounter.inputs) : nat :=
  length (filter UpCounter.en l).

(** A cycle counting to [M]: no restart, [en] as given. *)
Definition cycle (M : Z) (e : bool) : UpCounter.inputs :=
  {| UpCounter.restart := false; UpCounter.en := e; UpCounter.max := M |}.

End UpCounterRun.

Module SequencerRun.

(** The registers at tick [t], when the inputs of tick [k] are [i k]. *)
Fixpoint at_tick (cfg : Sequencer.config) (i : nat -> Sequencer.inputs)
    (s0 : Sequencer.state) (t : nat) : Sequencer.state :=
  match t with
  | O => s0
  | S t' => Sequencer.step cfg (at_tick cfg i s0 t') (i t')
  end.

(** The number of ticks before [t] at which [gate] was high. *)
Fixpoint gates (cfg : Sequencer.config) (i : nat -> Sequencer.inputs)
    (s0 : Sequencer.state) (t : nat) : nat :=
  match t with
  | O => O
  | S t' =>
      (gates cfg i s0 t' +
       if Sequencer.gate (at_tick cfg i s0 t') (i t') then 1 else 0)%nat
  end.

(** The word count of a run: what [f_count.max] is driven with. *)
Definition run_words (cfg : Sequencer.config) (i : Sequencer.inputs) : Z :=
  UpCounter.max (Sequencer.f_count_in cfg Sequencer.reset i).

(** The setting of [mul_delay.cycles] in a cycle, as a number of ticks. *)
Definition mul_latency (i : Sequencer.inputs) : nat :=
  if Sequencer.switch_PorD i then 5%nat else 3%nat.

(** A sample pointwise run of 16 filter words: started at tick 0, the data
    ready at every tick, the FIFO with space at every tick but 2 and 3. *)
Definition sample_run (k : nat) : Sequencer.inputs :=
  {| Sequencer.start_run := Nat.eqb k 0;
     Sequencer.in_store_ready := true;
     Sequencer.fifo_has_space := negb (Nat.eqb k 2 || Nat.eqb k 3);
     Sequencer.filter_value_words := 16;
     Sequencer.input_depth_words := 8;
     Sequencer.restart := false;
     Sequencer.switch_PorD := false;
     Sequencer.num_tile := 2 |}.

(** A sample run with a single filter word: the word count is 0. *)
Definition sample_empty (k : nat) : Sequencer.inputs :=
  {| Sequencer.start_run := Nat.eqb k 0;
     Sequencer.in_store_ready := true;
     Sequencer.fifo_has_space := true;
     Sequencer.filter_value_words := 1;
     Sequencer.input_depth_words := 8;
     Sequencer.restart := false;
     Sequencer.switch_PorD := false;
     Sequencer.num_tile := 2 |}.

(** A sample depthwise run over two tiles, never stalled. *)
Definition sample_depthwise (k : nat) : Sequencer.inputs :=
  {| Sequencer.start_run := Nat.eqb k 0;
     Sequencer.in_store_ready := true;
     Sequencer.fifo_has_space := true;
     Sequencer.filter_value_words := 9;
     Sequencer.input_depth_words := 8;
     Sequencer.restart := false;
     Sequencer.switch_PorD := true;
     Sequencer.num_tile := 2 |}.

End SequencerRun.

(** ** store.py: [NextWordGetter] *)

Module NextWordGetter.

(** [start] comes from the [Xetter] base class. *)
Record inputs := { start : bool; data : Z; ready : bool }.

Record state := { waiting : bool }.

Definition reset : state := {| waiting := false |}.

(** The condition of the [If]: [ready & (waiting | start)]. *)
Definition completes (s : state) (i : inputs) : bool :=
  ready i && (waiting s || start i).

Definition done (s : state) (i : inputs) : bool := completes s i.

Definition next (s : state) (i : inputs) : bool := completes s i.

(** [output] comes from the [Xetter] base class, a 32-bit signal. *)
Definition output (s : state) (i : inputs) : Z :=
  if completes s i then Amaranth.unsigned 32 (data i) else 0.

Definition step (s : state) (i : inputs) : state :=
  {| waiting := if completes s i then false
                else if start i && negb (ready i) then true
                else waiting s |}.

Definition run (s : state) (l : list inputs) : state := fold_left step l s.

(** Sample cycles: a request with no data ready, a cycle of waiting, and
    the cycle in which the word 42 is ready. *)
Definition sample_request : inputs :=
  {| start := true; data := 0; ready := false |}.

Definition sample_wait : inputs :=
  {| start := false; data := 0; ready := false |}.

Definition sample_ready : inputs :=
  {| start := false; data := 42; ready := true |}.

End NextWordGetter.

(** ** store.py: [InputStoreSetter] *)

Module InputStoreSetter.

(** [start] and [in0] come from the [Xetter] base class. *)
Record inputs := { start : bool; in0 : Z; w_ready : bool }.

Record state := { buffer : Z; waiting : bool }.

Definition reset : state := {| buffer := 0; waiting := false |}.

(** The branch of the [If]/[Elif]/[Elif] chain that is taken. *)
Inductive branch := Direct | Hold | Late | Idle.

Definition taken (s : state) (i : inputs) : branch :=
  if start i && w_ready i then Direct
  else if start i && negb (w_ready i) then Hold
  else if waiting s && negb (w_ready i) then Late
  else Idle.

Definition done (s : state) (i : inputs) : bool :=
  match taken s i with Direct | Late => true | _ => false end.

Definition w_en (s : state) (i : inputs) : bool :=
  match taken s i with Direct | Late => true | _ => false end.

Definition w_data (s : state) (i : inputs) : Z :=
  match taken s i with
  | Direct | Late => Amaranth.unsigned 32 (in0 i)
  | _ => 0
  end.

Definition step (s : state) (i : inputs) : state :=
  match taken s i with
  | Direct | Idle => s
  | Hold => {| buffer := Amaranth.unsigned 32 (in0 i); waiting := true |}
  | Late => {| buffer := buffer s; waiting := true |}
  end.

End InputStoreSetter.

(** ** mnv2_cfu.py: the input store and its setter, [_make_input_store] *)

Module InputPort.

(** The CPU side ([start], [in0]) and the inputs of the store that the
    setter does not drive; the fields [w_data] and [w_en] of [others] are
    not read. *)
Record inputs := {
  start : bool;
  in0 : Z;
  others : InputStore.inputs
}.

Record state := {
  setter : InputStoreSetter.state;
  store : InputStore.state
}.

Definition reset : state :=
  {| setter := InputStoreSetter.reset; store := InputStore.reset |}.

(** [self.w_ready.eq(input_store.w_ready)]. *)
Definition setter_in (s : state) (i : inputs) : InputStoreSetter.inputs :=
  {| InputStoreSetter.start := start i;
     InputStoreSetter.in0 := in0 i;
     InputStoreSetter.w_ready := InputStore.w_ready (store s) |}.

(** [input_store.w_data.eq(self.w_data)], [input_store.w_en.eq(self.w_en)]. *)
Definition store_in (s : state) (i : inputs) : InputStore.inputs :=
  {| InputStore.restart := InputStore.restart (others i);
     InputStore.input_depth := InputStore.input_depth (others i);
     InputStore.w_data := InputStoreSetter.w_data (setter s) (setter_in s i);
     InputStore.w_en := InputStoreSetter.w_en (setter s) (setter_in s i);
     InputStore.r_next := InputStore.r_next (others i);
     InputStore.r_finished := InputStore.r_finished (others i);
     InputStore.switch_PorD := InputStore.switch_PorD (others i);
     InputStore.offset := InputStore.offset (others i);
     InputStore.input_width := InputStore.input_width (others i);
     InputStore.pad := InputStore.pad (others i) |}.

(** The [done] signal the CPU sees. *)
Definition done (s : state) (i : inputs) : bool :=
  InputStoreSetter.done (setter s) (setter_in s i).

Definition step (max_depth : Z) (s : state) (i : inputs) : state :=
  {| setter := InputStoreSetter.step (setter s) (setter_in s i);
     store := InputStore.step max_depth (store s) (store_in s i) |}.

Definition run (max_depth : Z) (s : state) (l : list inputs) : state :=
  fold_left (step max_depth) l s.

(** Sample: a store whose write buffer is full, and the CPU offering the
    word 7 and then waiting, pixels of one word. *)
Definition sample_full : state :=
  {| setter := InputStoreSetter.reset;
     store := InputStore.step 8
                (InputStore.step 8 InputStore.reset
                   (InputStore.one_word false false))
                (InputStore.one_word false false) |}.

Definition sample_offer (st : bool) : inputs :=
  {| start := st; in0 := 7;
     others := {| InputStore.restart := false; InputStore.input_depth := 1;
                  InputStore.w_data := 0; InputStore.w_en := false;
                  InputStore.r_next := false; InputStore.r_finished := false;
                  InputStore.switch_PorD := false; InputStore.offset := 0;
                  InputStore.input_width := 0; InputStore.pad := 0 |} |}.

End InputPort.

(** ** mnv2_cfu.py: the padding of a row *)

Module Cfu.

(** The [If]/[Elif] chain on [input_width[:2]] that drives [pad]. *)
Definition pad (input_width : Z) : Z :=
  let low := Amaranth.slice input_width 0 2 in
  if low =? 0 then 2
  else if low =? 1 then 1
  else if low =? 2 then 0
  else 3.

End Cfu.

(** ** store.py: [InputStore], the depthwise read addresses *)

Module InputStoreRead.

(** The elements of [mem_addrs] are [Signal(range(max_depth // 2))]. *)
Definition mem_addr_width (max_depth : Z) : Z :=
  Amaranth.bits_for (max_depth / 2 - 1).

(** [input_width + pad], the distance from a word to the word below it. *)
Definition row (i : InputStore.inputs) : Z :=
  InputStore.input_width i + InputStore.pad i.

(** The assignments to elements of [mem_addrs] in a cycle, in program
    order, as pairs of index and value: four under an accepted depthwise
    read, none under an accepted pointwise read, and the four of the [Else]
    when no read is accepted. *)
Definition mem_addr_writes (s : InputStore.state) (i : InputStore.inputs)
  : list (Z * Z) :=
  let r := InputStore.r_addr s in
  if InputStore.r_accept s i then
    if negb (InputStore.switch_PorD i) then []
    else
      [ (FilterValueFetcher.low2 r, Z.shiftr r 2);
        (FilterValueFetcher.low2 (r + 1), Z.shiftr (r + 1) 2);
        (FilterValueFetcher.low2 (r + row i), Z.shiftr (r + row i) 2);
        (FilterValueFetcher.low2 (r + row i + 1), Z.shiftr (r + row i + 1) 2) ]
  else
    [ (0, 0); (1, 0); (2, Z.shiftr (row i) 2); (3, Z.shiftr (row i + 1) 2) ].

(** [mem_addrs[n]]: the last assignment to the element wins, an element
    that is not assigned is 0. *)
Definition mem_addrs (max_depth : Z) (s : InputStore.state)
    (i : InputStore.inputs) (n : Z) : Z :=
  fold_left
    (fun acc kv =>
       if n =? fst kv then Amaranth.unsigned (mem_addr_width max_depth) (snd kv)
       else acc)
    (mem_addr_writes s i) 0.

(** Depthwise, [dp.r_addr.eq(Cat(mem_addr, r_curr_buf))] for bank [n]. *)
Definition dp_r_addr (max_depth : Z) (s : InputStore.state)
    (i : InputStore.inputs) (n : Z) : Z :=
  Amaranth.Cat (mem_addr_width max_depth) (mem_addrs max_depth s i n)
               (Z.b2z (InputStore.r_curr_buf s)).

(** Modelled from the spec: the read port of the four [DualPortMemory]
    banks (amaranth_cfu, not under src/).  The spec has a value a stage
    produces at one cycle available to its consumer a fixed latency later;
    for the memories the latency is one cycle: the words the banks deliver
    in the next cycle are the ones stored at the addresses presented in
    this one. *)
Definition read_data (max_depth : Z) (s : InputStore.state)
    (i : InputStore.inputs) : list Z :=
  map (fun n => InputStore.mem s n (dp_r_addr max_depth s i n)) [0; 1; 2; 3].

(** The word position a cycle reads at: the read address under an accepted
    read, the start of the buffer otherwise. *)
Definition position (s : InputStore.state) (i : InputStore.inputs) : Z :=
  if InputStore.r_accept s i then InputStore.r_addr s else 0.

(** Buffer [b] holds the [D] words [v 0], ..., [v (D - 1)] where the write
    side places them. *)
Definition holds (max_depth : Z) (s : InputStore.state) (b : bool)
    (D : Z) (v : Z -> Z) : Prop :=
  forall j, 0 <= j < D ->
    InputStore.mem s (j mod 4) (InputStore.buf_addr max_depth (j / 4) b) = v j.

(** The inputs of the read data registers in a cycle of the store. *)
Definition data_in (s : InputStore.state) (i : InputStore.inputs)
    (readers banks : list Z) : InputStore.data_inputs :=
  {| InputStore.smr_datas := readers;
     InputStore.smr_mem_datas := banks;
     InputStore.r_addr_low := FilterValueFetcher.low2 (InputStore.r_addr s);
     InputStore.d_r_accept := InputStore.r_accept s i;
     InputStore.d_offset := InputStore.offset i;
     InputStore.d_switch_PorD := InputStore.switch_PorD i |}.

(** Sample: a store of depth 8 whose buffer 0 holds the words 100, 101,
    ..., 111 and is offered to the reader at word 1, and a depthwise read
    in rows of four words, six with the padding. *)
Definition sample_store : InputStore.state :=
  {| InputStore.r_full_0 := true; InputStore.r_full_1 := false;
     InputStore.w_curr_buf := true; InputStore.w_addr := 0;
     InputStore.r_curr_buf := false; InputStore.r_addr := 1;
     InputStore.last_full := true; InputStore.r_ready := true;
     InputStore.input_width_count := UpCounter.reset;
     InputStore.mem := fun n a => if a <? 3 then 100 + 4 * a + n else 0 |}.

Definition sample_read : InputStore.inputs :=
  {| InputStore.restart := false; InputStore.input_depth := 12;
     InputStore.w_data := 0; InputStore.w_en := false;
     InputStore.r_next := true; InputStore.r_finished := false;
     InputStore.switch_PorD := true; InputStore.offset := 0;
     InputStore.input_width := 4; InputStore.pad := 2 |}.

(** The next cycle of the sample: the banks deliver what was addressed. *)
Definition sample_next : InputStore.data_inputs :=
  {| InputStore.smr_datas := [0; 0; 0; 0];
     InputStore.smr_mem_datas := read_data 8 sample_store sample_read;
     InputStore.r_addr_low := 2; InputStore.d_r_accept := true;
     InputStore.d_offset := 0; InputStore.d_switch_PorD := true |}.

End InputStoreRead.

(** ** store.py: [InputStore], the words a run writes *)

Module InputStoreWrite.

(** The words the store takes in over a run, in the order of their cycles:
    [w_data] of every cycle in which [w_en] and [w_ready] are both high. *)
Fixpoint accepted (max_depth : Z) (s : InputStore.state)
    (l : list InputStore.inputs) : list Z :=
  match l with
  | [] => []
  | i :: l' =>
      (if InputStore.w_en i && InputStore.w_ready s
       then [InputStore.w_data i] else [])
      ++ accepted max_depth (InputStore.step max_depth s i) l'
  end.

(** How many words the store takes in over a run. *)
Definition count (max_depth : Z) (s : InputStore.state)
    (l : list InputStore.inputs) : Z :=
  Z.of_nat (length (accepted max_depth s l)).

(** Word [j] of pixel [p] in a stream [ws] of pixels of [D] words each, as
    a memory holds it. *)
Definition pixel (D : Z) (ws : list Z) (p j : Z) : Z :=
  Amaranth.unsigned 32 (nth (Z.to_nat (D * p + j)) ws 0).

(** A sample cycle of a store configured for pixels of three words: the
    word [x] is offered if [en], and a read is requested if [next]. *)
Definition sample_cycle (x : Z) (en next : bool) : InputStore.inputs :=
  {| InputStore.restart := false; InputStore.input_depth := 3;
     InputStore.w_data := x; InputStore.w_en := en;
     InputStore.r_next := next; InputStore.r_finished := false;
     InputStore.switch_PorD := false; InputStore.offset := 0;
     InputStore.input_width := 0; InputStore.pad := 0 |}.

(** A sample run: the pixel 11, 22, 33 is written with two pauses; then the
    words 44 and 55 of the next pixel are written while the reader, which
    has been offered the first pixel, reads. *)
Definition sample_run : list InputStore.inputs :=
  [ sample_cycle 11 true false; sample_cycle 22 true false;
    sample_cycle 0 false false; sample_cycle 33 true false;
    sample_cycle 0 false false;
    sample_cycle 44 true true; sample_cycle 55 true true ].

End InputStoreWrite.

(** ** mnv2_cfu.py: a parameter store, [_make_output_channel_param_store]

    A [StoreSetter] over one memory, a [CircularIncrementer] of the same
    depth whose limit is the setter's count, and the memory between them;
    both are restarted by the same signal. *)

Module ParamStore.

Record inputs := { start : bool; in0 : Z; restart : bool; next : bool }.

(** The memory is a function from address to the word stored there. *)
Record state := {
  psset : StoreSetter.state;
  inc : CircularIncrementer.state;
  mem : Z -> Z
}.

Definition reset : state :=
  {| psset := StoreSetter.reset; inc := CircularIncrementer.reset;
     mem := fun _ => 0 |}.

(** [StoreSetter(32, 1, depth)]: one memory, so no bank bits. *)
Definition params (depth : Z) : StoreSetter.params :=
  {| StoreSetter.bits_width := 32; StoreSetter.num_memories_bits := 0;
     StoreSetter.depth := depth |}.

Definition set_in (i : inputs) : StoreSetter.inputs :=
  {| StoreSetter.start := start i; StoreSetter.in0 := in0 i;
     StoreSetter.restart := restart i |}.

(** [inc.limit.eq(psset.count)], into a signal of the address width. *)
Definition inc_in (depth : Z) (s : state) (i : inputs)
  : CircularIncrementer.inputs :=
  {| CircularIncrementer.restart := restart i;
     CircularIncrementer.next := next i;
     CircularIncrementer.limit :=
       Amaranth.unsigned (CircularIncrementer.addr_width depth)
                         (StoreSetter.count (psset s)) |}.

(** [dp.r_addr.eq(inc.r_addr)]. *)
Definition r_addr (depth : Z) (s : state) (i : inputs) : Z :=
  CircularIncrementer.r_addr depth (inc s) (inc_in depth s i).

Definition step (depth : Z) (s : state) (i : inputs) : state :=
  {| psset := StoreSetter.step (params depth) (psset s) (set_in i);
     inc := CircularIncrementer.step depth (inc s) (inc_in depth s i);
     mem := StoreSetter.write_port (params depth) (psset s) (set_in i)
              (fun _ => mem s) 0 |}.

Definition run (depth : Z) (s : state) (l : list inputs) : state :=
  fold_left (step depth) l s.

(** The cycles of a use of the store: storing the word [x], asking for the
    next parameter, and doing neither. *)
Definition store_word (x : Z) : inputs :=
  {| start := true; in0 := x; restart := false; next := false |}.

Definition advance : inputs :=
  {| start := false; in0 := 0; restart := false; next := true |}.

Definition idle : inputs :=
  {| start := false; in0 := 0; restart := false; next := false |}.

(** Storing the words [w 0], ..., [w (n - 1)]. *)
Definition store_words (w : nat -> Z) (n : nat) : list inputs :=
  map (fun j => store_word (w j)) (seq 0 n).

End ParamStore.

(** ** store.py: runs of the read position of [FilterValueFetcher] *)

Module FilterValueFetcherRun.

(** The number of cycles of a run in which [next] is high. *)
Definition pulses (l : list FilterValueFetcher.inputs) : nat :=
  length (filter FilterValueFetcher.next l).

(** A cycle of a run over [L] filter words in one mode, without restart. *)
Definition steady (L : Z) (mode : bool) (c : FilterValueFetcher.inputs) : Prop :=
  FilterValueFetcher.limit c = L /\
  FilterValueFetcher.restart c = false /\
  FilterValueFetcher.switch_PorD c = mode.

(** Sample: a [next] pulse with [L] filter words stored. *)
Definition pulse (L : Z) (mode : bool) : FilterValueFetcher.inputs :=
  {| FilterValueFetcher.limit := L; FilterValueFetcher.next := true;
     FilterValueFetcher.restart := false;
     FilterValueFetcher.switch_PorD := mode |}.

End FilterValueFetcherRun.

(** ** mul.py: runs of [AccOrTrans] in pointwise mode *)

Module AccOrTransRun.

Definition run (s : AccOrTrans.state) (l : list AccOrTrans.inputs)
  : AccOrTrans.state :=
  fold_left AccOrTrans.step l s.

(** The partial sums a run adds: in every cycle with [add_en] high, the
    value the register [add_sum] holds in that cycle. *)
Fixpoint added (s : AccOrTrans.state) (l : list AccOrTrans.inputs) : Z :=
  match l with
  | [] => 0
  | i :: l' =>
      (if AccOrTrans.add_en i then AccOrTrans.add_sum s else 0)
      + added (AccOrTrans.step s i) l'
  end.

(** A pointwise cycle that does not clear the accumulator. *)
Definition accumulating (i : AccOrTrans.inputs) : Prop :=
  AccOrTrans.switch_PorD i = false /\ AccOrTrans.clear i = false.

(** Sample: products whose first eight are all 2 ^ 23 - 1, the largest a
    lane can hold, so that every partial sum is 8 * (2 ^ 23 - 1). *)
Definition large : AccOrTrans.inputs :=
  {| AccOrTrans.add_en := true;
     AccOrTrans.in_values := repeat 8388607 16;
     AccOrTrans.switch_PorD := false;
     AccOrTrans.clear := false |}.

End AccOrTransRun.

(** ** store.py: a depthwise pass of [InputStore] over a buffer *)

Module InputStoreScan.

(** A depthwise cycle of a pass: no restart, the reading not ended, rows of
    [W] words with [P] words of padding. *)
Definition scanning (W P : Z) (c : InputStore.inputs) : Prop :=
  InputStore.restart c = false /\
  InputStore.r_finished c = false /\
  InputStore.switch_PorD c = true /\
  InputStore.input_width c = W /\
  InputStore.pad c = P.

(** The number of cycles of a run in which [r_next] is high. *)
Definition reads (l : list InputStore.inputs) : nat :=
  length (filter InputStore.r_next l).

(** Where the [k]-th tile of a buffer starts when the tiles are taken row
    by row: a row of [W] words holds [W - 1] overlapping tiles, and the next
    row starts [W + P] words further. *)
Definition tile_position (W P k : Z) : Z :=
  (W + P) * (k / (W - 1)) + k mod (W - 1).

(** Sample: a store whose buffer 0 has just been completed, and depthwise
    cycles over rows of four words with two words of padding. *)
Definition sample_completed : InputStore.state :=
  InputStore.step 8 InputStore.reset (InputStore.one_word false false).

Definition sample_cycle (nx : bool) : InputStore.inputs :=
  {| InputStore.restart := false; InputStore.input_depth := 12;
     InputStore.w_data := 0; InputStore.w_en := false;
     InputStore.r_next := nx; InputStore.r_finished := false;
     InputStore.switch_PorD := true; InputStore.offset := 0;
     InputStore.input_width := 4; InputStore.pad := 2 |}.

End InputStoreScan.

(** ** mnv2_cfu.py and store.py: the filter store and its reader limits

    [_make_filter_value_store] builds a [StoreSetter] over four memories;
    [fvf.limit.eq(fv_count)] hands its count to the fetcher, which gives
    reader [n] the limit [(self.limit + 3 - n) >> 2]. *)

Module FilterStore.

(** [StoreSetter(32, 4, depth)]: four memories, two bank bits. *)
Definition params (depth : Z) : StoreSetter.params :=
  {| StoreSetter.bits_width := 32; StoreSetter.num_memories_bits := 2;
     StoreSetter.depth := depth |}.

Definition run (depth : Z) (s : StoreSetter.state)
    (l : list StoreSetter.inputs) : StoreSetter.state :=
  fold_left (StoreSetter.step (params depth)) l s.

(** The number of cycles of a run in which bank [n] is written. *)
Fixpoint written_to (depth : Z) (s : StoreSetter.state)
    (l : list StoreSetter.inputs) (n : Z) : nat :=
  match l with
  | [] => O
  | i :: l' =>
      ((if StoreSetter.w_en (params depth) s i n then 1 else 0) +
       written_to depth (StoreSetter.step (params depth) s i) l' n)%nat
  end.

(** The value driven onto the limit of reader [n]: the fetcher's [limit] is
    the setter's count, held in a [Signal(range(max_depth * 4))].  The
    reader itself, a [SequentialMemoryReader], is part of the amaranth_cfu
    package and is not modelled. *)
Definition reader_limit (depth : Z) (s : StoreSetter.state) (n : Z) : Z :=
  Z.shiftr
    (Amaranth.unsigned (FilterValueFetcher.limit_width depth)
                       (StoreSetter.count s) + 3 - n) 2.

(** A cycle that stores a word. *)
Definition storing (i : StoreSetter.inputs) : Prop :=
  StoreSetter.start i = true /\ StoreSetter.restart i = false.

End FilterStore.
(* ===================================================================== *)
(** * Part II: properties *)
(* ===================================================================== *)

(** ** Amaranth values *)

Lemma signed_fits (w x : Z) :
  0 < w -> Amaranth.fits_signed w x -> Amaranth.signed w x = x.
Proof.
  unfold Amaranth.fits_signed, Amaranth.signed. intros Hw Hx.
  assert (Hp : 2 ^ w = 2 * 2 ^ (w - 1)).
  { replace w with (1 + (w - 1)) at 1 by lia.
    rewrite Z.pow_add_r by lia. reflexivity. }
  rewrite Z.mod_small; lia.
Qed.

Lemma signed_range (w x : Z) :
  0 < w -> Amaranth.fits_signed w (Amaranth.signed w x).
Proof.
  unfold Amaranth.fits_signed, Amaranth.signed. intros Hw.
  assert (Hp : 2 ^ w = 2 * 2 ^ (w - 1)).
  { replace w with (1 + (w - 1)) at 1 by lia.
    rewrite Z.pow_add_r by lia. reflexivity. }
  assert (0 < 2 ^ (w - 1)) by (apply Z.pow_pos_nonneg; lia).
  pose proof (Z.mod_pos_bound (x + 2 ^ (w - 1)) (2 ^ w)). lia.
Qed.

Lemma unsigned_fits (w x : Z) :
  Amaranth.fits_unsigned w x -> Amaranth.unsigned w x = x.
Proof.
  unfold Amaranth.fits_unsigned, Amaranth.unsigned. intros Hx.
  apply Z.mod_small. exact Hx.
Qed.

Lemma sum_app (l1 l2 : list Z) :
  Amaranth.sum (l1 ++ l2) = Amaranth.sum l1 + Amaranth.sum l2.
Proof.
  unfold Amaranth.sum.
  induction l1 as [|a l1 IH]; cbn [fold_right app]; [reflexivity|].
  rewrite IH. lia.
Qed.

(** The tree of additions computes the plain sum of its operands. *)
Lemma tree_sum_sum (l : list Z) : Amaranth.tree_sum l = Amaranth.sum l.
Proof.
  funelim (Amaranth.tree_sum l); simp tree_sum; try (cbn; lia).
  change (firstn (Nat.div2 (3 + length l)) (a :: b :: c :: l))
    with (a :: firstn (Nat.div2 (1 + length l)) (b :: c :: l)).
  change (skipn (Nat.div2 (3 + length l)) (a :: b :: c :: l))
    with (skipn (Nat.div2 (1 + length l)) (b :: c :: l)).
  match goal with
  | IH1 : Amaranth.tree_sum (a :: firstn _ _) = Amaranth.sum _,
    IH2 : Amaranth.tree_sum (skipn _ _) = Amaranth.sum _ |- _ =>
      rewrite IH1, IH2
  end.
  rewrite <- sum_app. cbn [app]. rewrite firstn_skipn. reflexivity.
Qed.

Lemma bits_for_spec (n : Z) : 0 <= n -> n < 2 ^ Amaranth.bits_for n.
Proof.
  intros Hn. unfold Amaranth.bits_for.
  destruct (Z.leb_spec n 0) as [H0|Hpos].
  - replace n with 0 by lia. cbn. lia.
  - pose proof (Z.log2_spec n Hpos) as [_ Hup].
    replace (Z.log2 n + 1) with (Z.succ (Z.log2 n)) by lia. exact Hup.
Qed.

Lemma slice_low (x k : Z) : 0 <= k -> Amaranth.slice x 0 k = x mod 2 ^ k.
Proof.
  intros Hk. unfold Amaranth.slice.
  rewrite Z.shiftr_0_r, Z.sub_0_r. apply Z.land_ones. exact Hk.
Qed.

(** ** delay.py: [Delayer] *)

Lemma testbit_b2z (b : bool) (k : Z) :
  Z.testbit (Z.b2z b) k = if k =? 0 then b else false.
Proof.
  destruct (Z.eqb_spec k 0) as [->|Hk].
  - apply Z.b2z_bit0.
  - destruct (Z.lt_ge_cases k 0).
    + apply Z.testbit_neg_r; assumption.
    + destruct b; cbn [Z.b2z].
      * apply Z.bits_above_log2; cbn; lia.
      * apply Z.bits_0.
Qed.

(** One clock edge moves bit [k] of the shift register to bit [k+1] and
    loads the input into bit 0. *)
Lemma Delayer_step_bit (s : Delayer.state) (i : Delayer.inputs) (k : Z) :
  0 <= k <= 5 ->
  Z.testbit (Delayer.shift_register (Delayer.step s i)) k =
  if k =? 0 then Delayer.input i
  else Z.testbit (Delayer.shift_register s) (k - 1).
Proof.
  intros Hk. unfold Delayer.step; cbn [Delayer.shift_register].
  rewrite Z.lor_spec, testbit_b2z, Z.shiftl_spec by lia.
  destruct (Z.eqb_spec k 0) as [->|Hk0].
  - rewrite Z.testbit_neg_r by lia. reflexivity.
  - rewrite Z.land_spec, Z.ones_spec_low by lia.
    rewrite andb_true_r, orb_false_r. reflexivity.
Qed.

(** After [t] ticks, bit [k] of the shift register is the input of tick
    [t - 1 - k]. *)
Lemma Delayer_bit_history (i : nat -> Delayer.inputs) (s0 : Delayer.state) :
  forall (t k : nat), (k <= 5)%nat -> (k < t)%nat ->
  Z.testbit (Delayer.shift_register (Delayer.at_tick i s0 t)) (Z.of_nat k) =
  Delayer.input (i (t - 1 - k)%nat).
Proof.
  induction t as [|t IH]; intros k Hk Hkt; [lia|].
  cbn [Delayer.at_tick]. rewrite Delayer_step_bit by lia.
  destruct k as [|k].
  - cbn. f_equal. f_equal. lia.
  - replace (Z.of_nat (S k) =? 0) with false by (symmetry; apply Z.eqb_neq; lia).
    replace (Z.of_nat (S k) - 1) with (Z.of_nat k) by lia.
    rewrite IH by lia. f_equal. f_equal. lia.
Qed.

(** C10.  Whatever [cycles] is set to, the output at tick [t] is the input
    of an earlier tick, [realized_delay cycles] ticks before: that delay is
    [cycles] itself for the settings 2, 3, 4 and 5, it is one tick for every
    other setting (0, 1 and all settings above 5), and so it is never longer
    than five ticks. *)
Theorem Delayer_realizes_1_to_5
    (i : nat -> Delayer.inputs) (s0 : Delayer.state) (t : nat) :
  (Delayer.realized_delay (Delayer.cycles (i t)) <= t)%nat ->
  Delayer.output (Delayer.at_tick i s0 t) (i t) =
    Delayer.input (i (t - Delayer.realized_delay (Delayer.cycles (i t)))%nat)
  /\ (2 <= Delayer.cycles (i t) <= 5 ->
      Z.of_nat (Delayer.realized_delay (Delayer.cycles (i t))) =
      Delayer.cycles (i t))
  /\ (Delayer.cycles (i t) < 2 \/ 5 < Delayer.cycles (i t) ->
      Delayer.realized_delay (Delayer.cycles (i t)) = 1%nat)
  /\ (1 <= Delayer.realized_delay (Delayer.cycles (i t)) <= 5)%nat.
Proof.
  intros Ht.
  assert (Hbit : forall k : nat, (k <= 4)%nat -> (k < t)%nat ->
            Z.testbit (Delayer.shift_register (Delayer.at_tick i s0 t))
              (Z.of_nat k) = Delayer.input (i (t - S k)%nat)).
  { intros k Hk Hkt. rewrite Delayer_bit_history by lia.
    f_equal. f_equal. lia. }
  unfold Delayer.output, Delayer.realized_delay in *.
  set (c := Delayer.cycles (i t)) in *.
  destruct (Z.eqb_spec c 5) as [E5|N5];
    [rewrite E5 in *; cbn in Ht |- *;
     repeat split; try lia; apply (Hbit 4%nat); lia|].
  destruct (Z.eqb_spec c 4) as [E4|N4];
    [rewrite E4 in *; cbn in Ht |- *;
     repeat split; try lia; apply (Hbit 3%nat); lia|].
  destruct (Z.eqb_spec c 3) as [E3|N3];
    [rewrite E3 in *; cbn in Ht |- *;
     repeat split; try lia; apply (Hbit 2%nat); lia|].
  destruct (Z.eqb_spec c 2) as [E2|N2];
    [rewrite E2 in *; cbn in Ht |- *;
     repeat split; try lia; apply (Hbit 1%nat); lia|].
  assert (Hc : (2 <=? c) && (c <=? 5) = false).
  { apply andb_false_iff.
    destruct (Z.leb_spec 2 c); [right; apply Z.leb_gt; lia | left; reflexivity]. }
  rewrite Hc in *. repeat split; try lia.
  apply (Hbit 0%nat); lia.
Qed.

(** A sample run: [cycles] set to 5, a pulse at tick 0 comes out at tick 5. *)
Lemma Delayer_realizes_1_to_5_witness :
  (Delayer.realized_delay (Delayer.cycles (Delayer.pulse 5 5%nat)) <= 5)%nat /\
  Delayer.output (Delayer.at_tick (Delayer.pulse 5) Delayer.reset 5)
                 (Delayer.pulse 5 5%nat) = true.
Proof.
  assert (H : (Delayer.realized_delay (Delayer.cycles (Delayer.pulse 5 5%nat))
               <= 5)%nat) by (vm_compute; lia).
  split; [exact H|].
  exact (proj1 (Delayer_realizes_1_to_5 (Delayer.pulse 5) Delayer.reset 5 H)).
Defined.

(** ** mul.py: [AccOrTrans] *)

Lemma map_nth_seq (l : list Z) (d : Z) :
  forall k : nat, (k <= length l)%nat ->
  map (fun n => nth n l d) (seq 0 k) = firstn k l.
Proof.
  induction l as [|a l IH]; intros k Hk.
  - cbn in Hk. replace k with 0%nat by lia. reflexivity.
  - destruct k as [|k]; [reflexivity|].
    cbn [seq map firstn nth]. f_equal.
    rewrite <- seq_shift, map_map. cbn [nth].
    apply IH. cbn in Hk. lia.
Qed.

Lemma sum_bounds (lo hi : Z) (l : list Z) :
  Forall (fun x => lo <= x <= hi) l ->
  Z.of_nat (length l) * lo <= Amaranth.sum l <= Z.of_nat (length l) * hi.
Proof.
  unfold Amaranth.sum.
  induction 1 as [|x l Hx Hl IH]; cbn [fold_right length]; lia.
Qed.

Lemma Forall_firstn_of (P : Z -> Prop) (k : nat) (l : list Z) :
  Forall P l -> Forall P (firstn k l).
Proof.
  intros H. rewrite <- (firstn_skipn k l) in H.
  apply Forall_app in H. exact (proj1 H).
Qed.

Lemma iv_fits (i : AccOrTrans.inputs) (n : nat) :
  AccOrTrans.wf_inputs i -> (n < 16)%nat ->
  - 8388608 <= AccOrTrans.iv i n <= 8388607.
Proof.
  intros [Hlen Hall] Hn. unfold AccOrTrans.iv.
  pose proof (proj1 (Forall_nth _ _) Hall n 0) as H.
  unfold Amaranth.fits_signed in H.
  change (2 ^ (24 - 1)) with 8388608 in H.
  rewrite Hlen in H. specialize (H Hn). lia.
Qed.

(** The sum of the first eight products is what the [signed(28)] register
    [add_sum] receives: eight [signed(24)] values never overflow it. *)
Lemma AccOrTrans_add_sum (s : AccOrTrans.state) (i : AccOrTrans.inputs) :
  AccOrTrans.wf_inputs i -> AccOrTrans.switch_PorD i = false ->
  AccOrTrans.add_sum (AccOrTrans.step s i) =
  Amaranth.sum (firstn 8 (AccOrTrans.in_values i)).
Proof.
  intros Hwf Hmode. pose proof Hwf as [Hlen Hall].
  unfold AccOrTrans.step. rewrite Hmode. cbn [negb AccOrTrans.add_sum].
  rewrite tree_sum_sum.
  unfold AccOrTrans.iv. rewrite map_nth_seq by lia.
  apply signed_fits; [lia|].
  assert (Hb : Forall (fun x => - 8388608 <= x <= 8388607)
                 (firstn 8 (AccOrTrans.in_values i))).
  { apply Forall_firstn_of. eapply Forall_impl; [|exact Hall].
    unfold Amaranth.fits_signed. change (2 ^ (24 - 1)) with 8388608.
    intros x Hx. lia. }
  apply sum_bounds in Hb. rewrite length_firstn, Hlen in Hb.
  unfold Amaranth.fits_signed. change (2 ^ (28 - 1)) with 134217728.
  change (Z.of_nat (Nat.min 8 16)) with 8 in Hb. lia.
Qed.

(** C1 (counterexample).  A product vector whose only non-zero entry is
    product 8 has sum 1, yet the partial sum registered for it is 0, and an
    add-enable pulse in the next cycle leaves the accumulator at 0. *)
Lemma AccOrTrans_products_8_to_15_not_reduced :
  Amaranth.sum AccOrTrans.only_product_8 = 1 /\
  AccOrTrans.add_sum
    (AccOrTrans.step AccOrTrans.reset
       (AccOrTrans.sample AccOrTrans.only_product_8 false false false)) = 0 /\
  AccOrTrans.accumulator
    (AccOrTrans.step
       (AccOrTrans.step AccOrTrans.reset
          (AccOrTrans.sample AccOrTrans.only_product_8 false false false))
       (AccOrTrans.sample AccOrTrans.only_product_8 false true false)) = 0.
Proof. vm_compute. repeat split. Qed.

(** C1 (amended).  In pointwise mode the reduction takes the first eight of
    the sixteen products: the partial sum registered for a product vector is
    the sum of products 0..7, and an add-enable pulse in the following cycle
    adds exactly that sum into the accumulator (a 32-bit register). *)
Theorem AccOrTrans_pointwise_reduces_first_8
    (s : AccOrTrans.state) (i i' : AccOrTrans.inputs) :
  AccOrTrans.wf_inputs i ->
  AccOrTrans.switch_PorD i = false ->
  AccOrTrans.switch_PorD i' = false ->
  AccOrTrans.add_en i' = true ->
  AccOrTrans.clear i' = false ->
  AccOrTrans.add_sum (AccOrTrans.step s i) =
    Amaranth.sum (firstn 8 (AccOrTrans.in_values i)) /\
  AccOrTrans.accumulator (AccOrTrans.step (AccOrTrans.step s i) i') =
    Amaranth.signed 32
      (AccOrTrans.accumulator (AccOrTrans.step s i)
       + Amaranth.sum (firstn 8 (AccOrTrans.in_values i))).
Proof.
  intros Hwf Hmode Hmode' Hen Hclr.
  pose proof (AccOrTrans_add_sum s i Hwf Hmode) as Hsum.
  split; [exact Hsum|].
  unfold AccOrTrans.step at 1. rewrite Hmode', Hen, Hclr.
  cbn [negb AccOrTrans.accumulator]. unfold AccOrTrans.acc_plus_sum.
  rewrite Hsum. reflexivity.
Qed.

Lemma one_to_sixteen_wf (mode en clr : bool) :
  AccOrTrans.wf_inputs (AccOrTrans.sample AccOrTrans.one_to_sixteen mode en clr).
Proof.
  split; [reflexivity|].
  unfold AccOrTrans.sample, AccOrTrans.one_to_sixteen, Amaranth.fits_signed.
  cbn [AccOrTrans.in_values]. change (2 ^ (24 - 1)) with 8388608.
  repeat constructor; lia.
Qed.

(** The products 1..16: the partial sum is 1 + ... + 8 = 36, and the
    accumulator holds 36 after the add. *)
Lemma AccOrTrans_pointwise_reduces_first_8_witness :
  AccOrTrans.add_sum
    (AccOrTrans.step AccOrTrans.reset
       (AccOrTrans.sample AccOrTrans.one_to_sixteen false false false)) = 36 /\
  AccOrTrans.accumulator
    (AccOrTrans.step
       (AccOrTrans.step AccOrTrans.reset
          (AccOrTrans.sample AccOrTrans.one_to_sixteen false false false))
       (AccOrTrans.sample AccOrTrans.one_to_sixteen false true false)) = 36.
Proof.
  exact (AccOrTrans_pointwise_reduces_first_8 AccOrTrans.reset
           (AccOrTrans.sample AccOrTrans.one_to_sixteen false false false)
           (AccOrTrans.sample AccOrTrans.one_to_sixteen false true false)
           (one_to_sixteen_wf false false false)
           eq_refl eq_refl eq_refl eq_refl).
Defined.

Section Depthwise.

Variables (s : AccOrTrans.state) (i1 i2 i3 : AccOrTrans.inputs).

Local Abbreviation p := (AccOrTrans.iv i1).

(** C2.  Depthwise mode, products [p 0 .. p 15] presented in one cycle: two
    clock edges later each of the four outputs is a fixed signed combination
    of the products (the register [Y_tmp]) combined with the product
    registered beside it in [late_in_values] (products 12..15), added for
    lanes 0 and 3 and subtracted for lanes 1 and 2, and shifted right by two
    places; the shift is the floor of a division by four, it never rounds
    up. *)
Theorem AccOrTrans_depthwise_lanes :
  AccOrTrans.wf_inputs i1 ->
  AccOrTrans.switch_PorD i1 = true ->
  AccOrTrans.switch_PorD i2 = true ->
  AccOrTrans.switch_PorD i3 = true ->
  AccOrTrans.Y_tmp (AccOrTrans.step s i1) =
    [ p 0 + p 2 + p 8 + p 1 + p 3 + p 9 + p 4 + p 6;
      p 1 + p 3 + p 9 - p 4 - p 6 - p 12 - p 5 - p 7;
      p 2 - p 8 - p 10 + p 3 - p 9 - p 11 + p 6 - p 12;
      p 3 - p 9 - p 11 - p 6 + p 12 + p 14 - p 7 + p 13 ] /\
  AccOrTrans.late_in_values (AccOrTrans.step s i1) =
    [ p 12; p 13; p 14; p 15 ] /\
  AccOrTrans.result (AccOrTrans.step (AccOrTrans.step s i1) i2) i3 =
    [ Z.shiftr (p 0 + p 2 + p 8 + p 1 + p 3 + p 9 + p 4 + p 6 + p 12) 2;
      Z.shiftr (p 1 + p 3 + p 9 - p 4 - p 6 - p 12 - p 5 - p 7 - p 13) 2;
      Z.shiftr (p 2 - p 8 - p 10 + p 3 - p 9 - p 11 + p 6 - p 12 - p 14) 2;
      Z.shiftr (p 3 - p 9 - p 11 - p 6 + p 12 + p 14 - p 7 + p 13 + p 15) 2 ] /\
  (forall y : Z, 4 * Z.shiftr y 2 <= y <= 4 * Z.shiftr y 2 + 3).
Proof.
  intros Hwf H1 H2 H3.
  assert (B : forall n, (n < 16)%nat -> - 8388608 <= p n <= 8388607)
    by (intros n Hn; apply iv_fits; assumption).
  pose proof (B 0%nat ltac:(lia)). pose proof (B 1%nat ltac:(lia)).
  pose proof (B 2%nat ltac:(lia)). pose proof (B 3%nat ltac:(lia)).
  pose proof (B 4%nat ltac:(lia)). pose proof (B 5%nat ltac:(lia)).
  pose proof (B 6%nat ltac:(lia)). pose proof (B 7%nat ltac:(lia)).
  pose proof (B 8%nat ltac:(lia)). pose proof (B 9%nat ltac:(lia)).
  pose proof (B 10%nat ltac:(lia)). pose proof (B 11%nat ltac:(lia)).
  pose proof (B 12%nat ltac:(lia)). pose proof (B 13%nat ltac:(lia)).
  pose proof (B 14%nat ltac:(lia)). pose proof (B 15%nat ltac:(lia)).
  clear B.
  assert (Hshift : forall y : Z, 4 * Z.shiftr y 2 <= y <= 4 * Z.shiftr y 2 + 3).
  { intros y. rewrite Z.shiftr_div_pow2 by lia. change (2 ^ 2) with 4.
    pose proof (Z.div_mod y 4 ltac:(lia)).
    pose proof (Z.mod_pos_bound y 4 ltac:(lia)). lia. }
  assert (Hfit : forall y, - 2147483648 <= y < 2147483648 ->
                           Amaranth.signed 32 y = y).
  { intros y Hy. apply signed_fits; [lia|].
    unfold Amaranth.fits_signed. change (2 ^ (32 - 1)) with 2147483648. lia. }
  assert (Hfit2 : forall y, - 2147483648 <= y < 2147483648 ->
                    Amaranth.signed 32 (Z.shiftr y 2) = Z.shiftr y 2).
  { intros y Hy. apply Hfit. pose proof (Hshift y). lia. }
  assert (HYtmp : AccOrTrans.Y_tmp (AccOrTrans.step s i1) =
    [ p 0 + p 2 + p 8 + p 1 + p 3 + p 9 + p 4 + p 6;
      p 1 + p 3 + p 9 - p 4 - p 6 - p 12 - p 5 - p 7;
      p 2 - p 8 - p 10 + p 3 - p 9 - p 11 + p 6 - p 12;
      p 3 - p 9 - p 11 - p 6 + p 12 + p 14 - p 7 + p 13 ]).
  { unfold AccOrTrans.step. rewrite H1.
    cbn [negb AccOrTrans.Y_tmp seq map AccOrTrans.Y_tmp_operands].
    rewrite !tree_sum_sum. unfold Amaranth.sum. cbn [fold_right].
    rewrite !Hfit by lia.
    repeat (apply (f_equal2 (@cons Z)); [lia|]). reflexivity. }
  assert (Hlate : AccOrTrans.late_in_values (AccOrTrans.step s i1) =
                  [ p 12; p 13; p 14; p 15 ]).
  { unfold AccOrTrans.step. rewrite H1. reflexivity. }
  repeat split; try assumption; try apply Hshift.
  unfold AccOrTrans.result. rewrite H3. cbn [negb].
  unfold AccOrTrans.step at 1. rewrite H2.
  cbn [negb AccOrTrans.Y]. rewrite HYtmp, Hlate. cbn [nth map].
  rewrite !(Hfit (_ + _)) by lia. rewrite !(Hfit (_ - _)) by lia.
  rewrite !Hfit2 by lia. reflexivity.
Qed.

End Depthwise.

(** The products 1..16 in depthwise mode: the combined values are 54, -37,
    -56 and 25, and the outputs are their floors after division by four. *)
Lemma AccOrTrans_depthwise_lanes_witness :
  AccOrTrans.result
    (AccOrTrans.step
       (AccOrTrans.step AccOrTrans.reset
          (AccOrTrans.sample AccOrTrans.one_to_sixteen true false false))
       (AccOrTrans.sample AccOrTrans.one_to_sixteen true false false))
    (AccOrTrans.sample AccOrTrans.one_to_sixteen true false false)
  = [13; -10; -14; 6].
Proof.
  exact (proj1 (proj2 (proj2
    (AccOrTrans_depthwise_lanes AccOrTrans.reset
       (AccOrTrans.sample AccOrTrans.one_to_sixteen true false false)
       (AccOrTrans.sample AccOrTrans.one_to_sixteen true false false)
       (AccOrTrans.sample AccOrTrans.one_to_sixteen true false false)
       (one_to_sixteen_wf true false false) eq_refl eq_refl eq_refl)))).
Defined.

(** C3.  Pointwise accumulator, any cycle.  A [clear] zeroes the accumulator
    at the clock edge, also when [add_en] is high.  [result[0]] is the
    accumulator when [add_en] is low.  When [add_en] is high it is the
    accumulator plus the registered partial sum, as a 32-bit value: the very
    value the clock edge of that cycle commits to the accumulator (unless
    [clear] is high), and the exact sum whenever that fits 32 bits. *)
Theorem AccOrTrans_pointwise_accumulator
    (s : AccOrTrans.state) (i : AccOrTrans.inputs) :
  AccOrTrans.switch_PorD i = false ->
  (AccOrTrans.clear i = true ->
     AccOrTrans.accumulator (AccOrTrans.step s i) = 0) /\
  (AccOrTrans.add_en i = false ->
     nth 0 (AccOrTrans.result s i) 0 = AccOrTrans.accumulator s /\
     (AccOrTrans.clear i = false ->
        AccOrTrans.accumulator (AccOrTrans.step s i) = AccOrTrans.accumulator s)) /\
  (AccOrTrans.add_en i = true ->
     nth 0 (AccOrTrans.result s i) 0 =
       Amaranth.signed 32 (AccOrTrans.accumulator s + AccOrTrans.add_sum s) /\
     (AccOrTrans.clear i = false ->
        AccOrTrans.accumulator (AccOrTrans.step s i) =
          nth 0 (AccOrTrans.result s i) 0) /\
     (Amaranth.fits_signed 32
        (AccOrTrans.accumulator s + AccOrTrans.add_sum s) ->
      nth 0 (AccOrTrans.result s i) 0 =
        AccOrTrans.accumulator s + AccOrTrans.add_sum s)).
Proof.
  intros Hmode.
  unfold AccOrTrans.step, AccOrTrans.result, AccOrTrans.acc_plus_sum.
  rewrite Hmode. cbn [negb AccOrTrans.accumulator nth].
  split; [intros ->; reflexivity|].
  split; intros ->.
  - split; [reflexivity | intros ->; reflexivity].
  - split; [reflexivity|]. split; [intros ->; reflexivity|].
    intros Hfit. apply signed_fits; [lia | exact Hfit].
Qed.

(** After the products 1..16 the partial sum is 36; a cycle with [add_en]
    and [clear] both high shows 36 on [result[0]] and leaves 0 behind. *)
Lemma AccOrTrans_pointwise_accumulator_witness :
  nth 0 (AccOrTrans.result
           (AccOrTrans.step AccOrTrans.reset
              (AccOrTrans.sample AccOrTrans.one_to_sixteen false false false))
           (AccOrTrans.sample AccOrTrans.one_to_sixteen false true true)) 0 = 36 /\
  AccOrTrans.accumulator
    (AccOrTrans.step
       (AccOrTrans.step AccOrTrans.reset
          (AccOrTrans.sample AccOrTrans.one_to_sixteen false false false))
       (AccOrTrans.sample AccOrTrans.one_to_sixteen false true true)) = 0.
Proof.
  pose proof (AccOrTrans_pointwise_accumulator
                (AccOrTrans.step AccOrTrans.reset
                   (AccOrTrans.sample AccOrTrans.one_to_sixteen false false false))
                (AccOrTrans.sample AccOrTrans.one_to_sixteen false true true)
                eq_refl) as [Hclear [_ Hadd]].
  split; [exact (proj1 (Hadd eq_refl)) | exact (Hclear eq_refl)].
Defined.

(** ** sequencing.py: [Sequencer] *)

Lemma Sequencer_gate_eq (s : Sequencer.state) (i : Sequencer.inputs) :
  Sequencer.gate s i =
  (GateCalculator.running (Sequencer.gate_calc s) || Sequencer.start_run i)
  && Sequencer.in_store_ready i && Sequencer.fifo_has_space i.
Proof. reflexivity. Qed.

(** A counter that is neither enabled nor restarted keeps its count. *)
Lemma UpCounter_hold (w : Z) (s : UpCounter.state) (i : UpCounter.inputs) :
  UpCounter.en i = false -> UpCounter.restart i = false ->
  UpCounter.step w s i = s.
Proof.
  intros Hen Hrs. unfold UpCounter.step. rewrite Hen, Hrs.
  destruct s; reflexivity.
Qed.

(** One cycle without gate and without restart leaves the two counters that
    the gate enables where they were. *)
Lemma Sequencer_gated_counters_hold
    (cfg : Sequencer.config) (s : Sequencer.state) (i : Sequencer.inputs) :
  Sequencer.gate s i = false -> Sequencer.restart i = false ->
  Sequencer.f_count (Sequencer.step cfg s i) = Sequencer.f_count s /\
  Sequencer.fnext_count (Sequencer.step cfg s i) = Sequencer.fnext_count s.
Proof.
  intros Hg Hr. unfold Sequencer.step.
  cbn [Sequencer.f_count Sequencer.fnext_count].
  split; apply UpCounter_hold;
    unfold Sequencer.f_count_in, Sequencer.fnext_count_in;
    cbn [UpCounter.en UpCounter.restart]; assumption.
Qed.

(** C4 (counterexample).  A run is started in one cycle, and the FIFO has no
    space from the next cycle on.  In the third cycle of the stall the gate
    is low, yet the input-word counter advances from 0 to 1: the gate pulse
    of the first cycle leaves the multiplier delay line. *)
Lemma Sequencer_input_counter_advances_without_gate :
  Sequencer.gate
    (Sequencer.run Sequencer.sample_config Sequencer.reset
       [Sequencer.go; Sequencer.full; Sequencer.full]) Sequencer.full = false /\
  UpCounter.count
    (Sequencer.i_count
       (Sequencer.run Sequencer.sample_config Sequencer.reset
          [Sequencer.go; Sequencer.full; Sequencer.full])) = 0 /\
  UpCounter.count
    (Sequencer.i_count
       (Sequencer.run Sequencer.sample_config Sequencer.reset
          [Sequencer.go; Sequencer.full; Sequencer.full; Sequencer.full])) = 1.
Proof. vm_compute. repeat split. Qed.

(** C4 (amended).  The gate is [(running OR start_run) AND in_store_ready
    AND fifo_has_space], so it is low whenever the FIFO has no space.  While
    the gate is low and nobody restarts, the counters the gate enables (the
    filter-word counter [f_count] and the tile counter [fnext_count]) do not
    move; over a stall of any length they keep exactly the values they had,
    which is where they resume.  The input-word counter and the 4-count are
    enabled by the delayed pulses [mul_done] and [pp_done]: they hold while
    their own pulse is low, whatever the gate is. *)
Theorem Sequencer_gate_backpressure
    (cfg : Sequencer.config) (s : Sequencer.state) (i : Sequencer.inputs)
    (stall : list Sequencer.inputs) :
  Forall Sequencer.stalled stall ->
  Sequencer.gate s i =
    (GateCalculator.running (Sequencer.gate_calc s) || Sequencer.start_run i)
    && Sequencer.in_store_ready i && Sequencer.fifo_has_space i /\
  (Sequencer.fifo_has_space i = false -> Sequencer.gate s i = false) /\
  (Sequencer.gate s i = false -> Sequencer.restart i = false ->
     Sequencer.f_count (Sequencer.step cfg s i) = Sequencer.f_count s /\
     Sequencer.fnext_count (Sequencer.step cfg s i) = Sequencer.fnext_count s) /\
  Sequencer.f_count (Sequencer.run cfg s stall) = Sequencer.f_count s /\
  Sequencer.fnext_count (Sequencer.run cfg s stall) = Sequencer.fnext_count s /\
  (Sequencer.mul_done s i = false -> Sequencer.restart i = false ->
     Sequencer.i_count (Sequencer.step cfg s i) = Sequencer.i_count s) /\
  (Sequencer.pp_done cfg s i = false -> Sequencer.restart i = false ->
     Sequencer.four_count (Sequencer.step cfg s i) = Sequencer.four_count s).
Proof.
  intros Hstall.
  assert (Hlow : forall s' j, Sequencer.fifo_has_space j = false ->
                              Sequencer.gate s' j = false).
  { intros s' j Hj. rewrite Sequencer_gate_eq, Hj. apply andb_false_r. }
  split; [apply Sequencer_gate_eq|].
  split; [apply Hlow|].
  split; [apply Sequencer_gated_counters_hold|].
  assert (Hrun : Sequencer.f_count (Sequencer.run cfg s stall) = Sequencer.f_count s /\
                 Sequencer.fnext_count (Sequencer.run cfg s stall) = Sequencer.fnext_count s).
  { revert s. unfold Sequencer.run.
    induction Hstall as [|j l [Hspace Hrs] _ IH]; intros s; [split; reflexivity|].
    cbn [fold_left].
    destruct (IH (Sequencer.step cfg s j)) as [IH1 IH2].
    destruct (Sequencer_gated_counters_hold cfg s j (Hlow s j Hspace) Hrs)
      as [H1 H2].
    rewrite IH1, IH2, H1, H2. split; reflexivity. }
  split; [exact (proj1 Hrun)|]. split; [exact (proj2 Hrun)|].
  split; intros Hen Hrs; unfold Sequencer.step;
    cbn [Sequencer.i_count Sequencer.four_count];
    apply UpCounter_hold; assumption.
Qed.

Lemma Sequencer_full_stalled : Sequencer.stalled Sequencer.full.
Proof. split; reflexivity. Qed.

(** A run started and then stalled for three cycles: the filter-word counter
    stands at 1 before, during and after the stall. *)
Lemma Sequencer_gate_backpressure_witness :
  Sequencer.f_count
    (Sequencer.run Sequencer.sample_config
       (Sequencer.step Sequencer.sample_config Sequencer.reset Sequencer.go)
       [Sequencer.full; Sequencer.full; Sequencer.full])
  = {| UpCounter.count := 1 |}.
Proof.
  exact (proj1 (proj2 (proj2 (proj2
    (Sequencer_gate_backpressure Sequencer.sample_config
       (Sequencer.step Sequencer.sample_config Sequencer.reset Sequencer.go)
       Sequencer.full
       [Sequencer.full; Sequencer.full; Sequencer.full]
       (Forall_cons _ Sequencer_full_stalled
          (Forall_cons _ Sequencer_full_stalled
             (Forall_cons _ Sequencer_full_stalled (Forall_nil _))))))))).
Defined.

(** ** store.py: [CircularIncrementer] *)

Section CircularIncrementerFacts.

Variables (depth L : Z).
Hypothesis limit_fits : 1 <= L < 2 ^ CircularIncrementer.addr_width depth.

(** With the limit held at [L], an address below [L] is followed by
    addresses below [L]. *)
Lemma CircularIncrementer_step_below
    (s : CircularIncrementer.state) (i : CircularIncrementer.inputs) :
  CircularIncrementer.limit i = L ->
  0 <= CircularIncrementer.last_addr s <= L - 1 ->
  0 <= CircularIncrementer.r_addr depth s i <= L - 1 /\
  (CircularIncrementer.restart i = false ->
   CircularIncrementer.next i = true ->
   CircularIncrementer.r_addr depth s i =
     if CircularIncrementer.last_addr s =? L - 1 then 0
     else CircularIncrementer.last_addr s + 1).
Proof.
  intros HL Hs. unfold CircularIncrementer.r_addr. rewrite HL.
  destruct (CircularIncrementer.restart i); [split; [lia | discriminate]|].
  destruct (CircularIncrementer.next i); [|split; [lia | discriminate]].
  rewrite Z.geb_leb.
  destruct (Z.leb_spec (L - 1) (CircularIncrementer.last_addr s)) as [Hge|Hlt].
  - replace (CircularIncrementer.last_addr s =? L - 1) with true
      by (symmetry; apply Z.eqb_eq; lia).
    rewrite unsigned_fits by (unfold Amaranth.fits_unsigned; lia).
    split; [lia | reflexivity].
  - replace (CircularIncrementer.last_addr s =? L - 1) with false
      by (symmetry; apply Z.eqb_neq; lia).
    rewrite unsigned_fits by (unfold Amaranth.fits_unsigned; lia).
    split; [lia | reflexivity].
Qed.

Lemma CircularIncrementer_run_below (l : list CircularIncrementer.inputs) :
  Forall (fun j => CircularIncrementer.limit j = L) l ->
  forall s, 0 <= CircularIncrementer.last_addr s <= L - 1 ->
  0 <= CircularIncrementer.last_addr (CircularIncrementer.run depth s l)
    <= L - 1.
Proof.
  unfold CircularIncrementer.run.
  induction 1 as [|j l Hj _ IH]; intros s Hs; [exact Hs|].
  cbn [fold_left]. apply IH. unfold CircularIncrementer.step.
  cbn [CircularIncrementer.last_addr].
  apply CircularIncrementer_step_below; assumption.
Qed.

End CircularIncrementerFacts.

(** Every limit below the depth is a value of the limit signal. *)
Lemma CircularIncrementer_limit_below_depth (depth L : Z) :
  1 <= L <= depth - 1 -> 1 <= L < 2 ^ CircularIncrementer.addr_width depth.
Proof.
  intros HL. unfold CircularIncrementer.addr_width.
  pose proof (bits_for_spec (depth - 1) ltac:(lia)). lia.
Qed.

(** C6.  An incrementer of any depth, and every limit [L] from 1 upwards
    that its limit signal can hold.  In every sequence of cycles from reset
    with the limit held at [L] (restarts and pauses included): the address
    emitted in a restart cycle is 0; the address emitted on a [next] pulse
    is the last address plus one, or 0 when the last address is [L - 1]; it
    is the last address otherwise; the emitted address never exceeds
    [L - 1]; and it is the last address of the cycle after. *)
Theorem CircularIncrementer_wraps_at_limit
    (depth L : Z) (l : list CircularIncrementer.inputs)
    (i : CircularIncrementer.inputs) :
  1 <= L < 2 ^ CircularIncrementer.addr_width depth ->
  Forall (fun j => CircularIncrementer.limit j = L) l ->
  CircularIncrementer.limit i = L ->
  (CircularIncrementer.restart i = true ->
     CircularIncrementer.r_addr depth
       (CircularIncrementer.run depth CircularIncrementer.reset l) i = 0) /\
  (CircularIncrementer.restart i = false ->
   CircularIncrementer.next i = true ->
     CircularIncrementer.r_addr depth
       (CircularIncrementer.run depth CircularIncrementer.reset l) i =
     if CircularIncrementer.last_addr
          (CircularIncrementer.run depth CircularIncrementer.reset l) =? L - 1
     then 0
     else CircularIncrementer.last_addr
            (CircularIncrementer.run depth CircularIncrementer.reset l) + 1) /\
  (CircularIncrementer.restart i = false ->
   CircularIncrementer.next i = false ->
     CircularIncrementer.r_addr depth
       (CircularIncrementer.run depth CircularIncrementer.reset l) i =
     CircularIncrementer.last_addr
       (CircularIncrementer.run depth CircularIncrementer.reset l)) /\
  0 <= CircularIncrementer.r_addr depth
         (CircularIncrementer.run depth CircularIncrementer.reset l) i
    <= L - 1 /\
  CircularIncrementer.last_addr
    (CircularIncrementer.run depth CircularIncrementer.reset (l ++ [i])) =
  CircularIncrementer.r_addr depth
    (CircularIncrementer.run depth CircularIncrementer.reset l) i.
Proof.
  intros HL Hl Hi.
  assert (Hs : 0 <= CircularIncrementer.last_addr
                      (CircularIncrementer.run depth CircularIncrementer.reset l)
               <= L - 1).
  { apply CircularIncrementer_run_below; [assumption | assumption |].
    cbn. lia. }
  destruct (CircularIncrementer_step_below depth L HL _ i Hi Hs) as [Hb Hn].
  split; [intros Hr; unfold CircularIncrementer.r_addr; rewrite Hr; reflexivity|].
  split; [exact Hn|].
  split; [intros Hr Hx; unfold CircularIncrementer.r_addr; rewrite Hr, Hx;
          reflexivity|].
  split; [exact Hb|].
  unfold CircularIncrementer.run. rewrite fold_left_app. reflexivity.
Qed.

(** Depth 6 (a three-bit address) and limit 3: 0, 1, 2 and back to 0. *)
Lemma CircularIncrementer_wraps_at_limit_witness :
  CircularIncrementer.r_addr 6
    (CircularIncrementer.run 6 CircularIncrementer.reset
       [CircularIncrementer.pulse 3; CircularIncrementer.pulse 3])
    (CircularIncrementer.pulse 3) = 0.
Proof.
  assert (HL : 1 <= 3 < 2 ^ CircularIncrementer.addr_width 6)
    by (vm_compute; split; [discriminate | reflexivity]).
  assert (Hl : Forall (fun j => CircularIncrementer.limit j = 3)
                 [CircularIncrementer.pulse 3; CircularIncrementer.pulse 3])
    by (repeat constructor).
  exact (proj1 (proj2
    (CircularIncrementer_wraps_at_limit 6 3
       [CircularIncrementer.pulse 3; CircularIncrementer.pulse 3]
       (CircularIncrementer.pulse 3) HL Hl eq_refl)) eq_refl eq_refl).
Defined.

(** ** store.py: [StoreSetter] *)

Section StoreSetterFacts.

Variable p : StoreSetter.params.
Variables (s : StoreSetter.state) (i : StoreSetter.inputs).

Hypothesis bits_nonneg : 0 <= StoreSetter.num_memories_bits p.
Hypothesis has_room :
  0 <= StoreSetter.count s < StoreSetter.depth p * StoreSetter.num_memories p.

Local Abbreviation N := (StoreSetter.num_memories p).

Lemma StoreSetter_N_pos : 0 < N.
Proof. unfold StoreSetter.num_memories. apply Z.pow_pos_nonneg; lia. Qed.

Lemma StoreSetter_bank :
  Amaranth.array_index N
    (Amaranth.slice (StoreSetter.count s) 0 (StoreSetter.num_memories_bits p))
  = StoreSetter.count s mod N.
Proof.
  rewrite slice_low by assumption. fold N. unfold Amaranth.array_index.
  pose proof StoreSetter_N_pos.
  pose proof (Z.mod_pos_bound (StoreSetter.count s) N ltac:(assumption)).
  unfold StoreSetter.num_memories in *. lia.
Qed.

Lemma StoreSetter_w_addr :
  StoreSetter.w_addr p s = StoreSetter.count s / N.
Proof.
  unfold StoreSetter.w_addr. rewrite Z.shiftr_div_pow2 by assumption.
  fold N. pose proof StoreSetter_N_pos as HN.
  assert (Hq : 0 <= StoreSetter.count s / N < StoreSetter.depth p).
  { split; [apply Z.div_pos; lia|].
    apply Z.div_lt_upper_bound; [exact HN|]. lia. }
  apply unsigned_fits. unfold Amaranth.fits_unsigned, StoreSetter.addr_width.
  pose proof (bits_for_spec (StoreSetter.depth p - 1) ltac:(lia)). lia.
Qed.

Lemma StoreSetter_count_succ :
  Amaranth.unsigned (StoreSetter.count_width p) (StoreSetter.count s + 1)
  = StoreSetter.count s + 1.
Proof.
  apply unsigned_fits. unfold Amaranth.fits_unsigned, StoreSetter.count_width.
  pose proof StoreSetter_N_pos.
  pose proof (bits_for_spec (StoreSetter.depth p * N) ltac:(lia)). lia.
Qed.

Lemma StoreSetter_updated_on_write :
  StoreSetter.writing i = true -> StoreSetter.updated p s i = true.
Proof.
  intros Hw. unfold StoreSetter.updated. apply orb_true_iff. left.
  apply existsb_exists. exists (StoreSetter.count s mod N).
  pose proof StoreSetter_N_pos as HN.
  pose proof (Z.mod_pos_bound (StoreSetter.count s) N HN) as Hm.
  split.
  - apply in_map_iff. exists (Z.to_nat (StoreSetter.count s mod N)).
    split; [apply Z2Nat.id; lia|]. apply in_seq. lia.
  - unfold StoreSetter.w_en. rewrite Hw, StoreSetter_bank.
    cbn [andb]. apply Z.eqb_refl.
Qed.

End StoreSetterFacts.

(** C7.  A store that still has room ([count] below [depth * N]).  On an
    accepted write ([start] high, [restart] low) the write enable of bank
    [count mod N] alone is high, the word address is [count div N], the data
    is the incoming word, so the banks change in that one place; [count]
    goes up by one and [updated] is high.  With [restart] high, [count] is 0
    after the clock edge, [updated] is high, no write enable is high and the
    banks keep their contents, whether or not [start] is high. *)
Theorem StoreSetter_write_and_restart
    (p : StoreSetter.params) (s : StoreSetter.state) (i : StoreSetter.inputs)
    (mem : Z -> Z -> Z) :
  0 <= StoreSetter.num_memories_bits p ->
  0 <= StoreSetter.count s < StoreSetter.depth p * StoreSetter.num_memories p ->
  (StoreSetter.start i = true -> StoreSetter.restart i = false ->
     (forall n, StoreSetter.w_en p s i n =
                (n =? StoreSetter.count s mod StoreSetter.num_memories p)) /\
     StoreSetter.w_addr p s =
       StoreSetter.count s / StoreSetter.num_memories p /\
     StoreSetter.w_data p i =
       Amaranth.unsigned (StoreSetter.bits_width p) (StoreSetter.in0 i) /\
     StoreSetter.write_port p s i mem
       (StoreSetter.count s mod StoreSetter.num_memories p)
       (StoreSetter.count s / StoreSetter.num_memories p) =
       Amaranth.unsigned (StoreSetter.bits_width p) (StoreSetter.in0 i) /\
     (forall n a,
        n <> StoreSetter.count s mod StoreSetter.num_memories p \/
        a <> StoreSetter.count s / StoreSetter.num_memories p ->
        StoreSetter.write_port p s i mem n a = mem n a) /\
     StoreSetter.count (StoreSetter.step p s i) = StoreSetter.count s + 1 /\
     StoreSetter.updated p s i = true) /\
  (StoreSetter.restart i = true ->
     StoreSetter.count (StoreSetter.step p s i) = 0 /\
     StoreSetter.updated p s i = true /\
     (forall n, StoreSetter.w_en p s i n = false) /\
     (forall n a, StoreSetter.write_port p s i mem n a = mem n a)).
Proof.
  intros Hnb Hroom. split.
  - intros Hstart Hrestart.
    assert (Hw : StoreSetter.writing i = true)
      by (unfold StoreSetter.writing; rewrite Hstart, Hrestart; reflexivity).
    assert (Hen : forall n, StoreSetter.w_en p s i n =
                  (n =? StoreSetter.count s mod StoreSetter.num_memories p)).
    { intros n. unfold StoreSetter.w_en.
      rewrite Hw, StoreSetter_bank by assumption. reflexivity. }
    assert (Hdata : StoreSetter.w_data p i =
              Amaranth.unsigned (StoreSetter.bits_width p) (StoreSetter.in0 i))
      by (unfold StoreSetter.w_data; rewrite Hw; reflexivity).
    pose proof (StoreSetter_w_addr p s Hnb Hroom) as Haddr.
    repeat split; try assumption.
    + unfold StoreSetter.write_port.
      rewrite Hen, Haddr, !Z.eqb_refl. exact Hdata.
    + intros n a Hna. unfold StoreSetter.write_port. rewrite Hen, Haddr.
      destruct (Z.eqb_spec n (StoreSetter.count s mod StoreSetter.num_memories p));
        [|reflexivity].
      destruct (Z.eqb_spec a (StoreSetter.count s / StoreSetter.num_memories p));
        [|reflexivity].
      lia.
    + unfold StoreSetter.step. rewrite Hrestart, Hstart.
      cbn [StoreSetter.count]. apply StoreSetter_count_succ; assumption.
    + apply StoreSetter_updated_on_write; assumption.
  - intros Hrestart.
    assert (Hen : forall n, StoreSetter.w_en p s i n = false)
      by (intros n; unfold StoreSetter.w_en, StoreSetter.writing;
          rewrite Hrestart; reflexivity).
    repeat split.
    + unfold StoreSetter.step. rewrite Hrestart. reflexivity.
    + unfold StoreSetter.updated. rewrite Hrestart. apply orb_true_r.
    + exact Hen.
    + intros n a. unfold StoreSetter.write_port. rewrite Hen. reflexivity.
Qed.

(** Four banks, three words stored: the fourth word goes to bank 3, word
    address 0, and the count becomes 4. *)
Lemma StoreSetter_write_and_restart_witness :
  StoreSetter.write_port StoreSetter.sample_params StoreSetter.sample_state
    StoreSetter.sample_write (fun _ _ => 0) 3 0 = 305419896 /\
  StoreSetter.count
    (StoreSetter.step StoreSetter.sample_params StoreSetter.sample_state
       StoreSetter.sample_write) = 4.
Proof.
  assert (Hnb : 0 <= StoreSetter.num_memories_bits StoreSetter.sample_params)
    by (cbn; lia).
  assert (Hroom : 0 <= StoreSetter.count StoreSetter.sample_state <
                  StoreSetter.depth StoreSetter.sample_params *
                  StoreSetter.num_memories StoreSetter.sample_params)
    by (vm_compute; split; [discriminate | reflexivity]).
  pose proof (proj1 (StoreSetter_write_and_restart StoreSetter.sample_params
                       StoreSetter.sample_state StoreSetter.sample_write
                       (fun _ _ => 0) Hnb Hroom) eq_refl eq_refl)
    as (_ & _ & _ & Hmem & _ & Hcount & _).
  split; [exact Hmem | exact Hcount].
Defined.

(** ** store.py: [FilterValueFetcher] *)

Lemma low2_mod (x : Z) : FilterValueFetcher.low2 x = x mod 4.
Proof. unfold FilterValueFetcher.low2. rewrite slice_low by lia. reflexivity. Qed.

Ltac mod4 x :=
  pose proof (Z.div_mod x 4 ltac:(lia));
  pose proof (Z.mod_pos_bound x 4 ltac:(lia)).

(** In pointwise mode the read position stays even: a restart or a wrap sets
    it to 0, a pulse adds 2 (the register width [w] is at least one bit). *)
Lemma FilterValueFetcher_pointwise_even
    (max_depth : Z) (l : list FilterValueFetcher.inputs) :
  0 < FilterValueFetcher.limit_width max_depth ->
  Forall (fun j => FilterValueFetcher.switch_PorD j = false) l ->
  forall s, Z.even (FilterValueFetcher.r_addr s) = true ->
  Z.even (FilterValueFetcher.r_addr (FilterValueFetcher.run max_depth s l)) = true.
Proof.
  intros Hw. unfold FilterValueFetcher.run.
  induction 1 as [|j l Hj _ IH]; intros s Hs; [exact Hs|].
  cbn [fold_left]. apply IH. unfold FilterValueFetcher.step.
  rewrite Hj. cbn [negb FilterValueFetcher.r_addr].
  destruct (FilterValueFetcher.restart j); [reflexivity|].
  destruct (FilterValueFetcher.next j); [|exact Hs].
  destruct (FilterValueFetcher.r_addr s =? FilterValueFetcher.limit j - 2);
    [reflexivity|].
  unfold Amaranth.unsigned.
  set (w := FilterValueFetcher.limit_width max_depth) in *.
  apply Z.even_spec in Hs. destruct Hs as [q Hq]. apply Z.even_spec.
  assert (Hp : 2 ^ w = 2 * 2 ^ (w - 1)).
  { replace w with (1 + (w - 1)) at 1 by lia.
    rewrite Z.pow_add_r by lia. reflexivity. }
  assert (0 < 2 ^ (w - 1)) by (apply Z.pow_pos_nonneg; lia).
  exists ((q + 1) mod 2 ^ (w - 1)).
  rewrite Hq, Hp. replace (2 * q + 2) with (2 * (q + 1)) by lia.
  rewrite Z.mul_mod_distr_l by lia. reflexivity.
Qed.

(** C8.  A [next] pulse without restart, the read position not running off
    the end of its register, and (in pointwise mode) an even read position,
    as pointwise pulses from a restart leave it: the position advances by
    the stride of the mode, 2 in pointwise and 3 in depthwise mode, or wraps
    to 0 when it stands at [limit - stride]; and [next] is asserted on
    exactly the readers at the positions [r_addr], ..., [r_addr + stride - 1]
    of the four-reader window (taken modulo 4). *)
Theorem FilterValueFetcher_next_advances
    (max_depth : Z) (s : FilterValueFetcher.state)
    (i : FilterValueFetcher.inputs) :
  FilterValueFetcher.next i = true ->
  FilterValueFetcher.restart i = false ->
  0 <= FilterValueFetcher.r_addr s ->
  FilterValueFetcher.r_addr s
    + FilterValueFetcher.stride (FilterValueFetcher.switch_PorD i)
    < 2 ^ FilterValueFetcher.limit_width max_depth ->
  (FilterValueFetcher.switch_PorD i = false ->
   Z.even (FilterValueFetcher.r_addr s) = true) ->
  FilterValueFetcher.r_addr (FilterValueFetcher.step max_depth s i) =
    (if FilterValueFetcher.r_addr s =?
        FilterValueFetcher.limit i
        - FilterValueFetcher.stride (FilterValueFetcher.switch_PorD i)
     then 0
     else FilterValueFetcher.r_addr s
          + FilterValueFetcher.stride (FilterValueFetcher.switch_PorD i)) /\
  (forall n : Z,
     FilterValueFetcher.smr_nexts s i n = true <->
     exists k : Z,
       0 <= k < FilterValueFetcher.stride (FilterValueFetcher.switch_PorD i) /\
       n = (FilterValueFetcher.r_addr s + k) mod 4).
Proof.
  intros Hnext Hrestart Hpos Hfit Heven.
  set (r := FilterValueFetcher.r_addr s) in *.
  unfold FilterValueFetcher.step, FilterValueFetcher.smr_nexts,
    FilterValueFetcher.smr_next_indices.
  rewrite Hnext, Hrestart. fold r.
  destruct (FilterValueFetcher.switch_PorD i) eqn:Hmode;
    cbn [negb FilterValueFetcher.stride FilterValueFetcher.r_addr] in *.
  - (* depthwise *)
    split.
    + destruct (r =? FilterValueFetcher.limit i - 3); [reflexivity|].
      apply unsigned_fits. unfold Amaranth.fits_unsigned. lia.
    + intros n. cbn [existsb]. rewrite !low2_mod.
      unfold Amaranth.array_index.
      mod4 r. mod4 (r + 1). mod4 (r + 2).
      rewrite !Z.min_l by lia. rewrite orb_false_r, !orb_true_iff, !Z.eqb_eq.
      split.
      * intros [Hn|[Hn|Hn]];
          [exists 0 | exists 1 | exists 2];
          (split; [lia|]); rewrite ?Z.add_0_r; exact Hn.
      * intros [k [Hk Hn]].
        assert (k = 0 \/ k = 1 \/ k = 2) as [ -> | [ -> | -> ] ] by lia;
          rewrite ?Z.add_0_r in Hn; auto.
  - (* pointwise *)
    specialize (Heven eq_refl). apply Z.even_spec in Heven.
    destruct Heven as [q Hq].
    split.
    + destruct (r =? FilterValueFetcher.limit i - 2); [reflexivity|].
      apply unsigned_fits. unfold Amaranth.fits_unsigned. lia.
    + intros n. cbn [existsb]. rewrite !low2_mod.
      unfold Amaranth.array_index.
      mod4 r. mod4 (r + 1).
      assert (Hr1 : (r + 1) mod 4 = r mod 4 + 1) by lia.
      rewrite !Z.min_l by lia. rewrite orb_false_r, !orb_true_iff, !Z.eqb_eq.
      split.
      * intros [Hn|Hn]; [exists 0 | exists 1];
          (split; [lia|]); rewrite ?Z.add_0_r; lia.
      * intros [k [Hk Hn]].
        assert (k = 0 \/ k = 1) as [ -> | -> ] by lia;
          rewrite ?Z.add_0_r in Hn; [left | right]; lia.
Qed.

(** From reset, 24 filter words stored: a pointwise pulse pulses readers 0
    and 1 and moves the position to 2; a depthwise pulse moves it to 3. *)
Lemma FilterValueFetcher_next_advances_witness :
  FilterValueFetcher.r_addr
    (FilterValueFetcher.step 512 FilterValueFetcher.reset
       (FilterValueFetcher.pulse false)) = 2 /\
  FilterValueFetcher.r_addr
    (FilterValueFetcher.step 512 FilterValueFetcher.reset
       (FilterValueFetcher.pulse true)) = 3.
Proof.
  split.
  - refine (proj1 (FilterValueFetcher_next_advances 512
                     FilterValueFetcher.reset (FilterValueFetcher.pulse false)
                     eq_refl eq_refl _ _ _));
      [cbn; lia | vm_compute; reflexivity | reflexivity].
  - refine (proj1 (FilterValueFetcher_next_advances 512
                     FilterValueFetcher.reset (FilterValueFetcher.pulse true)
                     eq_refl eq_refl _ _ _));
      [cbn; lia | vm_compute; reflexivity | discriminate].
Defined.

(** ** store.py: [InputStore], ownership of the two buffers *)

(** The reader is only ever offered a buffer that is marked full. *)
Lemma InputStore_ready_full_step
    (max_depth : Z) (s : InputStore.state) (i : InputStore.inputs) :
  (InputStore.r_ready s = true ->
   InputStore.r_full s (InputStore.r_curr_buf s) = true) ->
  InputStore.r_ready (InputStore.step max_depth s i) = true ->
  InputStore.r_full (InputStore.step max_depth s i)
    (InputStore.r_curr_buf (InputStore.step max_depth s i)) = true.
Proof.
  unfold InputStore.step, InputStore.r_full, InputStore.next_r_full,
    InputStore.full_rose, InputStore.full, InputStore.r_full.
  cbn [InputStore.r_ready InputStore.r_curr_buf InputStore.r_full_0
       InputStore.r_full_1].
  destruct (InputStore.restart i); [discriminate|].
  destruct (InputStore.r_finished i); [discriminate|].
  cbn [andb].
  destruct (InputStore.r_curr_buf s), (InputStore.w_curr_buf s),
    (InputStore.w_last s i), (InputStore.r_full_0 s),
    (InputStore.r_full_1 s), (InputStore.last_full s),
    (InputStore.r_ready s); cbn; intros H1 H2;
    try reflexivity; try discriminate; try (apply H1; reflexivity).
Qed.

Lemma InputStore_ready_full (max_depth : Z) (s : InputStore.state) :
  InputStore.reachable max_depth s ->
  InputStore.r_ready s = true ->
  InputStore.r_full s (InputStore.r_curr_buf s) = true.
Proof.
  induction 1 as [|s i _ IH]; [discriminate|].
  apply InputStore_ready_full_step. exact IH.
Qed.

(** The buffer selector is the top bit of a bank address. *)
Lemma InputStore_buf_addr_top (max_depth low : Z) (b : bool) :
  2 <= InputStore.depth_width max_depth -> Z.testbit (InputStore.buf_addr max_depth low b) (InputStore.depth_width max_depth - 2) = b.
Proof.
  intros Hdw. unfold InputStore.buf_addr, Amaranth.Cat, Amaranth.unsigned.
  rewrite Z.lor_spec, Z.mod_pow2_bits_high by lia.
  rewrite Z.shiftl_spec by lia. rewrite Z.sub_diag. cbn [orb].
  apply Z.b2z_bit0.
Qed.

(** A clock edge does not touch the memory words of a buffer marked full. *)
Lemma InputStore_full_buffer_frozen
    (max_depth : Z) (s : InputStore.state) (i : InputStore.inputs) (b : bool) :
  2 <= InputStore.depth_width max_depth -> InputStore.r_full s b = true ->
  forall n low,
    InputStore.mem (InputStore.step max_depth s i) n (InputStore.buf_addr max_depth low b) =
    InputStore.mem s n (InputStore.buf_addr max_depth low b).
Proof.
  intros Hdw Hfull n low. unfold InputStore.step, InputStore.next_mem.
  cbn [InputStore.mem].
  destruct (InputStore.dp_w_en s i n) eqn:Hen; [|reflexivity].
  cbn [andb].
  destruct (Z.eqb_spec (InputStore.buf_addr max_depth low b) (InputStore.dp_w_addr max_depth s))
    as [Heq|]; [|reflexivity].
  exfalso.
  apply (f_equal (fun a => Z.testbit a (InputStore.depth_width max_depth - 2))) in Heq.
  unfold InputStore.dp_w_addr in Heq.
  rewrite !InputStore_buf_addr_top in Heq by assumption.
  unfold InputStore.dp_w_en, InputStore.w_accept, InputStore.w_ready in Hen.
  rewrite <- Heq, Hfull in Hen. cbn in Hen.
  rewrite andb_false_r in Hen. discriminate.
Qed.

(** Outside the read protocol: [r_finished] is raised on the empty buffer 0
    in the very cycle that writes its only word.  The write is accepted and
    is the last of the pixel, both selectors move on to buffer 1, and the
    later [r_finished] assignment leaves buffer 0 unmarked. *)
Lemma InputStore_finished_overrides_mark :
  InputStore.w_last InputStore.reset (InputStore.one_word true false) = true /\
  InputStore.r_full
    (InputStore.step 8 InputStore.reset (InputStore.one_word true false)) false
  = false /\
  InputStore.w_curr_buf
    (InputStore.step 8 InputStore.reset (InputStore.one_word true false))
  = true /\
  InputStore.r_curr_buf
    (InputStore.step 8 InputStore.reset (InputStore.one_word true false))
  = true.
Proof. repeat split. Qed.

(** [restart] in the cycle that writes the last word of a pixel: the
    selectors and the write address are reset, and the write side's later
    assignment to the full flag outlives the restart. *)
Lemma InputStore_mark_outlives_restart :
  InputStore.w_curr_buf
    (InputStore.step 8 InputStore.reset (InputStore.one_word false true))
  = false /\
  InputStore.w_addr
    (InputStore.step 8 InputStore.reset (InputStore.one_word false true)) = 0 /\
  InputStore.r_full
    (InputStore.step 8 InputStore.reset (InputStore.one_word false true)) false
  = true.
Proof. repeat split. Qed.

(** ** store.py: [InputStore], what a completed buffer holds *)

(** The low bits of a bank address are the low bits of the word address. *)
Lemma InputStore_buf_addr_low (max_depth low : Z) (b : bool) :
  2 <= InputStore.depth_width max_depth ->
  InputStore.buf_addr max_depth low b
    mod 2 ^ (InputStore.depth_width max_depth - 2)
  = low mod 2 ^ (InputStore.depth_width max_depth - 2).
Proof.
  intros Hdw. set (m := InputStore.depth_width max_depth - 2).
  assert (Hm : 0 <= m) by (unfold m; lia).
  unfold InputStore.buf_addr, Amaranth.Cat, Amaranth.unsigned. fold m.
  rewrite <- !Z.land_ones by exact Hm.
  rewrite Z.land_lor_distr_l.
  rewrite <- Z.land_assoc, Z.land_diag.
  replace (Z.land (Z.shiftl (Z.b2z b) m) (Z.ones m)) with 0.
  - apply Z.lor_0_r.
  - rewrite Z.land_ones, Z.shiftl_mul_pow2 by exact Hm.
    symmetry. apply Z_mod_mult.
Qed.

Section Fill.

Variables (max_depth D : Z) (w : nat -> Z).

Local Abbreviation dw := (InputStore.depth_width max_depth).

Hypothesis width_ok : 2 <= dw.
Hypothesis depth_fits : 1 <= D < 2 ^ dw.

(** Word [j] of a pixel goes to bank [j mod 4], word address [j / 4]. *)
Lemma InputStore_write_place (s : InputStore.state) (x : Z) :
  0 <= InputStore.w_addr s < D ->
  InputStore.r_full s (InputStore.w_curr_buf s) = false ->
  forall n a,
    InputStore.mem
      (InputStore.step max_depth s (InputStore.write_cycle D x)) n a
    = if (n =? InputStore.w_addr s mod 4)
         && (a =? InputStore.buf_addr max_depth (InputStore.w_addr s / 4)
                    (InputStore.w_curr_buf s))
      then Amaranth.unsigned 32 x
      else InputStore.mem s n a.
Proof.
  intros Hk Hfree n a.
  unfold InputStore.step, InputStore.next_mem, InputStore.dp_w_en,
    InputStore.w_accept, InputStore.w_ready, InputStore.dp_w_addr.
  cbn [InputStore.mem InputStore.w_en InputStore.w_data InputStore.write_cycle].
  rewrite Hfree. cbn [negb andb]. rewrite slice_low by lia.
  change (2 ^ 2) with 4.
  replace (InputStore.buf_addr max_depth
             (Amaranth.slice (InputStore.w_addr s) 2 dw)
             (InputStore.w_curr_buf s))
    with (InputStore.buf_addr max_depth (InputStore.w_addr s / 4)
            (InputStore.w_curr_buf s)); [reflexivity|].
  unfold InputStore.buf_addr, Amaranth.Cat, Amaranth.unsigned, Amaranth.slice.
  rewrite Z.land_ones, Z.shiftr_div_pow2 by lia.
  change (2 ^ 2) with 4. rewrite Z.mod_mod; [reflexivity|].
  apply Z.pow_nonzero; lia.
Qed.

(** Writing word [k] leaves the words before it where they are. *)
Lemma InputStore_write_keeps (k : nat) (s : InputStore.state) :
  InputStore.w_addr s = Z.of_nat k -> Z.of_nat k < D ->
  InputStore.r_full s (InputStore.w_curr_buf s) = false ->
  (forall j : nat, (j < k)%nat ->
     InputStore.mem s (Z.of_nat j mod 4)
       (InputStore.buf_addr max_depth (Z.of_nat j / 4) (InputStore.w_curr_buf s))
     = Amaranth.unsigned 32 (w j)) ->
  forall j : nat, (j < S k)%nat ->
    InputStore.mem
      (InputStore.step max_depth s (InputStore.write_cycle D (w k)))
      (Z.of_nat j mod 4)
      (InputStore.buf_addr max_depth (Z.of_nat j / 4) (InputStore.w_curr_buf s))
    = Amaranth.unsigned 32 (w j).
Proof.
  intros Hk HkD Hfree Hmem j Hj.
  rewrite InputStore_write_place by (assumption || lia). rewrite Hk.
  destruct (Nat.eq_dec j k) as [->|Hne];
    [rewrite !Z.eqb_refl; reflexivity|].
  rewrite Hmem by lia.
  destruct (Z.eqb_spec (Z.of_nat j mod 4) (Z.of_nat k mod 4)) as [Hb|];
    [|reflexivity].
  destruct (Z.eqb_spec
              (InputStore.buf_addr max_depth (Z.of_nat j / 4)
                 (InputStore.w_curr_buf s))
              (InputStore.buf_addr max_depth (Z.of_nat k / 4)
                 (InputStore.w_curr_buf s))) as [Ha|];
    [|reflexivity].
  exfalso.
  apply (f_equal (fun a => a mod 2 ^ (dw - 2))) in Ha.
  rewrite !InputStore_buf_addr_low in Ha by exact width_ok.
  assert (Hp : 2 ^ dw = 4 * 2 ^ (dw - 2)).
  { replace dw with (2 + (dw - 2)) at 1 by lia.
    rewrite Z.pow_add_r by lia. reflexivity. }
  assert (0 < 2 ^ (dw - 2)) by (apply Z.pow_pos_nonneg; lia).
  rewrite !Z.mod_small in Ha
    by (split; [apply Z.div_pos; lia | apply Z.div_lt_upper_bound; lia]).
  pose proof (Z.div_mod (Z.of_nat j) 4 ltac:(lia)).
  pose proof (Z.div_mod (Z.of_nat k) 4 ltac:(lia)). lia.
Qed.

(** The words already written stay where they are while the rest of the
    pixel is written, and the last write hands the buffer over. *)
Lemma InputStore_fill_from (n : nat) :
  forall (k : nat) (s : InputStore.state),
  Z.of_nat k + Z.of_nat (S n) = D ->
  InputStore.w_addr s = Z.of_nat k ->
  InputStore.r_full s (InputStore.w_curr_buf s) = false ->
  (forall j : nat, (j < k)%nat ->
     InputStore.mem s (Z.of_nat j mod 4)
       (InputStore.buf_addr max_depth (Z.of_nat j / 4) (InputStore.w_curr_buf s))
     = Amaranth.unsigned 32 (w j)) ->
  InputStore.r_full
    (InputStore.run max_depth s (InputStore.write_cycles D w k (S n)))
    (InputStore.w_curr_buf s) = true /\
  InputStore.w_curr_buf
    (InputStore.run max_depth s (InputStore.write_cycles D w k (S n)))
    = negb (InputStore.w_curr_buf s) /\
  InputStore.w_addr
    (InputStore.run max_depth s (InputStore.write_cycles D w k (S n))) = 0 /\
  (forall j : nat, (j < k + S n)%nat ->
     InputStore.mem
       (InputStore.run max_depth s (InputStore.write_cycles D w k (S n)))
       (Z.of_nat j mod 4)
       (InputStore.buf_addr max_depth (Z.of_nat j / 4) (InputStore.w_curr_buf s))
     = Amaranth.unsigned 32 (w j)).
Proof.
  induction n as [|n IH]; intros k s Hlen Hk Hfree Hmem;
    pose proof (InputStore_write_keeps k s Hk ltac:(lia) Hfree Hmem) as Hkeep.
  - (* the last word of the pixel *)
    unfold InputStore.run, InputStore.write_cycles. cbn [seq map fold_left].
    assert (Hlast : InputStore.w_last s (InputStore.write_cycle D (w k)) = true).
    { unfold InputStore.w_last, InputStore.w_accept, InputStore.w_ready.
      rewrite Hfree. cbn. apply Z.eqb_eq. lia. }
    unfold InputStore.step at 1 2 3. unfold InputStore.r_full at 1.
    unfold InputStore.next_r_full.
    cbn [InputStore.r_full_0 InputStore.r_full_1 InputStore.w_curr_buf
         InputStore.w_addr].
    rewrite Hlast. cbn [InputStore.write_cycle InputStore.restart
                        InputStore.r_finished andb].
    repeat split.
    + destruct (InputStore.w_curr_buf s); reflexivity.
    + intros j Hj. apply Hkeep. lia.
  - (* a word before the last *)
    change (InputStore.run max_depth s (InputStore.write_cycles D w k (S (S n))))
      with (InputStore.run max_depth
              (InputStore.step max_depth s (InputStore.write_cycle D (w k)))
              (InputStore.write_cycles D w (S k) (S n))).
    set (s1 := InputStore.step max_depth s (InputStore.write_cycle D (w k))) in *.
    assert (Hnot : InputStore.w_last s (InputStore.write_cycle D (w k)) = false).
    { unfold InputStore.w_last. apply andb_false_iff. right.
      cbn. apply Z.eqb_neq. lia. }
    assert (Hacc : InputStore.w_accept s (InputStore.write_cycle D (w k)) = true).
    { unfold InputStore.w_accept, InputStore.w_ready. rewrite Hfree.
      reflexivity. }
    assert (Hbuf : InputStore.w_curr_buf s1 = InputStore.w_curr_buf s).
    { unfold s1, InputStore.step. cbn [InputStore.w_curr_buf].
      rewrite Hnot. reflexivity. }
    assert (Haddr : InputStore.w_addr s1 = Z.of_nat (S k)).
    { unfold s1, InputStore.step. cbn [InputStore.w_addr].
      rewrite Hnot, Hacc. cbn [InputStore.write_cycle InputStore.restart].
      rewrite Hk. rewrite unsigned_fits; [lia|].
      unfold Amaranth.fits_unsigned. lia. }
    assert (Hfree1 : InputStore.r_full s1 (InputStore.w_curr_buf s1) = false).
    { rewrite Hbuf. unfold s1, InputStore.step, InputStore.r_full.
      unfold InputStore.next_r_full.
      cbn [InputStore.r_full_0 InputStore.r_full_1].
      rewrite Hnot. cbn [InputStore.write_cycle InputStore.restart
                         InputStore.r_finished andb].
      unfold InputStore.r_full in Hfree.
      destruct (InputStore.w_curr_buf s); exact Hfree. }
    destruct (IH (S k) s1 ltac:(lia) Haddr Hfree1) as (H1 & H2 & H3 & H4).
    { intros j Hj. rewrite Hbuf. apply Hkeep. exact Hj. }
    rewrite Hbuf in H1, H2, H4.
    repeat split; try assumption.
    intros j Hj. apply H4. lia.
Qed.

End Fill.

(** A pixel of [D] words written into an empty write buffer, one word per
    cycle: the buffer is then marked full, the writer has moved to the other
    buffer, and word [j] is found in bank [j mod 4] at word address [j / 4]
    of the buffer. *)
Lemma InputStore_fill_round_trip
    (max_depth D : Z) (w : nat -> Z) (s : InputStore.state) :
  2 <= InputStore.depth_width max_depth ->
  1 <= D < 2 ^ InputStore.depth_width max_depth ->
  InputStore.w_addr s = 0 ->
  InputStore.r_full s (InputStore.w_curr_buf s) = false ->
  InputStore.r_full
    (InputStore.run max_depth s (InputStore.write_cycles D w 0 (Z.to_nat D)))
    (InputStore.w_curr_buf s) = true /\
  InputStore.w_curr_buf
    (InputStore.run max_depth s (InputStore.write_cycles D w 0 (Z.to_nat D)))
    = negb (InputStore.w_curr_buf s) /\
  (forall j : nat, (j < Z.to_nat D)%nat ->
     InputStore.mem
       (InputStore.run max_depth s (InputStore.write_cycles D w 0 (Z.to_nat D)))
       (Z.of_nat j mod 4)
       (InputStore.buf_addr max_depth (Z.of_nat j / 4) (InputStore.w_curr_buf s))
     = Amaranth.unsigned 32 (w j)).
Proof.
  intros Hdw HD Haddr Hfree.
  destruct (Z.to_nat D) as [|n] eqn:Hn; [lia|].
  destruct (InputStore_fill_from max_depth D w Hdw HD n 0%nat s)
    as (H1 & H2 & _ & H4); try assumption; try lia.
  repeat split; assumption.
Qed.

(** ** store.py: [InputStore], the pixels in the two buffers *)

Lemma InputStore_run_snoc (max_depth : Z) (s : InputStore.state)
    (l : list InputStore.inputs) (c : InputStore.inputs) :
  InputStore.run max_depth s (l ++ [c]) =
  InputStore.step max_depth (InputStore.run max_depth s l) c.
Proof. unfold InputStore.run. rewrite fold_left_app. reflexivity. Qed.

Lemma InputStore_accepted_snoc (max_depth : Z) (l : list InputStore.inputs) :
  forall (s : InputStore.state) (c : InputStore.inputs),
  InputStoreWrite.accepted max_depth s (l ++ [c]) =
  InputStoreWrite.accepted max_depth s l ++
  (if InputStore.w_en c && InputStore.w_ready (InputStore.run max_depth s l)
   then [InputStore.w_data c] else []).
Proof.
  induction l as [|i l IH]; intros s c.
  - cbn. rewrite app_nil_r. reflexivity.
  - cbn [app InputStoreWrite.accepted]. rewrite IH, app_assoc. reflexivity.
Qed.

(** The invariant of [InputStore_ready_full] along a run. *)
Lemma InputStore_ready_full_run (max_depth : Z) (l : list InputStore.inputs) :
  forall s, InputStore.reachable max_depth s ->
  InputStore.r_ready (InputStore.run max_depth s l) = true ->
  InputStore.r_full (InputStore.run max_depth s l)
    (InputStore.r_curr_buf (InputStore.run max_depth s l)) = true.
Proof.
  induction l as [|i l IH]; intros s Hs.
  - apply (InputStore_ready_full max_depth). exact Hs.
  - cbn [InputStore.run fold_left]. apply IH.
    apply InputStore.reachable_step. exact Hs.
Qed.

(** [last_full] is high only while the reader is offered its buffer. *)
Lemma InputStore_last_full_ready (max_depth : Z) (s : InputStore.state) :
  InputStore.reachable max_depth s ->
  InputStore.last_full s = true -> InputStore.r_ready s = true.
Proof.
  induction 1 as [|s i _ IH]; [discriminate|].
  unfold InputStore.step, InputStore.full_rose.
  cbn [InputStore.last_full InputStore.r_ready].
  destruct (InputStore.restart i); [discriminate|].
  destruct (InputStore.r_finished i); [discriminate|].
  intros Hfull. rewrite Hfull. cbn [andb].
  destruct (InputStore.last_full s); [apply IH|]; reflexivity.
Qed.

(** The accepted write at [w_addr == input_depth - 1], in terms of the ports
    and registers. *)
Lemma InputStore_w_last_iff (s : InputStore.state) (i : InputStore.inputs) :
  InputStore.w_last s i = true <->
  InputStore.w_en i = true /\
  InputStore.r_full s (InputStore.w_curr_buf s) = false /\
  InputStore.w_addr s = InputStore.input_depth i - 1.
Proof.
  unfold InputStore.w_last, InputStore.w_accept, InputStore.w_ready.
  rewrite !andb_true_iff, negb_true_iff, Z.eqb_eq. tauto.
Qed.

(** What a clock edge does to a memory word. *)
Lemma InputStore_mem_step
    (max_depth : Z) (s : InputStore.state) (i : InputStore.inputs) (n a : Z) :
  2 <= InputStore.depth_width max_depth ->
  InputStore.mem (InputStore.step max_depth s i) n a =
  if InputStore.w_en i && InputStore.w_ready s
     && (n =? InputStore.w_addr s mod 4)
     && (a =? InputStore.buf_addr max_depth (InputStore.w_addr s / 4)
                (InputStore.w_curr_buf s))
  then Amaranth.unsigned 32 (InputStore.w_data i)
  else InputStore.mem s n a.
Proof.
  intros Hdw.
  unfold InputStore.step, InputStore.next_mem, InputStore.dp_w_en,
    InputStore.w_accept, InputStore.dp_w_addr.
  cbn [InputStore.mem]. rewrite slice_low by lia. change (2 ^ 2) with 4.
  replace (InputStore.buf_addr max_depth
             (Amaranth.slice (InputStore.w_addr s) 2
                (InputStore.depth_width max_depth))
             (InputStore.w_curr_buf s))
    with (InputStore.buf_addr max_depth (InputStore.w_addr s / 4)
            (InputStore.w_curr_buf s)); [reflexivity|].
  unfold InputStore.buf_addr, Amaranth.Cat, Amaranth.unsigned, Amaranth.slice.
  rewrite Z.land_ones, Z.shiftr_div_pow2 by lia.
  change (2 ^ 2) with 4. rewrite Z.mod_mod; [reflexivity|].
  apply Z.pow_nonzero; lia.
Qed.

(** Two words of a buffer are stored in different places. *)
Lemma InputStore_cell_inj (max_depth j k : Z) (b : bool) :
  2 <= InputStore.depth_width max_depth ->
  0 <= j < 2 ^ InputStore.depth_width max_depth ->
  0 <= k < 2 ^ InputStore.depth_width max_depth ->
  j mod 4 = k mod 4 ->
  InputStore.buf_addr max_depth (j / 4) b =
  InputStore.buf_addr max_depth (k / 4) b ->
  j = k.
Proof.
  intros Hdw Hj Hk Hb Ha.
  set (dw := InputStore.depth_width max_depth) in *.
  apply (f_equal (fun a => a mod 2 ^ (dw - 2))) in Ha.
  unfold dw in Ha. rewrite !InputStore_buf_addr_low in Ha by exact Hdw.
  fold dw in Ha.
  assert (Hp : 2 ^ dw = 4 * 2 ^ (dw - 2)).
  { replace dw with (2 + (dw - 2)) at 1 by lia.
    rewrite Z.pow_add_r by lia. reflexivity. }
  assert (0 < 2 ^ (dw - 2)) by (apply Z.pow_pos_nonneg; lia).
  rewrite !Z.mod_small in Ha
    by (split; [apply Z.div_pos; lia | apply Z.div_lt_upper_bound; lia]).
  pose proof (Z.div_mod j 4 ltac:(lia)).
  pose proof (Z.div_mod k 4 ltac:(lia)). lia.
Qed.

(** An accepted word goes to bank [w_addr mod 4], word address
    [w_addr / 4] of the write buffer. *)
Lemma InputStore_mem_step_written
    (max_depth : Z) (s : InputStore.state) (i : InputStore.inputs) :
  2 <= InputStore.depth_width max_depth ->
  InputStore.w_en i && InputStore.w_ready s = true ->
  InputStore.mem (InputStore.step max_depth s i) (InputStore.w_addr s mod 4)
    (InputStore.buf_addr max_depth (InputStore.w_addr s / 4)
       (InputStore.w_curr_buf s))
  = Amaranth.unsigned 32 (InputStore.w_data i).
Proof.
  intros Hdw Hacc. rewrite InputStore_mem_step by exact Hdw.
  rewrite Hacc, !Z.eqb_refl. reflexivity.
Qed.

(** The other words of the write buffer stay. *)
Lemma InputStore_mem_step_other_word
    (max_depth : Z) (s : InputStore.state) (i : InputStore.inputs) (j : Z) :
  2 <= InputStore.depth_width max_depth ->
  0 <= InputStore.w_addr s < 2 ^ InputStore.depth_width max_depth ->
  0 <= j < 2 ^ InputStore.depth_width max_depth ->
  j <> InputStore.w_addr s ->
  InputStore.mem (InputStore.step max_depth s i) (j mod 4)
    (InputStore.buf_addr max_depth (j / 4) (InputStore.w_curr_buf s))
  = InputStore.mem s (j mod 4)
      (InputStore.buf_addr max_depth (j / 4) (InputStore.w_curr_buf s)).
Proof.
  intros Hdw Ha Hj Hne. rewrite InputStore_mem_step by exact Hdw.
  destruct (Z.eqb_spec (j mod 4) (InputStore.w_addr s mod 4)) as [Hb|];
    [|rewrite andb_false_r; reflexivity].
  destruct (Z.eqb_spec
              (InputStore.buf_addr max_depth (j / 4) (InputStore.w_curr_buf s))
              (InputStore.buf_addr max_depth (InputStore.w_addr s / 4)
                 (InputStore.w_curr_buf s))) as [He|];
    [|rewrite andb_false_r; reflexivity].
  exfalso. apply Hne.
  apply (InputStore_cell_inj max_depth j (InputStore.w_addr s)
           (InputStore.w_curr_buf s)); assumption.
Qed.

(** The words of the other buffer stay. *)
Lemma InputStore_mem_step_other_buffer
    (max_depth : Z) (s : InputStore.state) (i : InputStore.inputs) (n low : Z) :
  2 <= InputStore.depth_width max_depth ->
  InputStore.mem (InputStore.step max_depth s i) n
    (InputStore.buf_addr max_depth low (negb (InputStore.w_curr_buf s)))
  = InputStore.mem s n
      (InputStore.buf_addr max_depth low (negb (InputStore.w_curr_buf s))).
Proof.
  intros Hdw. rewrite InputStore_mem_step by exact Hdw.
  destruct (Z.eqb_spec
              (InputStore.buf_addr max_depth low
                 (negb (InputStore.w_curr_buf s)))
              (InputStore.buf_addr max_depth (InputStore.w_addr s / 4)
                 (InputStore.w_curr_buf s))) as [He|];
    [|rewrite andb_false_r; reflexivity].
  exfalso.
  apply (f_equal (fun a => Z.testbit a (InputStore.depth_width max_depth - 2)))
    in He.
  rewrite !InputStore_buf_addr_top in He by exact Hdw.
  destruct (InputStore.w_curr_buf s); discriminate.
Qed.

(** A cycle that accepts no word leaves the memories as they are. *)
Lemma InputStore_mem_step_idle
    (max_depth : Z) (s : InputStore.state) (i : InputStore.inputs) (n a : Z) :
  2 <= InputStore.depth_width max_depth ->
  InputStore.w_en i && InputStore.w_ready s = false ->
  InputStore.mem (InputStore.step max_depth s i) n a = InputStore.mem s n a.
Proof.
  intros Hdw Hacc. rewrite InputStore_mem_step by exact Hdw.
  rewrite Hacc. reflexivity.
Qed.

Lemma pixel_app_old (D : Z) (ws : list Z) (x p j : Z) :
  0 <= D * p + j < Z.of_nat (length ws) ->
  InputStoreWrite.pixel D (ws ++ [x]) p j = InputStoreWrite.pixel D ws p j.
Proof.
  intros H. unfold InputStoreWrite.pixel. rewrite app_nth1 by lia.
  reflexivity.
Qed.

Lemma pixel_app_new (D : Z) (ws : list Z) (x p j : Z) :
  D * p + j = Z.of_nat (length ws) ->
  InputStoreWrite.pixel D (ws ++ [x]) p j = Amaranth.unsigned 32 x.
Proof.
  intros H. unfold InputStoreWrite.pixel. rewrite H, Nat2Z.id.
  rewrite nth_middle. reflexivity.
Qed.

(** Where the words of a run are.  From a state at a pixel boundary, over
    cycles without restart and with the same [input_depth]: the write
    address is the number of accepted words modulo [D], the write selector
    has toggled once for every [D] of them, the write buffer holds the
    words of the pixel under way, and the other buffer holds the last
    completed pixel. *)
Lemma InputStore_write_run
    (max_depth D : Z) (s : InputStore.state) (l : list InputStore.inputs) :
  2 <= InputStore.depth_width max_depth ->
  1 <= D < 2 ^ InputStore.depth_width max_depth ->
  InputStore.w_addr s = 0 ->
  Forall (fun c => InputStore.restart c = false /\
                   InputStore.input_depth c = D) l ->
  InputStore.w_addr (InputStore.run max_depth s l) =
    InputStoreWrite.count max_depth s l mod D /\
  InputStore.w_curr_buf (InputStore.run max_depth s l) =
    xorb (InputStore.w_curr_buf s)
         (Z.odd (InputStoreWrite.count max_depth s l / D)) /\
  InputStoreRead.holds max_depth (InputStore.run max_depth s l)
    (InputStore.w_curr_buf (InputStore.run max_depth s l))
    (InputStoreWrite.count max_depth s l mod D)
    (InputStoreWrite.pixel D (InputStoreWrite.accepted max_depth s l)
       (InputStoreWrite.count max_depth s l / D)) /\
  (D <= InputStoreWrite.count max_depth s l ->
   InputStoreRead.holds max_depth (InputStore.run max_depth s l)
     (negb (InputStore.w_curr_buf (InputStore.run max_depth s l))) D
     (InputStoreWrite.pixel D (InputStoreWrite.accepted max_depth s l)
        (InputStoreWrite.count max_depth s l / D - 1))).
Proof.
  intros Hdw HD Hstart. unfold InputStoreWrite.count, InputStoreRead.holds.
  induction l as [|c l IH] using rev_ind; intros Hall.
  - cbn [InputStoreWrite.accepted InputStore.run fold_left length Z.of_nat].
    rewrite Z.mod_0_l, Z.div_0_l by lia. cbn [Z.odd].
    rewrite xorb_false_r.
    split; [exact Hstart|]. split; [reflexivity|]. split; intros; lia.
  - apply Forall_app in Hall. destruct Hall as [Hl Hc].
    inversion Hc as [|? ? [Hrs Hdepth] _]; subst.
    destruct (IH Hl) as (Ha & Hb & Hcur & Hoth). clear IH Hl Hc.
    rewrite InputStore_run_snoc, InputStore_accepted_snoc.
    set (s1 := InputStore.run max_depth s l) in *.
    set (ws := InputStoreWrite.accepted max_depth s l) in *.
    set (n := Z.of_nat (length ws)) in *.
    assert (Hn : 0 <= n) by (unfold n; lia).
    pose proof (Z.div_mod n (InputStore.input_depth c) ltac:(lia)) as Hdm.
    pose proof (Z.mod_pos_bound n (InputStore.input_depth c) ltac:(lia)) as Hr.
    pose proof (Z.div_pos n (InputStore.input_depth c) Hn ltac:(lia)) as Hq.
    set (D := InputStore.input_depth c) in *.
    set (q := n / D) in *. set (r := n mod D) in *.
    assert (Hqm : 0 <= D * q) by (apply Z.mul_nonneg_nonneg; lia).
    destruct (InputStore.w_en c && InputStore.w_ready s1) eqn:Hacc.
    + (* a word is accepted *)
      rewrite length_app. cbn [length].
      replace (Z.of_nat (length ws + 1)) with (n + 1) by (unfold n; lia).
      assert (Hw : InputStore.w_accept s1 c = true) by exact Hacc.
      destruct (Z.eq_dec r (D - 1)) as [Hlast|Hmid].
      * (* the last word of a pixel *)
        assert (Hq' : (n + 1) / D = q + 1)
          by (symmetry; apply (Z.div_unique _ _ _ 0); lia).
        assert (Hr' : (n + 1) mod D = 0)
          by (symmetry; apply (Z.mod_unique _ _ (q + 1)); lia).
        rewrite Hq', Hr'.
        assert (Hwl : InputStore.w_last s1 c = true).
        { unfold InputStore.w_last. rewrite Hw. cbn [andb].
          apply Z.eqb_eq. fold D. lia. }
        assert (Hbuf : InputStore.w_curr_buf (InputStore.step max_depth s1 c)
                       = negb (InputStore.w_curr_buf s1)).
        { unfold InputStore.step. cbn [InputStore.w_curr_buf].
          rewrite Hrs, Hwl. reflexivity. }
        split.
        { unfold InputStore.step. cbn [InputStore.w_addr].
          rewrite Hrs, Hwl. reflexivity. }
        split.
        { rewrite Hbuf, Hb.
          replace (q + 1) with (Z.succ q) by lia. rewrite Z.odd_succ.
          rewrite <- Z.negb_odd.
          destruct (InputStore.w_curr_buf s), (Z.odd q); reflexivity. }
        split; [intros; lia|].
        intros _ j Hj. rewrite Hbuf, negb_involutive.
        replace (q + 1 - 1) with q by lia.
        destruct (Z.eq_dec j r) as [->|Hne].
        -- rewrite pixel_app_new by (fold n; lia).
           rewrite <- Ha. apply InputStore_mem_step_written; assumption.
        -- rewrite pixel_app_old by (fold n; lia).
           rewrite InputStore_mem_step_other_word by (assumption || lia).
           apply Hcur. lia.
      * (* a word before the last *)
        assert (Hq' : (n + 1) / D = q)
          by (symmetry; apply (Z.div_unique _ _ _ (r + 1)); lia).
        assert (Hr' : (n + 1) mod D = r + 1)
          by (symmetry; apply (Z.mod_unique _ _ q); lia).
        rewrite Hq', Hr'.
        assert (Hwl : InputStore.w_last s1 c = false).
        { unfold InputStore.w_last. rewrite Hw. cbn [andb].
          apply Z.eqb_neq. fold D. lia. }
        assert (Hbuf : InputStore.w_curr_buf (InputStore.step max_depth s1 c)
                       = InputStore.w_curr_buf s1).
        { unfold InputStore.step. cbn [InputStore.w_curr_buf].
          rewrite Hrs, Hwl. reflexivity. }
        split.
        { unfold InputStore.step. cbn [InputStore.w_addr].
          rewrite Hrs, Hwl, Hw, Ha. apply unsigned_fits.
          unfold Amaranth.fits_unsigned. lia. }
        split; [rewrite Hbuf; exact Hb|].
        split.
        -- intros j Hj. rewrite Hbuf.
           destruct (Z.eq_dec j r) as [->|Hne].
           ++ rewrite pixel_app_new by (fold n; lia).
              rewrite <- Ha. apply InputStore_mem_step_written; assumption.
           ++ rewrite pixel_app_old by (fold n; lia).
              rewrite InputStore_mem_step_other_word by (assumption || lia).
              apply Hcur. lia.
        -- intros Hge j Hj. rewrite Hbuf.
           assert (HDn : D <= n).
           { destruct (Z.lt_ge_cases n D) as [Hlt|]; [|assumption].
             assert (r = n) by (apply Z.mod_small; lia). lia. }
           assert (1 <= q).
           { assert (0 < q) by (apply Z.div_str_pos; lia). lia. }
           assert (0 <= D * (q - 1)) by (apply Z.mul_nonneg_nonneg; lia).
           rewrite pixel_app_old by (fold n; lia).
           rewrite InputStore_mem_step_other_buffer by assumption.
           apply Hoth; assumption.
    + (* no word is accepted *)
      rewrite app_nil_r. fold n. fold q. fold r.
      assert (Hw : InputStore.w_accept s1 c = false) by exact Hacc.
      assert (Hwl : InputStore.w_last s1 c = false)
        by (unfold InputStore.w_last; rewrite Hw; reflexivity).
      assert (Hbuf : InputStore.w_curr_buf (InputStore.step max_depth s1 c)
                     = InputStore.w_curr_buf s1).
      { unfold InputStore.step. cbn [InputStore.w_curr_buf].
        rewrite Hrs, Hwl. reflexivity. }
      split.
      { unfold InputStore.step. cbn [InputStore.w_addr].
        rewrite Hrs, Hwl, Hw. exact Ha. }
      split; [rewrite Hbuf; exact Hb|].
      split.
      * intros j Hj. rewrite Hbuf, InputStore_mem_step_idle by assumption.
        apply Hcur. exact Hj.
      * intros Hge j Hj. rewrite Hbuf, InputStore_mem_step_idle by assumption.
        apply Hoth; assumption.
Qed.

(** C5.  In every state [s] the store reaches from reset, whatever its
    inputs were, and for every cycle [i] in that state:
    - ownership: no buffer is at once writable (selected by the writer and
      not full) and readable (selected by the reader with [r_ready] high);
      [w_ready] is high exactly when the full flag of the writer's buffer is
      clear; while [r_ready] is high the reader's buffer is full, and when
      [w_ready] is high as well it is the other buffer;
    - writes: a memory word that the clock edge changes is the word at
      [w_addr] of the writer's buffer, with [w_en] high and the full flag of
      that buffer clear; such a cycle stores [w_data] there; the words of a
      full buffer are not changed by the clock edge;
    - reads: the depthwise read port takes its four words from the reader's
      buffer (for a store in which the read and the write side split the
      bank address at the same bit, as they do for a depth that is a power
      of two);
    - the swap: without restart the write selector toggles exactly in a
      cycle with [w_en] high, the full flag of the writer's buffer clear and
      [w_addr = input_depth - 1]; a full flag rises only in such a cycle,
      for the buffer written, and it does rise when [r_finished] is raised
      only while [r_ready] is high; a full flag falls only under
      [r_finished], for the reader's buffer, or under [restart];
    - readability: a full buffer selected by the reader is offered after
      the next clock edge, unless that edge restarts the store or finishes
      the reading; [r_ready] rises only if the reader's buffer was full, and
      falls only under [r_finished] or [restart];
    - the pixels: from [s] at a pixel boundary ([w_addr = 0]), over any run
      without restart in which [input_depth] is [D], whatever else the
      cycles do: [w_addr] is the number of accepted words modulo [D]; the
      write selector has toggled once for every [D] accepted words; the
      writer's buffer holds the words accepted so far for the pixel under
      way; once [D] words have been accepted the other buffer holds the
      last completed pixel; and whenever [r_ready] and [w_ready] are both
      high, that other buffer is the one the reader is offered. *)
Theorem InputStore_double_buffering
    (max_depth : Z) (s : InputStore.state) (i : InputStore.inputs) :
  2 <= InputStore.depth_width max_depth ->
  InputStore.reachable max_depth s ->
  (forall b, ~ (InputStore.writable s b /\ InputStore.readable s b)) /\
  (InputStore.w_ready s = true <->
     InputStore.r_full s (InputStore.w_curr_buf s) = false) /\
  (InputStore.r_ready s = true ->
     InputStore.r_full s (InputStore.r_curr_buf s) = true /\
     (InputStore.w_ready s = true ->
        InputStore.r_curr_buf s = negb (InputStore.w_curr_buf s))) /\
  (forall n a,
     InputStore.mem (InputStore.step max_depth s i) n a <> InputStore.mem s n a ->
     InputStore.w_en i = true /\
     InputStore.r_full s (InputStore.w_curr_buf s) = false /\
     n = InputStore.w_addr s mod 4 /\
     a = InputStore.buf_addr max_depth (InputStore.w_addr s / 4)
           (InputStore.w_curr_buf s)) /\
  (InputStore.w_en i = true ->
   InputStore.r_full s (InputStore.w_curr_buf s) = false ->
     InputStore.mem (InputStore.step max_depth s i)
       (InputStore.w_addr s mod 4)
       (InputStore.buf_addr max_depth (InputStore.w_addr s / 4)
          (InputStore.w_curr_buf s))
     = Amaranth.unsigned 32 (InputStore.w_data i)) /\
  (forall b, InputStore.r_full s b = true ->
     forall n low,
       InputStore.mem (InputStore.step max_depth s i) n
         (InputStore.buf_addr max_depth low b)
       = InputStore.mem s n (InputStore.buf_addr max_depth low b)) /\
  (InputStoreRead.mem_addr_width max_depth
     = InputStore.depth_width max_depth - 2 ->
   InputStoreRead.read_data max_depth s i =
   map (fun n =>
          InputStore.mem s n
            (InputStore.buf_addr max_depth
               (InputStoreRead.mem_addrs max_depth s i n)
               (InputStore.r_curr_buf s)))
       [0; 1; 2; 3]) /\
  (InputStore.restart i = false ->
     (InputStore.w_curr_buf (InputStore.step max_depth s i)
        = negb (InputStore.w_curr_buf s)
      <-> InputStore.w_en i = true /\
          InputStore.r_full s (InputStore.w_curr_buf s) = false /\
          InputStore.w_addr s = InputStore.input_depth i - 1)) /\
  (forall b, InputStore.r_full s b = false ->
     InputStore.r_full (InputStore.step max_depth s i) b = true ->
     InputStore.w_curr_buf s = b /\
     InputStore.w_en i = true /\
     InputStore.w_addr s = InputStore.input_depth i - 1) /\
  (InputStore.w_en i = true ->
   InputStore.r_full s (InputStore.w_curr_buf s) = false ->
   InputStore.w_addr s = InputStore.input_depth i - 1 ->
   (InputStore.r_finished i = true -> InputStore.r_ready s = true) ->
     InputStore.r_full (InputStore.step max_depth s i) (InputStore.w_curr_buf s)
       = true) /\
  (forall b, InputStore.r_full s b = true ->
     InputStore.r_full (InputStore.step max_depth s i) b = false ->
     (InputStore.r_finished i = true /\ InputStore.r_curr_buf s = b) \/
     InputStore.restart i = true) /\
  (InputStore.r_full s (InputStore.r_curr_buf s) = true ->
   InputStore.restart i = false -> InputStore.r_finished i = false ->
     InputStore.r_ready (InputStore.step max_depth s i) = true) /\
  (InputStore.r_ready s = false ->
   InputStore.r_ready (InputStore.step max_depth s i) = true ->
     InputStore.r_full s (InputStore.r_curr_buf s) = true) /\
  (InputStore.r_ready s = true ->
   InputStore.r_ready (InputStore.step max_depth s i) = false ->
     InputStore.r_finished i = true \/ InputStore.restart i = true) /\
  (forall (D : Z) (l : list InputStore.inputs),
     1 <= D < 2 ^ InputStore.depth_width max_depth ->
     InputStore.w_addr s = 0 ->
     Forall (fun c => InputStore.restart c = false /\
                      InputStore.input_depth c = D) l ->
     InputStore.w_addr (InputStore.run max_depth s l) =
       InputStoreWrite.count max_depth s l mod D /\
     InputStore.w_curr_buf (InputStore.run max_depth s l) =
       xorb (InputStore.w_curr_buf s)
            (Z.odd (InputStoreWrite.count max_depth s l / D)) /\
     InputStoreRead.holds max_depth (InputStore.run max_depth s l)
       (InputStore.w_curr_buf (InputStore.run max_depth s l))
       (InputStoreWrite.count max_depth s l mod D)
       (InputStoreWrite.pixel D (InputStoreWrite.accepted max_depth s l)
          (InputStoreWrite.count max_depth s l / D)) /\
     (D <= InputStoreWrite.count max_depth s l ->
      InputStoreRead.holds max_depth (InputStore.run max_depth s l)
        (negb (InputStore.w_curr_buf (InputStore.run max_depth s l))) D
        (InputStoreWrite.pixel D (InputStoreWrite.accepted max_depth s l)
           (InputStoreWrite.count max_depth s l / D - 1))) /\
     (InputStore.r_ready (InputStore.run max_depth s l) = true ->
      InputStore.w_ready (InputStore.run max_depth s l) = true ->
      InputStore.r_curr_buf (InputStore.run max_depth s l) =
        negb (InputStore.w_curr_buf (InputStore.run max_depth s l)))).
Proof.
  intros Hdw Hreach.
  pose proof (InputStore_ready_full max_depth s Hreach) as Hinv.
  pose proof (InputStore_last_full_ready max_depth s Hreach) as Hlf.
  pose proof (InputStore_w_last_iff s i) as Hwl.
  assert (Hrdy : InputStore.w_ready s = true <->
                 InputStore.r_full s (InputStore.w_curr_buf s) = false)
    by (unfold InputStore.w_ready; apply negb_true_iff).
  assert (Hother : forall t,
            InputStore.r_full t (InputStore.r_curr_buf t) = true ->
            InputStore.w_ready t = true ->
            InputStore.r_curr_buf t = negb (InputStore.w_curr_buf t)).
  { intros t Hf Hw. unfold InputStore.w_ready in Hw.
    apply negb_true_iff in Hw.
    destruct (InputStore.r_curr_buf t), (InputStore.w_curr_buf t);
      try reflexivity; congruence. }
  split.
  { intros b [[Hw Hnf] [Hr Hr1]]. specialize (Hinv Hr1).
    rewrite Hr in Hinv. congruence. }
  split; [exact Hrdy|].
  split.
  { intros Hr1. split; [exact (Hinv Hr1)|]. apply Hother. exact (Hinv Hr1). }
  split.
  { intros n a Hch. rewrite InputStore_mem_step in Hch by exact Hdw.
    destruct (InputStore.w_en i) eqn:Hen; [|exfalso; apply Hch; reflexivity].
    destruct (InputStore.w_ready s) eqn:Hw;
      [|exfalso; apply Hch; reflexivity].
    destruct (Z.eqb_spec n (InputStore.w_addr s mod 4));
      [|exfalso; apply Hch; reflexivity].
    destruct (Z.eqb_spec a
                (InputStore.buf_addr max_depth (InputStore.w_addr s / 4)
                   (InputStore.w_curr_buf s)));
      [|exfalso; apply Hch; reflexivity].
    repeat split; try assumption. apply Hrdy. reflexivity. }
  split.
  { intros Hen Hfree. apply InputStore_mem_step_written; [exact Hdw|].
    rewrite Hen. apply Hrdy. exact Hfree. }
  split; [intros b Hb; apply InputStore_full_buffer_frozen; assumption|].
  split.
  { intros Hw. unfold InputStoreRead.read_data, InputStoreRead.dp_r_addr,
      InputStore.buf_addr. rewrite Hw. reflexivity. }
  split.
  { intros Hrs. rewrite <- Hwl. unfold InputStore.step.
    cbn [InputStore.w_curr_buf]. rewrite Hrs.
    destruct (InputStore.w_last s i), (InputStore.w_curr_buf s);
      split; intros; try reflexivity; try discriminate. }
  split.
  { intros b Hb Hrise.
    assert (Hl : InputStore.w_last s i = true /\ InputStore.w_curr_buf s = b).
    { revert Hrise. unfold InputStore.step, InputStore.r_full in *.
      unfold InputStore.next_r_full, InputStore.r_full.
      cbn [InputStore.r_full_0 InputStore.r_full_1].
      destruct b, (InputStore.r_finished i), (InputStore.restart i),
        (InputStore.w_last s i), (InputStore.r_curr_buf s),
        (InputStore.w_curr_buf s); cbn; rewrite ?Hb; intros H;
        try discriminate; split; reflexivity. }
    destruct Hl as [Hl Hbuf]. apply Hwl in Hl. tauto. }
  split.
  { intros Hen Hfree Haddr Hprot.
    assert (Hl : InputStore.w_last s i = true) by (apply Hwl; tauto).
    assert (Hne : InputStore.r_finished i = true ->
                  InputStore.r_curr_buf s <> InputStore.w_curr_buf s).
    { intros Hfin Heq. specialize (Hinv (Hprot Hfin)).
      rewrite Heq in Hinv. congruence. }
    unfold InputStore.step, InputStore.r_full.
    unfold InputStore.next_r_full.
    cbn [InputStore.r_full_0 InputStore.r_full_1].
    rewrite Hl.
    destruct (InputStore.r_finished i), (InputStore.r_curr_buf s),
      (InputStore.w_curr_buf s); cbn; try reflexivity;
      exfalso; apply Hne; reflexivity. }
  split.
  { intros b Hb. unfold InputStore.step, InputStore.r_full in *.
    unfold InputStore.next_r_full, InputStore.r_full.
    cbn [InputStore.r_full_0 InputStore.r_full_1].
    destruct b, (InputStore.r_finished i), (InputStore.restart i),
      (InputStore.w_last s i), (InputStore.r_curr_buf s),
      (InputStore.w_curr_buf s); cbn; rewrite ?Hb; intros H;
      try discriminate; auto. }
  split.
  { intros Hfull Hrs Hfin. unfold InputStore.step. cbn [InputStore.r_ready].
    rewrite Hrs, Hfin. unfold InputStore.full_rose, InputStore.full.
    rewrite Hfull. cbn [andb].
    destruct (InputStore.last_full s); [apply Hlf|]; reflexivity. }
  split.
  { intros Hr0. unfold InputStore.step. cbn [InputStore.r_ready].
    unfold InputStore.full_rose, InputStore.full. rewrite Hr0.
    destruct (InputStore.restart i); [discriminate|].
    destruct (InputStore.r_finished i); [discriminate|].
    destruct (InputStore.r_full s (InputStore.r_curr_buf s));
      [reflexivity | cbn; discriminate]. }
  split.
  { intros Hr1. unfold InputStore.step. cbn [InputStore.r_ready].
    rewrite Hr1.
    destruct (InputStore.restart i); [auto|].
    destruct (InputStore.r_finished i); [auto|].
    destruct (InputStore.full_rose s); discriminate. }
  intros D l HD Hstart Hall.
  destruct (InputStore_write_run max_depth D s l Hdw HD Hstart Hall)
    as (R1 & R2 & R3 & R4).
  repeat (split; [assumption|]).
  intros Hr1. apply Hother.
  apply InputStore_ready_full_run; assumption.
Qed.

(** A store of depth 8, pixels of three words, the sample run from reset:
    five words are accepted; the writer is in buffer 1, the reader is
    offered buffer 0; buffer 0 still holds the last word 33 of the first
    pixel (bank 2, address 0) and buffer 1 holds the word 55 of the second
    (bank 1, address 4).  The write of 66 in the next cycle, at
    [w_addr = 2], completes the second pixel and marks buffer 1 full. *)
Lemma InputStore_double_buffering_witness :
  InputStoreWrite.accepted 8 InputStore.reset InputStoreWrite.sample_run
    = [11; 22; 33; 44; 55] /\
  InputStore.w_curr_buf
    (InputStore.run 8 InputStore.reset InputStoreWrite.sample_run) = true /\
  InputStore.r_curr_buf
    (InputStore.run 8 InputStore.reset InputStoreWrite.sample_run) = false /\
  InputStore.mem
    (InputStore.run 8 InputStore.reset InputStoreWrite.sample_run) 2 0 = 33 /\
  InputStore.mem
    (InputStore.run 8 InputStore.reset InputStoreWrite.sample_run) 1 4 = 55 /\
  InputStore.r_full
    (InputStore.step 8
       (InputStore.run 8 InputStore.reset InputStoreWrite.sample_run)
       (InputStoreWrite.sample_cycle 66 true true)) true = true.
Proof.
  assert (Hdw : 2 <= InputStore.depth_width 8) by (vm_compute; discriminate).
  assert (HD : 1 <= 3 < 2 ^ InputStore.depth_width 8)
    by (vm_compute; split; [discriminate | reflexivity]).
  assert (Hall : Forall (fun c => InputStore.restart c = false /\
                                  InputStore.input_depth c = 3)
                   InputStoreWrite.sample_run)
    by (repeat constructor).
  assert (Hreach : InputStore.reachable 8
            (InputStore.run 8 InputStore.reset InputStoreWrite.sample_run)).
  { unfold InputStore.run, InputStoreWrite.sample_run. cbn [fold_left].
    repeat apply InputStore.reachable_step. apply InputStore.reachable_reset. }
  destruct (InputStore_double_buffering 8 InputStore.reset
              (InputStoreWrite.sample_cycle 0 false false) Hdw
              (InputStore.reachable_reset 8))
    as (_ & _ & _ & _ & _ & _ & _ & _ & _ & _ & _ & _ & _ & _ & Hrun).
  destruct (Hrun 3 InputStoreWrite.sample_run HD eq_refl Hall)
    as (_ & Hbuf & Hcur & Hoth & Hrd).
  destruct (InputStore_double_buffering 8
              (InputStore.run 8 InputStore.reset InputStoreWrite.sample_run)
              (InputStoreWrite.sample_cycle 66 true true) Hdw Hreach)
    as (_ & _ & _ & _ & _ & _ & _ & _ & _ & Hmark & _).
  split; [reflexivity|].
  split; [exact Hbuf|].
  split; [exact (Hrd eq_refl eq_refl)|].
  split.
  { pose proof (Hoth ltac:(vm_compute; discriminate) 2 ltac:(lia)) as H.
    vm_compute in H. vm_compute. exact H. }
  split.
  { pose proof (Hcur 1 ltac:(vm_compute; split; [discriminate|reflexivity]))
      as H.
    vm_compute in H. vm_compute. exact H. }
  exact (Hmark eq_refl eq_refl eq_refl
           (fun H => False_ind _ (diff_false_true H))).
Defined.

(** ** store.py: [InputStore], the input offset in the depthwise read path *)

Lemma nth_map_seq (f : nat -> Z) (d : Z) :
  forall (k a n : nat),
  nth n (map f (seq a k)) d = if (n <? k)%nat then f (a + n)%nat else d.
Proof.
  induction k as [|k IH]; intros a n.
  - destruct n; reflexivity.
  - cbn [seq map]. destruct n as [|n].
    + cbn. f_equal. lia.
    + cbn [nth]. rewrite IH.
      change (S n <? S k)%nat with (n <? k)%nat.
      destruct (n <? k)%nat; [f_equal; lia | reflexivity].
Qed.

Lemma InputStore_lane (s : InputStore.data_state) (i : InputStore.data_inputs)
    (n : nat) :
  nth n (InputStore.r_data (InputStore.data_step s i)) 0 =
  if (n <? 16)%nat then InputStore.next_lane s i n else 0.
Proof.
  unfold InputStore.data_step. cbn [InputStore.r_data].
  rewrite nth_map_seq. reflexivity.
Qed.

Lemma InputStore_data_step_agree
    (s1 s2 : InputStore.data_state) (a b : InputStore.data_inputs) :
  InputStore.agree_but_lane_3 s1 s2 -> InputStore.same_read a b ->
  InputStore.agree_but_lane_3 (InputStore.data_step s1 a) (InputStore.data_step s2 b).
Proof.
  intros (Hno & Htmp & Hlanes) (Hd & Hm & Hlow & Hacc & Ha & Hb).
  assert (Ht : InputStore.tmp s1 a = InputStore.tmp s2 b).
  { unfold InputStore.tmp, InputStore.tmp2. rewrite Ha, Hb, Hno, Hm.
    reflexivity. }
  split; [|split].
  - unfold InputStore.data_step. cbn [InputStore.smr_no_d].
    rewrite Hacc, Hlow. reflexivity.
  - unfold InputStore.data_step. cbn [InputStore.r_data_tmp].
    rewrite Ha, Hb, Ht. reflexivity.
  - intros n Hn. rewrite !InputStore_lane.
    destruct (n <? 16)%nat; [|reflexivity].
    unfold InputStore.next_lane. rewrite Ha, Hb. cbn [negb].
    replace (n =? 3)%nat with false by (symmetry; apply Nat.eqb_neq; exact Hn).
    rewrite Htmp. reflexivity.
Qed.

Lemma InputStore_data_run_agree (l1 l2 : list InputStore.data_inputs) :
  Forall2 InputStore.same_read l1 l2 ->
  forall s1 s2, InputStore.agree_but_lane_3 s1 s2 ->
  InputStore.agree_but_lane_3 (InputStore.data_run s1 l1) (InputStore.data_run s2 l2).
Proof.
  unfold InputStore.data_run.
  induction 1 as [|a b l1 l2 Hab _ IH]; intros s1 s2 Hs; [exact Hs|].
  cbn [fold_left]. apply IH. apply InputStore_data_step_agree; assumption.
Qed.

(** C9.  Two depthwise runs from the same registers, reading the same words
    from the memories in every cycle, with any two sequences of offsets:
    the registers [r_data_tmp] are the same, and so is every lane of
    [r_data] but lane 3; in lane 3 each run holds, after one more cycle, its
    [r_data_tmp[3]] (the same in both) plus four times the offset of that
    cycle, as a 12-bit lane. *)
Theorem InputStore_offset_only_in_lane_3
    (s : InputStore.data_state) (l1 l2 : list InputStore.data_inputs)
    (a b : InputStore.data_inputs) :
  Forall2 InputStore.same_read l1 l2 ->
  InputStore.same_read a b ->
  InputStore.r_data_tmp (InputStore.data_run s l1) =
    InputStore.r_data_tmp (InputStore.data_run s l2) /\
  (forall n : nat, n <> 3%nat ->
     nth n (InputStore.r_data (InputStore.data_run s l1)) 0 =
     nth n (InputStore.r_data (InputStore.data_run s l2)) 0) /\
  (forall n : nat, n <> 3%nat ->
     nth n (InputStore.r_data (InputStore.data_run s (l1 ++ [a]))) 0 =
     nth n (InputStore.r_data (InputStore.data_run s (l2 ++ [b]))) 0) /\
  nth 3 (InputStore.r_data (InputStore.data_run s (l1 ++ [a]))) 0 =
    Amaranth.unsigned 12
      (nth 3 (InputStore.r_data_tmp (InputStore.data_run s l1)) 0
       + 4 * InputStore.d_offset a) /\
  nth 3 (InputStore.r_data (InputStore.data_run s (l2 ++ [b]))) 0 =
    Amaranth.unsigned 12
      (nth 3 (InputStore.r_data_tmp (InputStore.data_run s l1)) 0
       + 4 * InputStore.d_offset b).
Proof.
  intros Hl Hab.
  assert (Hs : InputStore.agree_but_lane_3 s s) by (repeat split).
  destruct (InputStore_data_run_agree l1 l2 Hl s s Hs) as (_ & Htmp & Hlanes).
  assert (Hl' : Forall2 InputStore.same_read (l1 ++ [a]) (l2 ++ [b]))
    by (apply Forall2_app;
        [exact Hl | apply Forall2_cons; [exact Hab | apply Forall2_nil]]).
  destruct (InputStore_data_run_agree _ _ Hl' s s Hs) as (_ & _ & Hlanes').
  destruct Hab as (_ & _ & _ & _ & Ha & Hb).
  assert (H3 : forall (t : InputStore.data_state) (c : InputStore.data_inputs),
             InputStore.d_switch_PorD c = true ->
             nth 3 (InputStore.r_data (InputStore.data_step t c)) 0 =
             Amaranth.unsigned 12
               (nth 3 (InputStore.r_data_tmp t) 0 + 4 * InputStore.d_offset c)).
  { intros t c Hc. rewrite InputStore_lane. cbn [Nat.ltb Nat.leb].
    unfold InputStore.next_lane. rewrite Hc. cbn [negb Nat.eqb].
    rewrite tree_sum_sum. unfold Amaranth.sum. cbn [fold_right].
    rewrite Z.shiftl_mul_pow2 by lia. f_equal. lia. }
  repeat split; try assumption.
  - unfold InputStore.data_run. rewrite fold_left_app. cbn [fold_left].
    apply H3. exact Ha.
  - rewrite Htmp. unfold InputStore.data_run.
    rewrite fold_left_app. cbn [fold_left]. apply H3. exact Hb.
Qed.

(** The gathered bytes 1..16 read twice, once with offset 0 and once with
    offset 128: lane 3 holds 34, respectively 34 + 4 * 128. *)
Lemma InputStore_offset_only_in_lane_3_witness :
  nth 3 (InputStore.r_data
           (InputStore.data_run InputStore.data_reset
              ([InputStore.sample_read 0] ++ [InputStore.sample_read 0]))) 0
  = 34 /\
  nth 3 (InputStore.r_data
           (InputStore.data_run InputStore.data_reset
              ([InputStore.sample_read 128] ++ [InputStore.sample_read 128]))) 0
  = 546.
Proof.
  assert (Hab : InputStore.same_read (InputStore.sample_read 0)
                  (InputStore.sample_read 128)) by (repeat split).
  assert (Hl : Forall2 InputStore.same_read [InputStore.sample_read 0]
                 [InputStore.sample_read 128])
    by (apply Forall2_cons; [exact Hab | apply Forall2_nil]).
  pose proof (InputStore_offset_only_in_lane_3 InputStore.data_reset
                [InputStore.sample_read 0] [InputStore.sample_read 128]
                (InputStore.sample_read 0) (InputStore.sample_read 128) Hl Hab)
    as (_ & _ & _ & H1 & H2).
  split; [exact H1 | exact H2].
Defined.

(* ===================================================================== *)
(** * Part III: the rest of the gateware

    The remaining classes of mul.py, store.py and sequencing.py, the wiring
    of mnv2_cfu.py, and how the stages compose over several cycles. *)
(* ===================================================================== *)

(** ** Signals made of equal words *)

Lemma slice_div_mod (x lo hi : Z) :
  0 <= lo <= hi ->
  Amaranth.slice x lo hi = (x / 2 ^ lo) mod 2 ^ (hi - lo).
Proof.
  intros H. unfold Amaranth.slice.
  rewrite Z.land_ones by lia. rewrite Z.shiftr_div_pow2 by lia. reflexivity.
Qed.

Lemma lor_shiftl_add (w a b : Z) :
  0 <= w -> 0 <= a < 2 ^ w -> Z.lor a (Z.shiftl b w) = a + b * 2 ^ w.
Proof.
  intros Hw Ha.
  rewrite <- (Z.shiftl_mul_pow2 b w) by lia.
  rewrite <- Z.add_lor_land.
  assert (H0 : Z.land a (Z.shiftl b w) = 0).
  { apply Z.bits_inj'. intros n Hn. rewrite Z.land_spec, Z.bits_0.
    destruct (Z.ltb_spec n w) as [Hlt|Hge].
    - rewrite Z.shiftl_spec_low by lia. apply andb_false_r.
    - destruct (Z.eqb_spec a 0) as [->|Hnz];
        [rewrite Z.bits_0; reflexivity|].
      rewrite (Z.bits_above_log2 a n); [reflexivity|lia|].
      apply Z.log2_lt_pow2; [lia|].
      apply Z.lt_le_trans with (2 ^ w); [lia|].
      apply Z.pow_le_mono_r; lia. }
  rewrite H0. lia.
Qed.

Lemma cat_cons (w x : Z) (l : list Z) :
  0 <= w ->
  Words.cat w (x :: l) = x mod 2 ^ w + Words.cat w l * 2 ^ w.
Proof.
  intros Hw. unfold Words.cat. cbn [fold_right].
  apply lor_shiftl_add; [exact Hw|].
  unfold Amaranth.unsigned. apply Z.mod_pos_bound.
  apply Z.pow_pos_nonneg; lia.
Qed.

(** Word [n] of a concatenation is element [n] of the list, truncated. *)
Lemma word_cat (w : Z) (l : list Z) :
  0 < w -> forall n : nat, (n < length l)%nat ->
  Words.word w (Words.cat w l) (Z.of_nat n) = Amaranth.unsigned w (nth n l 0).
Proof.
  intros Hw. assert (Hp : 0 < 2 ^ w) by (apply Z.pow_pos_nonneg; lia).
  induction l as [|x l IH]; intros n Hn; [cbn in Hn; lia|].
  unfold Words.word. rewrite slice_div_mod by nia.
  replace ((Z.of_nat n + 1) * w - Z.of_nat n * w) with w by lia.
  rewrite cat_cons by lia.
  destruct n as [|n].
  - cbn [nth Z.of_nat Z.mul]. rewrite Z.pow_0_r, Z.div_1_r.
    rewrite Z.mod_add by lia. rewrite Z.mod_mod by lia. reflexivity.
  - replace (Z.of_nat (S n) * w) with (w + Z.of_nat n * w) by lia.
    rewrite Z.pow_add_r by nia.
    rewrite <- Z.div_div by (try lia; apply Z.pow_pos_nonneg; nia).
    rewrite Z.div_add by lia.
    rewrite (Z.div_small (x mod 2 ^ w)) by (apply Z.mod_pos_bound; lia).
    cbn [nth Z.add]. cbn in Hn. specialize (IH n ltac:(lia)).
    unfold Words.word in IH. rewrite slice_div_mod in IH by nia.
    replace ((Z.of_nat n + 1) * w - Z.of_nat n * w) with w in IH by lia.
    exact IH.
Qed.

Lemma signed_unsigned (w x : Z) :
  0 < w -> Amaranth.signed w (Amaranth.unsigned w x) = Amaranth.signed w x.
Proof.
  intros Hw. unfold Amaranth.signed, Amaranth.unsigned.
  rewrite Z.add_mod_idemp_l by (apply Z.pow_nonzero; lia). reflexivity.
Qed.

(** ** test_mnv2_cfu.py: [pack_vals] *)

Lemma pack_from_cat (bits offset : Z) (values : list Z) :
  0 <= bits -> forall i result : Z, 0 <= i ->
  TestHelpers.pack_from i values offset bits result =
  result + Words.cat bits (map (fun v => v + offset) values) * 2 ^ (i * bits).
Proof.
  intros Hb. induction values as [|v rest IH]; intros i result Hi.
  - cbn. lia.
  - cbn [TestHelpers.pack_from map]. rewrite IH by lia.
    rewrite cat_cons by lia.
    replace (Z.shiftl 1 bits - 1) with (Z.ones bits)
      by (unfold Z.ones; lia).
    rewrite Z.land_ones by lia. rewrite Z.shiftl_mul_pow2 by nia.
    replace ((i + 1) * bits) with (bits + i * bits) by lia.
    rewrite Z.pow_add_r by nia. ring.
Qed.

Lemma pack_vals_cat (bits offset : Z) (values : list Z) :
  0 <= bits ->
  TestHelpers.pack_vals values offset bits =
  Words.cat bits (map (fun v => v + offset) values).
Proof.
  intros Hb. unfold TestHelpers.pack_vals.
  rewrite pack_from_cat by lia. cbn. lia.
Qed.

(** X1.  [pack_vals] is undone by slicing: word [k] of the packed value is
    value [k] plus the offset, truncated to [bits] bits; read as a signed
    number it is the value plus the offset exactly, whenever that fits. *)
Theorem pack_vals_round_trip
    (values : list Z) (offset bits : Z) (k : nat) :
  0 < bits -> (k < length values)%nat ->
  Words.word bits (TestHelpers.pack_vals values offset bits) (Z.of_nat k) =
    Amaranth.unsigned bits (nth k values 0 + offset) /\
  (Amaranth.fits_signed bits (nth k values 0 + offset) ->
   Amaranth.signed bits
     (Words.word bits (TestHelpers.pack_vals values offset bits) (Z.of_nat k)) =
   nth k values 0 + offset).
Proof.
  intros Hb Hk.
  assert (Hw : Words.word bits (TestHelpers.pack_vals values offset bits)
                 (Z.of_nat k) =
               Amaranth.unsigned bits (nth k values 0 + offset)).
  { rewrite pack_vals_cat by lia.
    rewrite word_cat by (rewrite ?length_map; lia).
    rewrite (nth_indep _ 0 (0 + offset)) by (rewrite length_map; lia).
    rewrite (map_nth (fun v => v + offset)). reflexivity. }
  split; [exact Hw|].
  intros Hfit. rewrite Hw, signed_unsigned by lia.
  apply signed_fits; [lia | exact Hfit].
Qed.

(** The third byte of [pack_vals(-99, 92, -37, 2)] reads back as -37. *)
Lemma pack_vals_round_trip_witness :
  Amaranth.signed 8
    (Words.word 8 (TestHelpers.pack_vals [-99; 92; -37; 2] 0 8) 2) = -37.
Proof.
  refine (proj2 (pack_vals_round_trip [-99; 92; -37; 2] 0 8 2 _ _) _).
  - lia.
  - cbn. lia.
  - unfold Amaranth.fits_signed. cbn. lia.
Defined.

(** ** mul.py: [ByteToWordShifter] *)

Lemma ByteToWordShifter_run_app (s : ByteToWordShifter.state)
    (l1 l2 : list ByteToWordShifter.inputs) :
  ByteToWordShifter.run s (l1 ++ l2) =
  ByteToWordShifter.run (ByteToWordShifter.run s l1) l2.
Proof. apply fold_left_app. Qed.

(** Cycles that do not shift leave the register alone. *)
Lemma ByteToWordShifter_run_filter (l : list ByteToWordShifter.inputs) :
  forall s : ByteToWordShifter.state,
  ByteToWordShifter.run s l =
  ByteToWordShifter.run s (filter ByteToWordShifter.shift_en l).
Proof.
  induction l as [|i l IH]; intros s; [reflexivity|].
  cbn [filter]. destruct (ByteToWordShifter.shift_en i) eqn:E.
  - cbn [ByteToWordShifter.run fold_left]. apply IH.
  - cbn [ByteToWordShifter.run fold_left].
    replace (ByteToWordShifter.step s i) with s; [apply IH|].
    unfold ByteToWordShifter.step. rewrite E. destruct s; reflexivity.
Qed.

Lemma ByteToWordShifter_calc (s : ByteToWordShifter.state)
    (i : ByteToWordShifter.inputs) :
  ByteToWordShifter.calc s i =
  (ByteToWordShifter.register s / 256) mod 16777216 +
  (ByteToWordShifter.in_value i mod 256) * 16777216.
Proof.
  unfold ByteToWordShifter.calc, Amaranth.Cat.
  rewrite slice_div_mod by lia.
  change (2 ^ 8) with 256. change (2 ^ (32 - 8)) with 16777216.
  unfold Amaranth.unsigned at 2. change (2 ^ 24) with 16777216.
  rewrite Z.mod_mod by lia.
  unfold Amaranth.unsigned at 2. change (2 ^ 8) with 256.
  rewrite lor_shiftl_add; [|lia|change (2 ^ 24) with 16777216;
                                 apply Z.mod_pos_bound; lia].
  change (2 ^ 24) with 16777216.
  apply unsigned_fits. unfold Amaranth.fits_unsigned.
  change (2 ^ 32) with 4294967296.
  pose proof (Z.mod_pos_bound (ByteToWordShifter.register s / 256) 16777216
                ltac:(lia)).
  pose proof (Z.mod_pos_bound (ByteToWordShifter.in_value i) 256 ltac:(lia)).
  lia.
Qed.

(** X2.  Whatever the register held, once four bytes have been shifted in
    (idle cycles in between do not matter) the word is the little-endian
    packing of the last four of them, the first of the four in the low
    byte: the value the tests build with [pack_vals].  [result] shows this
    word already in the cycle that shifts the fourth byte in, which is the
    cycle the CFU writes it to the output queue, and in every idle cycle
    after it. *)
Theorem ByteToWordShifter_packs_last_four_bytes
    (s : ByteToWordShifter.state) (l : list ByteToWordShifter.inputs)
    (earlier : list Z) (b0 b1 b2 b3 : Z) :
  ByteToWordShifter.shifted l = earlier ++ [b0; b1; b2; b3] ->
  ByteToWordShifter.register (ByteToWordShifter.run s l) =
    TestHelpers.pack_vals [b0; b1; b2; b3] 0 8 /\
  (forall i : ByteToWordShifter.inputs,
     ByteToWordShifter.shift_en i = false ->
     ByteToWordShifter.result (ByteToWordShifter.run s l) i =
     TestHelpers.pack_vals [b0; b1; b2; b3] 0 8) /\
  (forall (before : list ByteToWordShifter.inputs)
          (i : ByteToWordShifter.inputs),
     l = before ++ [i] -> ByteToWordShifter.shift_en i = true ->
     ByteToWordShifter.result (ByteToWordShifter.run s before) i =
     TestHelpers.pack_vals [b0; b1; b2; b3] 0 8).
Proof.
  intros Hsh.
  assert (Hreg : ByteToWordShifter.register (ByteToWordShifter.run s l) =
                 TestHelpers.pack_vals [b0; b1; b2; b3] 0 8).
  { rewrite ByteToWordShifter_run_filter.
    unfold ByteToWordShifter.shifted in Hsh.
    apply map_eq_app in Hsh. destruct Hsh as (f1 & f2 & Hf & _ & H2).
    rewrite Hf, ByteToWordShifter_run_app.
    assert (Hall : Forall (fun i => ByteToWordShifter.shift_en i = true) f2).
    { assert (Hin : Forall (fun i => ByteToWordShifter.shift_en i = true)
                      (filter ByteToWordShifter.shift_en l)).
      { apply Forall_forall. intros x Hx. apply filter_In in Hx. tauto. }
      rewrite Hf in Hin. apply Forall_app in Hin. tauto. }
    destruct f2 as [|i0 [|i1 [|i2 [|i3 [|? ?]]]]]; try discriminate H2.
    injection H2 as H0 H1 H2 H3. subst b0 b1 b2 b3.
    inversion Hall as [|? ? E0 Hall1]; subst.
    inversion Hall1 as [|? ? E1 Hall2]; subst.
    inversion Hall2 as [|? ? E2 Hall3]; subst.
    inversion Hall3 as [|? ? E3 _]; subst.
    set (s1 := ByteToWordShifter.run s f1).
    cbn [ByteToWordShifter.run fold_left].
    unfold ByteToWordShifter.step. rewrite E0, E1, E2, E3.
    cbn [ByteToWordShifter.register].
    repeat (rewrite !ByteToWordShifter_calc;
            cbn [ByteToWordShifter.register]).
    rewrite pack_vals_cat by lia. cbn [map].
    rewrite !cat_cons by lia. change (Words.cat 8 []) with 0.
    rewrite !Z.add_0_r. change (2 ^ 8) with 256.
    generalize (ByteToWordShifter.register s1).
    generalize (ByteToWordShifter.in_value i0).
    generalize (ByteToWordShifter.in_value i1).
    generalize (ByteToWordShifter.in_value i2).
    generalize (ByteToWordShifter.in_value i3).
    intros a3 a2 a1 a0 r.
    Z.to_euclidean_division_equations. lia. }
  split; [exact Hreg|]. split.
  - intros i Hi. unfold ByteToWordShifter.result. rewrite Hi. exact Hreg.
  - intros before i Hl Hi. rewrite <- Hreg, Hl, ByteToWordShifter_run_app.
    cbn [ByteToWordShifter.run fold_left].
    unfold ByteToWordShifter.result, ByteToWordShifter.step. rewrite Hi.
    reflexivity.
Qed.

(** The test sequence 0x11, 0x22, 0x33, 0x99 leaves 0x99332211. *)
Lemma ByteToWordShifter_packs_last_four_bytes_witness :
  ByteToWordShifter.register
    (ByteToWordShifter.run ByteToWordShifter.reset
       ByteToWordShifter.sample_cycles) = 0x99332211.
Proof.
  exact (proj1 (ByteToWordShifter_packs_last_four_bytes
                  ByteToWordShifter.reset ByteToWordShifter.sample_cycles
                  [] 0x11 0x22 0x33 0x99 eq_refl)).
Defined.

(** ** mul.py: [Mul8Pipeline] *)

Lemma signed_12_bounds (x : Z) : - 2048 <= Amaranth.signed 12 x <= 2047.
Proof.
  pose proof (signed_range 12 x ltac:(lia)) as H.
  unfold Amaranth.fits_signed in H. change (2 ^ (12 - 1)) with 2048 in H. lia.
Qed.

Lemma signed_8_bounds (x : Z) : - 128 <= Amaranth.signed 8 x <= 127.
Proof.
  pose proof (signed_range 8 x ltac:(lia)) as H.
  unfold Amaranth.fits_signed in H. change (2 ^ (8 - 1)) with 128 in H. lia.
Qed.

Lemma product_fits_24 (a b : Z) :
  - 2048 <= a <= 2047 -> - 2048 <= b <= 2047 ->
  Amaranth.fits_signed 24 (a * b).
Proof.
  intros Ha Hb. unfold Amaranth.fits_signed.
  change (2 ^ (24 - 1)) with 8388608. nia.
Qed.

(** Lane [n] of the products, one clock edge after the data was presented. *)
Lemma Mul8Pipeline_product (s : Mul8Pipeline.state) (i : Mul8Pipeline.inputs)
    (n : nat) :
  (n < 16)%nat ->
  nth n (Mul8Pipeline.products (Mul8Pipeline.step s i)) 0 =
  Amaranth.signed 12 (Words.word 12 (Mul8Pipeline.i_data i) (Z.of_nat n)) *
  Amaranth.signed 12 (Words.word 12 (Mul8Pipeline.f_data i) (Z.of_nat n)).
Proof.
  intros Hn. unfold Mul8Pipeline.products, Mul8Pipeline.step.
  cbn [Mul8Pipeline.i_tmp Mul8Pipeline.f_tmp].
  apply Nat.ltb_lt in Hn. rewrite !nth_map_seq. cbn [Nat.add]. rewrite !Hn.
  apply signed_fits; [lia|].
  apply product_fits_24; apply signed_12_bounds.
Qed.

Lemma Forall_map_seq (P : Z -> Prop) (f : nat -> Z) (k : nat) :
  (forall n, (n < k)%nat -> P (f n)) -> Forall P (map f (seq 0 k)).
Proof.
  intros H. apply Forall_forall. intros x Hx.
  apply in_map_iff in Hx. destruct Hx as (n & <- & Hin).
  apply in_seq in Hin. apply H. lia.
Qed.

Lemma Mul8Pipeline_products_fit (s : Mul8Pipeline.state)
    (i : Mul8Pipeline.inputs) :
  (length (Mul8Pipeline.products (Mul8Pipeline.step s i)) = 16)%nat /\
  Forall (Amaranth.fits_signed 24)
         (Mul8Pipeline.products (Mul8Pipeline.step s i)).
Proof.
  split; [reflexivity|].
  unfold Mul8Pipeline.products. apply Forall_map_seq. intros n Hn.
  unfold Mul8Pipeline.step. cbn [Mul8Pipeline.i_tmp Mul8Pipeline.f_tmp].
  rewrite !nth_map_seq. cbn [Nat.add]. apply Nat.ltb_lt in Hn. rewrite !Hn.
  apply signed_range. lia.
Qed.

(** X3.  One clock edge after two data words are presented, product [n] is
    the exact product of their [n]-th 12-bit lanes read as signed numbers:
    the [signed(24)] wire never wraps.  So whatever the multiplier is fed,
    the accumulator wired to it receives sixteen values in range. *)
Theorem Mul8Pipeline_products_are_exact
    (s : Datapath.state) (i j : Datapath.inputs) :
  Mul8Pipeline.products (Datapath.mul (Datapath.step s i)) =
    map (fun n =>
           Amaranth.signed 12
             (Words.word 12 (Mul8Pipeline.i_data (Datapath.mul_in s))
                         (Z.of_nat n)) *
           Amaranth.signed 12
             (Words.word 12 (Mul8Pipeline.f_data (Datapath.mul_in s))
                         (Z.of_nat n)))
        (seq 0 16) /\
  AccOrTrans.wf_inputs (Datapath.acc_in (Datapath.step s i) j).
Proof.
  split.
  - cbn [Datapath.step Datapath.mul].
    apply nth_ext with (d := 0) (d' := 0); [reflexivity|].
    intros n Hn. change (n < 16)%nat in Hn.
    rewrite Mul8Pipeline_product by exact Hn.
    rewrite nth_map_seq. apply Nat.ltb_lt in Hn. rewrite Hn. reflexivity.
  - unfold AccOrTrans.wf_inputs, Datapath.acc_in.
    cbn [AccOrTrans.in_values Datapath.step Datapath.mul].
    apply Mul8Pipeline_products_fit.
Qed.

(** ** store.py: the read stage of [InputStore], lane by lane *)

Lemma InputStore_byte_bounds (t k : Z) : - 128 <= InputStore.byte t k <= 127.
Proof. apply signed_8_bounds. Qed.

Ltac byte_bounds f t :=
  pose proof (f t 0); pose proof (f t 1); pose proof (f t 2);
  pose proof (f t 3); pose proof (f t 4); pose proof (f t 5);
  pose proof (f t 6); pose proof (f t 7); pose proof (f t 8);
  pose proof (f t 9); pose proof (f t 10); pose proof (f t 11);
  pose proof (f t 12); pose proof (f t 13); pose proof (f t 14);
  pose proof (f t 15).

Lemma fits_signed_12 (x : Z) :
  - 2048 <= x <= 2047 -> Amaranth.signed 12 x = x.
Proof.
  intros H. apply signed_fits; [lia|].
  unfold Amaranth.fits_signed. change (2 ^ (12 - 1)) with 2048. lia.
Qed.

(** Each of the sixteen combinations of four input bytes stays within
    ten bits. *)
Lemma InputStore_operand_sum_bounds (t : Z) (n : nat) :
  - 512 <= Amaranth.sum (InputStore.r_data_tmp_operands t n) <= 512.
Proof.
  byte_bounds InputStore_byte_bounds t.
  do 15 (destruct n as [|n];
         [cbn [InputStore.r_data_tmp_operands]; unfold Amaranth.sum;
          cbn [fold_right]; lia|]).
  cbn [InputStore.r_data_tmp_operands]; unfold Amaranth.sum;
    cbn [fold_right]; lia.
Qed.

(** The first depthwise stage: [r_data_tmp[n]] holds the combination of
    input bytes exactly. *)
Lemma InputStore_r_data_tmp_lane
    (s : InputStore.data_state) (i : InputStore.data_inputs) (n : nat) :
  InputStore.d_switch_PorD i = true -> (n < 16)%nat ->
  nth n (InputStore.r_data_tmp (InputStore.data_step s i)) 0 =
  Amaranth.sum (InputStore.r_data_tmp_operands (InputStore.tmp s i) n).
Proof.
  intros Hm Hn. unfold InputStore.data_step. rewrite Hm.
  cbn [negb InputStore.r_data_tmp]. rewrite nth_map_seq.
  apply Nat.ltb_lt in Hn. rewrite Hn. cbn [Nat.add].
  rewrite tree_sum_sum. apply fits_signed_12.
  pose proof (InputStore_operand_sum_bounds (InputStore.tmp s i) n). lia.
Qed.

(** The second depthwise stage: lane [n] of [r_data], read as a signed
    number, is that combination, and lane 3 has four times the offset
    added. *)
Lemma InputStore_depthwise_lane
    (s : InputStore.data_state) (i0 i1 : InputStore.data_inputs) (n : nat) :
  InputStore.d_switch_PorD i0 = true ->
  InputStore.d_switch_PorD i1 = true ->
  Amaranth.fits_signed 9 (InputStore.d_offset i1) ->
  (n < 16)%nat ->
  Amaranth.signed 12
    (nth n (InputStore.r_data
              (InputStore.data_step (InputStore.data_step s i0) i1)) 0) =
  Amaranth.sum (InputStore.r_data_tmp_operands (InputStore.tmp s i0) n) +
  (if (n =? 3)%nat then 4 * InputStore.d_offset i1 else 0).
Proof.
  intros H0 H1 Hoff Hn.
  unfold Amaranth.fits_signed in Hoff. change (2 ^ (9 - 1)) with 256 in Hoff.
  rewrite InputStore_lane.
  pose proof Hn as Hn'. apply Nat.ltb_lt in Hn'. rewrite Hn'.
  unfold InputStore.next_lane. rewrite H1. cbn [negb].
  pose proof (InputStore_operand_sum_bounds (InputStore.tmp s i0) n) as Hb.
  destruct (n =? 3)%nat eqn:E3.
  - apply Nat.eqb_eq in E3. subst n.
    rewrite signed_unsigned by lia. rewrite tree_sum_sum.
    rewrite InputStore_r_data_tmp_lane by assumption.
    unfold Amaranth.sum at 1. cbn [fold_right].
    rewrite Z.shiftl_mul_pow2 by lia. change (2 ^ 2) with 4.
    rewrite fits_signed_12 by lia. lia.
  - rewrite signed_unsigned by lia.
    rewrite InputStore_r_data_tmp_lane by assumption.
    rewrite fits_signed_12 by lia. lia.
Qed.

(** Pointwise, lane [n] of the first eight holds input byte [n] plus the
    offset. *)
Lemma InputStore_pointwise_lane
    (s : InputStore.data_state) (i : InputStore.data_inputs) (n : nat) :
  InputStore.d_switch_PorD i = false ->
  Amaranth.fits_signed 9 (InputStore.d_offset i) ->
  (n < 8)%nat ->
  Amaranth.signed 12 (nth n (InputStore.r_data (InputStore.data_step s i)) 0) =
  InputStore.byte (InputStore.tmp s i) (Z.of_nat n) + InputStore.d_offset i.
Proof.
  intros Hm Hoff Hn.
  unfold Amaranth.fits_signed in Hoff. change (2 ^ (9 - 1)) with 256 in Hoff.
  rewrite InputStore_lane.
  assert (Hn16 : (n <? 16)%nat = true) by (apply Nat.ltb_lt; lia).
  rewrite Hn16. unfold InputStore.next_lane. rewrite Hm. cbn [negb].
  apply Nat.ltb_lt in Hn. rewrite Hn.
  rewrite signed_unsigned by lia.
  pose proof (InputStore_byte_bounds (InputStore.tmp s i) (Z.of_nat n)).
  apply fits_signed_12. lia.
Qed.

(** ** store.py: the data path of [FilterValueFetcher], lane by lane *)

Lemma FilterValueFetcherData_byte_bounds (t k : Z) :
  - 128 <= FilterValueFetcherData.byte t k <= 127.
Proof. apply signed_8_bounds. Qed.

Ltac shifts :=
  rewrite ?Z.shiftl_mul_pow2 by lia; change (2 ^ 2) with 4;
  change (2 ^ 1) with 2.

(** The first depthwise stage holds its partial sums exactly. *)
Lemma FilterValueFetcherData_data_tmp_lane
    (s : FilterValueFetcherData.state) (i : FilterValueFetcherData.inputs)
    (n : nat) :
  FilterValueFetcherData.switch_PorD i = true -> (n < 16)%nat ->
  nth n (FilterValueFetcherData.data_tmp (FilterValueFetcherData.step s i)) 0 =
  FilterValueFetcherData.data_tmp_in (FilterValueFetcherData.tmp i) n.
Proof.
  intros Hm Hn. unfold FilterValueFetcherData.step. rewrite Hm.
  cbn [negb FilterValueFetcherData.data_tmp]. rewrite nth_map_seq.
  apply Nat.ltb_lt in Hn. rewrite Hn. cbn [Nat.add].
  apply fits_signed_12.
  byte_bounds FilterValueFetcherData_byte_bounds (FilterValueFetcherData.tmp i).
  do 15 (destruct n as [|n];
         [cbn [FilterValueFetcherData.data_tmp_in]; rewrite ?tree_sum_sum;
          unfold Amaranth.sum; cbn [fold_right]; shifts; lia|]).
  cbn [FilterValueFetcherData.data_tmp_in]; shifts; lia.
Qed.

(** The two depthwise stages together compute what the one-stage version
    of the branch computes, and no lane overflows its twelve bits. *)
Lemma FilterValueFetcherData_depthwise_lane
    (s : FilterValueFetcherData.state)
    (i0 i1 : FilterValueFetcherData.inputs) (n : nat) :
  FilterValueFetcherData.switch_PorD i0 = true ->
  FilterValueFetcherData.switch_PorD i1 = true ->
  (n < 16)%nat ->
  Amaranth.signed 12
    (nth n (FilterValueFetcherData.data
              (FilterValueFetcherData.step
                 (FilterValueFetcherData.step s i0) i1)) 0) =
  FilterValueFetcherData.one_stage_lane (FilterValueFetcherData.tmp i0) n.
Proof.
  intros H0 H1 Hn.
  unfold FilterValueFetcherData.step at 1.
  cbn [FilterValueFetcherData.data]. rewrite nth_map_seq.
  pose proof Hn as Hn'. apply Nat.ltb_lt in Hn'. rewrite Hn'. cbn [Nat.add].
  unfold FilterValueFetcherData.next_lane. rewrite H1. cbn [negb].
  rewrite signed_unsigned by lia.
  set (t := FilterValueFetcherData.tmp i0).
  assert (Hl : FilterValueFetcherData.late_tmp
                 (FilterValueFetcherData.step s i0) =
               [ FilterValueFetcherData.byte t 7;
                 FilterValueFetcherData.byte t 2;
                 FilterValueFetcherData.byte t 5;
                 FilterValueFetcherData.byte t 8 ]).
  { unfold FilterValueFetcherData.step. rewrite H0. reflexivity. }
  byte_bounds FilterValueFetcherData_byte_bounds t.
  assert (Hd : forall k, (k < 16)%nat ->
            nth k (FilterValueFetcherData.data_tmp
                     (FilterValueFetcherData.step s i0)) 0 =
            FilterValueFetcherData.data_tmp_in t k)
    by (intros k Hk; apply FilterValueFetcherData_data_tmp_lane; assumption).
  do 15 (destruct n as [|n];
         [cbn [FilterValueFetcherData.data_in
               FilterValueFetcherData.one_stage_lane];
          rewrite ?Hl; cbn [nth]; rewrite ?Hd by lia;
          cbn [FilterValueFetcherData.data_tmp_in];
          rewrite ?tree_sum_sum; unfold Amaranth.sum; cbn [fold_right];
          shifts; rewrite fits_signed_12 by lia; lia|]).
  cbn [FilterValueFetcherData.data_in FilterValueFetcherData.one_stage_lane].
  rewrite Hd by lia. cbn [FilterValueFetcherData.data_tmp_in].
  shifts. rewrite fits_signed_12 by lia. lia.
Qed.

(** Pointwise, lane [n] of the first eight holds filter byte [n]. *)
Lemma FilterValueFetcherData_pointwise_lane
    (s : FilterValueFetcherData.state) (i : FilterValueFetcherData.inputs)
    (n : nat) :
  FilterValueFetcherData.switch_PorD i = false -> (n < 8)%nat ->
  Amaranth.signed 12
    (nth n (FilterValueFetcherData.data (FilterValueFetcherData.step s i)) 0) =
  FilterValueFetcherData.byte (FilterValueFetcherData.tmp i) (Z.of_nat n).
Proof.
  intros Hm Hn. unfold FilterValueFetcherData.step.
  cbn [FilterValueFetcherData.data]. rewrite nth_map_seq.
  assert (Hn16 : (n <? 16)%nat = true) by (apply Nat.ltb_lt; lia).
  rewrite Hn16. cbn [Nat.add].
  unfold FilterValueFetcherData.next_lane. rewrite Hm. cbn [negb].
  apply Nat.ltb_lt in Hn. rewrite Hn.
  rewrite signed_unsigned by lia.
  pose proof (FilterValueFetcherData_byte_bounds
                (FilterValueFetcherData.tmp i) (Z.of_nat n)).
  apply fits_signed_12. lia.
Qed.

(** ** mnv2_cfu.py: the calculation path *)

(** The multiplier reads back the lanes the two stores registered. *)
Lemma Datapath_product (s : Datapath.state) (i : Datapath.inputs) (n : nat) :
  (n < 16)%nat ->
  length (InputStore.r_data (Datapath.ins s)) = 16%nat ->
  length (FilterValueFetcherData.data (Datapath.fvf s)) = 16%nat ->
  nth n (Mul8Pipeline.products (Datapath.mul (Datapath.step s i))) 0 =
  Amaranth.signed 12 (nth n (InputStore.r_data (Datapath.ins s)) 0) *
  Amaranth.signed 12 (nth n (FilterValueFetcherData.data (Datapath.fvf s)) 0).
Proof.
  intros Hn Hi Hf. cbn [Datapath.step Datapath.mul].
  rewrite Mul8Pipeline_product by exact Hn.
  unfold Datapath.mul_in. cbn [Mul8Pipeline.i_data Mul8Pipeline.f_data].
  rewrite !word_cat by lia. rewrite !signed_unsigned by lia. reflexivity.
Qed.

Lemma Datapath_acc_in_wf (s : Datapath.state) (i j : Datapath.inputs) :
  AccOrTrans.wf_inputs (Datapath.acc_in (Datapath.step s i) j).
Proof.
  unfold AccOrTrans.wf_inputs, Datapath.acc_in.
  cbn [AccOrTrans.in_values Datapath.step Datapath.mul].
  apply Mul8Pipeline_products_fit.
Qed.

Lemma sum_to_map (n : nat) (f : Z -> Z) :
  Winograd.sum_to n f = Amaranth.sum (map (fun k => f (Z.of_nat k)) (seq 0 n)).
Proof. unfold Winograd.sum_to. rewrite map_map. reflexivity. Qed.

(** X4.  Pointwise, end to end: when the stores present eight input bytes
    and eight filter bytes in one cycle, three clock edges later the partial
    sum register holds the dot product of the inputs, each raised by the
    input offset, with the filter bytes, exactly; and an add-enable in that
    cycle (the sequencer's [mul_done], three cycles after its gate) shows
    the accumulator plus this dot product on [result[0]]. *)
Theorem Datapath_pointwise_dot_product
    (s : Datapath.state) (i0 i1 i2 i3 : Datapath.inputs) :
  Datapath.switch_PorD i0 = false ->
  Datapath.switch_PorD i2 = false ->
  Datapath.switch_PorD i3 = false ->
  Datapath.mul_done i3 = true ->
  Amaranth.fits_signed 9 (Datapath.input_offset i0) ->
  AccOrTrans.add_sum (Datapath.acc (Datapath.run s [i0; i1; i2])) =
    Winograd.sum_to 8
      (fun n => (Datapath.input_byte s i0 n + Datapath.input_offset i0) *
                Datapath.filter_byte i0 n) /\
  nth 0 (Datapath.result (Datapath.run s [i0; i1; i2]) i3) 0 =
    Amaranth.signed 32
      (AccOrTrans.accumulator (Datapath.acc (Datapath.run s [i0; i1; i2])) +
       Winograd.sum_to 8
         (fun n => (Datapath.input_byte s i0 n + Datapath.input_offset i0) *
                   Datapath.filter_byte i0 n)).
Proof.
  intros H0 H2 H3 Hen Hoff.
  assert (Hsum :
    AccOrTrans.add_sum (Datapath.acc (Datapath.run s [i0; i1; i2])) =
    Winograd.sum_to 8
      (fun n => (Datapath.input_byte s i0 n + Datapath.input_offset i0) *
                Datapath.filter_byte i0 n)).
  { cbn [Datapath.run fold_left].
    set (s1 := Datapath.step s i0). set (s2 := Datapath.step s1 i1).
    unfold Datapath.step at 1. cbn [Datapath.acc].
    rewrite AccOrTrans_add_sum;
      [|apply Datapath_acc_in_wf | exact H2].
    rewrite <- (map_nth_seq _ 0) by (cbn; lia).
    rewrite sum_to_map. f_equal. apply map_ext_in. intros n Hin.
    apply in_seq in Hin.
    unfold Datapath.acc_in. cbn [AccOrTrans.in_values]. unfold s2.
    rewrite Datapath_product by (reflexivity || lia).
    unfold s1. cbn [Datapath.step Datapath.ins Datapath.fvf].
    rewrite InputStore_pointwise_lane by (assumption || lia).
    rewrite FilterValueFetcherData_pointwise_lane by (assumption || lia).
    reflexivity. }
  split; [exact Hsum|].
  unfold Datapath.result, AccOrTrans.result, Datapath.acc_in.
  cbn [AccOrTrans.switch_PorD AccOrTrans.add_en]. rewrite H3, Hen.
  cbn [negb nth]. unfold AccOrTrans.acc_plus_sum. rewrite Hsum. reflexivity.
Qed.

(** Input bytes 1..8 against filter bytes 1..8 with offset 128: the dot
    product is 128 * 36 + 204. *)
Lemma Datapath_pointwise_dot_product_witness :
  AccOrTrans.add_sum
    (Datapath.acc
       (Datapath.run Datapath.reset
          [ Datapath.sample_pointwise 128 false;
            Datapath.sample_pointwise 128 false;
            Datapath.sample_pointwise 128 false ])) = 4812.
Proof.
  assert (Hoff : Amaranth.fits_signed 9
                   (Datapath.input_offset (Datapath.sample_pointwise 128 false)))
    by (unfold Amaranth.fits_signed; cbn; lia).
  rewrite (proj1 (Datapath_pointwise_dot_product Datapath.reset
                    (Datapath.sample_pointwise 128 false)
                    (Datapath.sample_pointwise 128 false)
                    (Datapath.sample_pointwise 128 false)
                    (Datapath.sample_pointwise 128 true)
                    eq_refl eq_refl eq_refl eq_refl Hoff)).
  vm_compute. reflexivity.
Defined.

Section DepthwiseOutputs.

Variables (s : AccOrTrans.state) (i1 i2 i3 : AccOrTrans.inputs).

Local Abbreviation p := (AccOrTrans.iv i1).

(** The four depthwise outputs, two clock edges after the products [p]. *)
Lemma AccOrTrans_depthwise_result :
  AccOrTrans.wf_inputs i1 ->
  AccOrTrans.switch_PorD i1 = true ->
  AccOrTrans.switch_PorD i2 = true ->
  AccOrTrans.switch_PorD i3 = true ->
  AccOrTrans.result (AccOrTrans.step (AccOrTrans.step s i1) i2) i3 =
    [ Z.shiftr (p 0 + p 2 + p 8 + p 1 + p 3 + p 9 + p 4 + p 6 + p 12) 2;
      Z.shiftr (p 1 + p 3 + p 9 - p 4 - p 6 - p 12 - p 5 - p 7 - p 13) 2;
      Z.shiftr (p 2 - p 8 - p 10 + p 3 - p 9 - p 11 + p 6 - p 12 - p 14) 2;
      Z.shiftr (p 3 - p 9 - p 11 - p 6 + p 12 + p 14 - p 7 + p 13 + p 15) 2 ].
Proof.
  intros Hwf H1 H2 H3.
  assert (B : forall n, (n < 16)%nat -> - 8388608 <= p n <= 8388607)
    by (intros n Hn; apply iv_fits; assumption).
  pose proof (B 0%nat ltac:(lia)). pose proof (B 1%nat ltac:(lia)).
  pose proof (B 2%nat ltac:(lia)). pose proof (B 3%nat ltac:(lia)).
  pose proof (B 4%nat ltac:(lia)). pose proof (B 5%nat ltac:(lia)).
  pose proof (B 6%nat ltac:(lia)). pose proof (B 7%nat ltac:(lia)).
  pose proof (B 8%nat ltac:(lia)). pose proof (B 9%nat ltac:(lia)).
  pose proof (B 10%nat ltac:(lia)). pose proof (B 11%nat ltac:(lia)).
  pose proof (B 12%nat ltac:(lia)). pose proof (B 13%nat ltac:(lia)).
  pose proof (B 14%nat ltac:(lia)). pose proof (B 15%nat ltac:(lia)).
  clear B.
  assert (Hfit : forall y, - 2147483648 <= y < 2147483648 ->
                           Amaranth.signed 32 y = y).
  { intros y Hy. apply signed_fits; [lia|].
    unfold Amaranth.fits_signed. change (2 ^ (32 - 1)) with 2147483648. lia. }
  assert (Hfit2 : forall y, - 2147483648 <= y < 2147483648 ->
                    Amaranth.signed 32 (Z.shiftr y 2) = Z.shiftr y 2).
  { intros y Hy. apply Hfit. rewrite Z.shiftr_div_pow2 by lia.
    change (2 ^ 2) with 4.
    pose proof (Z.div_mod y 4 ltac:(lia)).
    pose proof (Z.mod_pos_bound y 4 ltac:(lia)). lia. }
  unfold AccOrTrans.result. rewrite H3. cbn [negb].
  unfold AccOrTrans.step at 1. rewrite H2. cbn [negb AccOrTrans.Y].
  unfold AccOrTrans.step. rewrite H1.
  cbn [negb AccOrTrans.Y_tmp AccOrTrans.late_in_values seq map nth
       AccOrTrans.Y_tmp_operands].
  rewrite !tree_sum_sum. unfold Amaranth.sum. cbn [fold_right].
  rewrite !Z.add_0_r.
  rewrite !(Hfit (_ + (_ + (_ + (_ + (_ + (_ + (_ + _)))))))) by lia.
  rewrite !(Hfit (_ + _)) by lia. rewrite !(Hfit (_ - _)) by lia.
  rewrite !Hfit2 by lia.
  repeat (apply (f_equal2 (@cons Z)); [f_equal; lia|]). reflexivity.
Qed.

End DepthwiseOutputs.

(** Bring the literal arguments of [f] to normal form. *)
Ltac eval_args f :=
  repeat match goal with
         | |- context [f ?x] =>
             let y := eval vm_compute in x in
             progress change (f x) with (f y)
         end.

(** X5.  Depthwise, end to end: the sixteen input bytes presented in one
    cycle are a 4x4 tile (four 2x2 blocks, one in each word) and the first
    nine filter bytes a 3x3 filter.  Five clock edges later the four results
    are the four 3x3 convolutions of the tile with the filter, the filter's
    corner at (0,0), (0,1), (1,0) and (1,1), every input raised by the
    offset: the transforms of the three stages and the shift by two places
    compose to the direct computation, with no rounding and no overflow. *)
Theorem Datapath_depthwise_convolution
    (s : Datapath.state) (i0 i1 i2 i3 i4 i5 : Datapath.inputs) :
  Datapath.switch_PorD i0 = true ->
  Datapath.switch_PorD i1 = true ->
  Datapath.switch_PorD i3 = true ->
  Datapath.switch_PorD i4 = true ->
  Datapath.switch_PorD i5 = true ->
  Amaranth.fits_signed 9 (Datapath.input_offset i1) ->
  Datapath.result (Datapath.run s [i0; i1; i2; i3; i4]) i5 =
  [ Winograd.conv3x3 (Datapath.taps i0) (Datapath.tile s i0)
                     (Datapath.input_offset i1) 0 0;
    Winograd.conv3x3 (Datapath.taps i0) (Datapath.tile s i0)
                     (Datapath.input_offset i1) 0 1;
    Winograd.conv3x3 (Datapath.taps i0) (Datapath.tile s i0)
                     (Datapath.input_offset i1) 1 0;
    Winograd.conv3x3 (Datapath.taps i0) (Datapath.tile s i0)
                     (Datapath.input_offset i1) 1 1 ].
Proof.
  intros H0 H1 H3 H4 H5 Hoff.
  cbn [Datapath.run fold_left].
  set (s2 := Datapath.step (Datapath.step s i0) i1).
  set (s3 := Datapath.step s2 i2). set (s4 := Datapath.step s3 i3).
  unfold Datapath.result.
  change (Datapath.acc (Datapath.step s4 i4))
    with (AccOrTrans.step (Datapath.acc s4) (Datapath.acc_in s4 i4)).
  change (Datapath.acc s4)
    with (AccOrTrans.step (Datapath.acc s3) (Datapath.acc_in s3 i3)).
  rewrite AccOrTrans_depthwise_result;
    [|apply Datapath_acc_in_wf | assumption | assumption | assumption].
  set (tI := InputStore.tmp (Datapath.ins s) (Datapath.ins_in i0)).
  set (tF := FilterValueFetcherData.tmp (Datapath.fvf_in i0)).
  assert (Hp : forall n, (n < 16)%nat ->
            AccOrTrans.iv (Datapath.acc_in s3 i3) n =
            (Amaranth.sum (InputStore.r_data_tmp_operands tI n) +
             (if (n =? 3)%nat then 4 * Datapath.input_offset i1 else 0)) *
            FilterValueFetcherData.one_stage_lane tF n).
  { intros n Hn. unfold AccOrTrans.iv, Datapath.acc_in.
    cbn [AccOrTrans.in_values]. unfold s3.
    rewrite Datapath_product by (reflexivity || lia).
    unfold s2. cbn [Datapath.step Datapath.ins Datapath.fvf].
    rewrite InputStore_depthwise_lane by (assumption || lia).
    rewrite FilterValueFetcherData_depthwise_lane by (assumption || lia).
    reflexivity. }
  rewrite !Hp by lia. clear Hp.
  cbn [Nat.eqb InputStore.r_data_tmp_operands
       FilterValueFetcherData.one_stage_lane].
  unfold Winograd.conv3x3, Winograd.sum_to, Amaranth.sum,
    Datapath.taps, Datapath.tile, Datapath.input_byte, Datapath.filter_byte.
  cbn [map seq fold_right]. fold tI tF.
  set (c := InputStore.byte tI). set (g := FilterValueFetcherData.byte tF).
  eval_args c. eval_args g. shifts.
  generalize (Datapath.input_offset i1). intros off.
  repeat (apply (f_equal2 (@cons Z));
          [rewrite Z.shiftr_div_pow2 by lia; change (2 ^ 2) with 4;
           symmetry; apply Z.div_unique_exact; [lia | ring]|]).
  reflexivity.
Qed.

(** The tile with rows (1 2 3 4), ..., (13 14 15 16) and the filter with
    rows (1 2 3), (4 5 6), (7 8 9), offset -128. *)
Lemma Datapath_depthwise_convolution_witness :
  Datapath.result
    (Datapath.run Datapath.reset
       [ Datapath.sample_cycle (-128); Datapath.sample_cycle (-128);
         Datapath.sample_cycle (-128); Datapath.sample_cycle (-128);
         Datapath.sample_cycle (-128) ])
    (Datapath.sample_cycle (-128)) = [-5412; -5367; -5232; -5187].
Proof.
  assert (Hoff : Amaranth.fits_signed 9
                   (Datapath.input_offset (Datapath.sample_cycle (-128))))
    by (unfold Amaranth.fits_signed; cbn; lia).
  rewrite (Datapath_depthwise_convolution Datapath.reset
             (Datapath.sample_cycle (-128)) (Datapath.sample_cycle (-128))
             (Datapath.sample_cycle (-128)) (Datapath.sample_cycle (-128))
             (Datapath.sample_cycle (-128)) (Datapath.sample_cycle (-128))
             eq_refl eq_refl eq_refl eq_refl eq_refl Hoff).
  vm_compute. reflexivity.
Defined.

(** ** The three stages as the transforms of the minimal algorithm *)

Ltac eval_matrix M :=
  repeat match goal with
         | |- context [M ?a ?b] =>
             let v := eval vm_compute in (M a b) in
             progress change (M a b) with v
         end.

Lemma four_cases (r : Z) : 0 <= r < 4 -> r = 0 \/ r = 1 \/ r = 2 \/ r = 3.
Proof. lia. Qed.

Ltac split_index r H :=
  apply four_cases in H; destruct H as [H | [H | [H | H]]]; subst r.

(** X6.  The depthwise filter path is the filter transform of the minimal
    2x2-output, 3x3-filter algorithm: two clock edges after nine filter
    bytes [g] are presented, the lane holding entry (r, c) reads, as a
    signed number, entry (r, c) of [G2 * g * G2^T], where [G2] is twice the
    filter transform matrix (so every entry is four times the textbook
    value, and no lane overflows). *)
Theorem FilterValueFetcher_depthwise_is_filter_transform
    (s : FilterValueFetcherData.state)
    (i0 i1 : FilterValueFetcherData.inputs) (r c : Z) :
  FilterValueFetcherData.switch_PorD i0 = true ->
  FilterValueFetcherData.switch_PorD i1 = true ->
  0 <= r < 4 -> 0 <= c < 4 ->
  Amaranth.signed 12
    (nth (Z.to_nat (Winograd.tile_index r c))
         (FilterValueFetcherData.data
            (FilterValueFetcherData.step
               (FilterValueFetcherData.step s i0) i1)) 0) =
  Winograd.filter_transform
    (fun a b => FilterValueFetcherData.byte (FilterValueFetcherData.tmp i0)
                                            (3 * a + b)) r c.
Proof.
  intros H0 H1 Hr Hc.
  set (g := FilterValueFetcherData.byte (FilterValueFetcherData.tmp i0)).
  split_index r Hr; split_index c Hc;
    match goal with
    | |- context [Z.to_nat ?x] =>
        let n := eval vm_compute in (Z.to_nat x) in
        change (Z.to_nat x) with n
    end;
    rewrite FilterValueFetcherData_depthwise_lane by (assumption || lia);
    cbn [FilterValueFetcherData.one_stage_lane]; fold g;
    unfold Winograd.filter_transform, Winograd.sum_to, Amaranth.sum;
    cbn [map seq fold_right];
    eval_matrix Winograd.G2; eval_args g; shifts; ring.
Qed.

(** The filter bytes 1..9: entry (1, 1) of the transform is their sum. *)
Lemma FilterValueFetcher_depthwise_is_filter_transform_witness :
  Amaranth.signed 12
    (nth 3
         (FilterValueFetcherData.data
            (FilterValueFetcherData.step
               (FilterValueFetcherData.step FilterValueFetcherData.reset
                  FilterValueFetcherData.sample_filter)
               FilterValueFetcherData.sample_filter)) 0) = 45.
Proof.
  change 3%nat with (Z.to_nat (Winograd.tile_index 1 1)).
  rewrite (FilterValueFetcher_depthwise_is_filter_transform
             FilterValueFetcherData.reset
             FilterValueFetcherData.sample_filter
             FilterValueFetcherData.sample_filter 1 1
             eq_refl eq_refl ltac:(lia) ltac:(lia)).
  vm_compute. reflexivity.
Defined.

(** X7.  The depthwise read stage of the input store is the input
    transform of the same algorithm, applied to the tile with the offset
    added to every byte: two clock edges after the sixteen bytes [d] are
    presented, the lane holding entry (r, c) reads, as a signed number,
    entry (r, c) of [BT * (d + offset) * B].  Adding the offset to lane 3
    alone is enough because the rows of [BT] sum to 0, 2, 0 and 0. *)
Theorem InputStore_depthwise_is_input_transform
    (s : InputStore.data_state) (i0 i1 : InputStore.data_inputs) (r c : Z) :
  InputStore.d_switch_PorD i0 = true ->
  InputStore.d_switch_PorD i1 = true ->
  Amaranth.fits_signed 9 (InputStore.d_offset i1) ->
  0 <= r < 4 -> 0 <= c < 4 ->
  Amaranth.signed 12
    (nth (Z.to_nat (Winograd.tile_index r c))
         (InputStore.r_data
            (InputStore.data_step (InputStore.data_step s i0) i1)) 0) =
  Winograd.input_transform
    (fun a b => InputStore.byte (InputStore.tmp s i0) (Winograd.tile_index a b))
    (InputStore.d_offset i1) r c.
Proof.
  intros H0 H1 Hoff Hr Hc.
  set (d := InputStore.byte (InputStore.tmp s i0)).
  split_index r Hr; split_index c Hc;
    match goal with
    | |- context [Z.to_nat ?x] =>
        let n := eval vm_compute in (Z.to_nat x) in
        change (Z.to_nat x) with n
    end;
    rewrite InputStore_depthwise_lane by (assumption || lia);
    cbn [InputStore.r_data_tmp_operands Nat.eqb]; fold d;
    unfold Winograd.input_transform, Winograd.sum_to, Amaranth.sum;
    cbn [map seq fold_right];
    eval_matrix Winograd.BT; eval_args d; ring.
Qed.

(** The sample tile of bytes 1..16: lane 3 is 4 + 10 + 7 + 13 plus four
    times the offset. *)
Lemma InputStore_depthwise_is_input_transform_witness :
  Amaranth.signed 12
    (nth 3
         (InputStore.r_data
            (InputStore.data_step
               (InputStore.data_step InputStore.data_reset
                                     (InputStore.sample_read 100))
               (InputStore.sample_read 100))) 0) = 434.
Proof.
  assert (Hoff : Amaranth.fits_signed 9
                   (InputStore.d_offset (InputStore.sample_read 100)))
    by (unfold Amaranth.fits_signed; cbn; lia).
  change 3%nat with (Z.to_nat (Winograd.tile_index 1 1)).
  rewrite (InputStore_depthwise_is_input_transform
             InputStore.data_reset
             (InputStore.sample_read 100) (InputStore.sample_read 100) 1 1
             eq_refl eq_refl Hoff ltac:(lia) ltac:(lia)).
  vm_compute. reflexivity.
Defined.

(** X8.  The depthwise accumulator stage is the output transform of the
    algorithm followed by the division by four that undoes the scaling of
    the filter transform: two clock edges after the sixteen products [m]
    are presented, result [2 * a + b] is entry (a, b) of [AT * m * A] shifted
    right by two places. *)
Theorem AccOrTrans_depthwise_is_output_transform
    (s : AccOrTrans.state) (i1 i2 i3 : AccOrTrans.inputs) (a b : Z) :
  AccOrTrans.wf_inputs i1 ->
  AccOrTrans.switch_PorD i1 = true ->
  AccOrTrans.switch_PorD i2 = true ->
  AccOrTrans.switch_PorD i3 = true ->
  0 <= a < 2 -> 0 <= b < 2 ->
  nth (Z.to_nat (2 * a + b))
      (AccOrTrans.result (AccOrTrans.step (AccOrTrans.step s i1) i2) i3) 0 =
  Z.shiftr
    (Winograd.output_transform
       (fun r c => AccOrTrans.iv i1 (Z.to_nat (Winograd.tile_index r c))) a b)
    2.
Proof.
  intros Hwf H1 H2 H3 Ha Hb.
  rewrite AccOrTrans_depthwise_result by assumption.
  set (m := AccOrTrans.iv i1).
  assert (Ha' : a = 0 \/ a = 1) by lia. assert (Hb' : b = 0 \/ b = 1) by lia.
  destruct Ha' as [-> | ->]; destruct Hb' as [-> | ->];
    match goal with
    | |- context [Z.to_nat ?x] =>
        let n := eval vm_compute in (Z.to_nat x) in
        change (Z.to_nat x) with n
    end;
    cbn [nth];
    unfold Winograd.output_transform, Winograd.sum_to, Amaranth.sum;
    cbn [map seq fold_right];
    eval_matrix Winograd.AT;
    repeat match goal with
           | |- context [m (Z.to_nat ?x)] =>
               let n := eval vm_compute in (Z.to_nat x) in
               progress change (m (Z.to_nat x)) with (m n)
           end;
    f_equal; ring.
Qed.

(** The products 1..16: the transform gives 54, -37, -56 and 25. *)
Lemma AccOrTrans_depthwise_is_output_transform_witness :
  nth 1
      (AccOrTrans.result
         (AccOrTrans.step
            (AccOrTrans.step AccOrTrans.reset
               (AccOrTrans.sample AccOrTrans.one_to_sixteen true false false))
            (AccOrTrans.sample AccOrTrans.one_to_sixteen true false false))
         (AccOrTrans.sample AccOrTrans.one_to_sixteen true false false)) 0
  = -10.
Proof.
  change 1%nat with (Z.to_nat (2 * 0 + 1)).
  rewrite (AccOrTrans_depthwise_is_output_transform AccOrTrans.reset
             (AccOrTrans.sample AccOrTrans.one_to_sixteen true false false)
             (AccOrTrans.sample AccOrTrans.one_to_sixteen true false false)
             (AccOrTrans.sample AccOrTrans.one_to_sixteen true false false)
             0 1 (one_to_sixteen_wf true false false)
             eq_refl eq_refl eq_refl ltac:(lia) ltac:(lia)).
  vm_compute. reflexivity.
Defined.

(** ** sequencing.py: [UpCounter] over a run *)

Lemma UpCounter_run_from (w M : Z) (l : list UpCounter.inputs) :
  1 <= M < 2 ^ w ->
  Forall (fun c => UpCounter.restart c = false /\ UpCounter.max c = M) l ->
  forall s : UpCounter.state,
  0 <= UpCounter.count s < M ->
  UpCounter.count (UpCounterRun.run w s l) =
  (UpCounter.count s + Z.of_nat (UpCounterRun.pulses l)) mod M.
Proof.
  intros HM Hall. induction Hall as [|c l [Hr Hm] _ IH]; intros s Hs.
  - cbn. rewrite Z.add_0_r. symmetry. apply Z.mod_small. exact Hs.
  - change (UpCounterRun.run w s (c :: l))
      with (UpCounterRun.run w (UpCounter.step w s c) l).
    unfold UpCounterRun.pulses. cbn [filter].
    destruct (UpCounter.en c) eqn:He.
    + assert (Hc : UpCounter.count (UpCounter.step w s c) =
                   (UpCounter.count s + 1) mod M).
      { unfold UpCounter.step, UpCounter.next_count, UpCounter.last_count.
        rewrite Hr, He, Hm. cbn [UpCounter.count].
        destruct (Z.eqb_spec (UpCounter.count s) (M - 1)) as [E|N].
        - rewrite E. replace (M - 1 + 1) with M by lia.
          symmetry. apply Z.mod_same. lia.
        - rewrite Z.mod_small by lia.
          unfold Amaranth.unsigned. apply Z.mod_small. lia. }
      rewrite IH by (rewrite Hc; apply Z.mod_pos_bound; lia).
      rewrite Hc. fold (UpCounterRun.pulses l).
      rewrite Z.add_mod_idemp_l by lia. f_equal.
      change (length (c :: filter UpCounter.en l))
        with (S (UpCounterRun.pulses l)). lia.
    + assert (Hc : UpCounter.count (UpCounter.step w s c) = UpCounter.count s).
      { unfold UpCounter.step. rewrite Hr, He. reflexivity. }
      rewrite IH by (rewrite Hc; exact Hs). rewrite Hc. reflexivity.
Qed.

(** X9.  A counter counting to [M] (at least 1 and within its width), from
    reset and without restart, holds the number of enable pulses received
    modulo [M]; [done] accompanies exactly every [M]-th pulse. *)
Theorem UpCounter_done_every_max_pulses
    (w M : Z) (l : list UpCounter.inputs) (i : UpCounter.inputs) :
  1 <= M < 2 ^ w ->
  Forall (fun c => UpCounter.restart c = false /\ UpCounter.max c = M) l ->
  UpCounter.max i = M ->
  UpCounter.count (UpCounterRun.run w UpCounter.reset l) =
    Z.of_nat (UpCounterRun.pulses l) mod M /\
  UpCounter.done (UpCounterRun.run w UpCounter.reset l) i =
    UpCounter.en i && ((Z.of_nat (UpCounterRun.pulses l) + 1) mod M =? 0).
Proof.
  intros HM Hall Hi.
  assert (Hc : UpCounter.count (UpCounterRun.run w UpCounter.reset l) =
               Z.of_nat (UpCounterRun.pulses l) mod M).
  { rewrite (UpCounter_run_from w M l HM Hall) by (cbn; lia).
    reflexivity. }
  split; [exact Hc|].
  unfold UpCounter.done, UpCounter.last_count. rewrite Hc, Hi. f_equal.
  set (p := Z.of_nat (UpCounterRun.pulses l)).
  pose proof (Z.mod_pos_bound p M ltac:(lia)) as Hb.
  rewrite <- (Z.add_mod_idemp_l p 1 M) by lia.
  destruct (Z.eqb_spec (p mod M) (M - 1)) as [E|N].
  - rewrite E. replace (M - 1 + 1) with M by lia.
    rewrite Z.mod_same by lia. reflexivity.
  - rewrite Z.mod_small by lia. symmetry. apply Z.eqb_neq. lia.
Qed.

(** Counting to 4 in a three-bit counter, as [four_count] does: the fourth
    pulse is accompanied by [done]. *)
Lemma UpCounter_done_every_max_pulses_witness :
  UpCounter.done
    (UpCounterRun.run 3 UpCounter.reset
       [ UpCounterRun.cycle 4 true; UpCounterRun.cycle 4 false;
         UpCounterRun.cycle 4 true; UpCounterRun.cycle 4 true ])
    (UpCounterRun.cycle 4 true) = true.
Proof.
  assert (Hall : Forall (fun c => UpCounter.restart c = false /\
                                  UpCounter.max c = 4)
                   [ UpCounterRun.cycle 4 true; UpCounterRun.cycle 4 false;
                     UpCounterRun.cycle 4 true; UpCounterRun.cycle 4 true ])
    by (repeat constructor).
  rewrite (proj2 (UpCounter_done_every_max_pulses 3 4 _
                    (UpCounterRun.cycle 4 true) ltac:(cbn; lia) Hall eq_refl)).
  reflexivity.
Defined.

(** ** sequencing.py: [Sequencer] over a run *)

Lemma Sequencer_mul_delay_at
    (cfg : Sequencer.config) (i : nat -> Sequencer.inputs)
    (s0 : Sequencer.state) (t : nat) :
  Sequencer.mul_delay (SequencerRun.at_tick cfg i s0 t) =
  Delayer.at_tick
    (fun k => Sequencer.mul_delay_in (SequencerRun.at_tick cfg i s0 k) (i k))
    (Sequencer.mul_delay s0) t.
Proof.
  induction t as [|t IH]; [reflexivity|].
  cbn [SequencerRun.at_tick Delayer.at_tick]. rewrite <- IH. reflexivity.
Qed.

(** X10.  [mul_done] is the gate of an earlier tick: three ticks earlier in
    pointwise mode, five in depthwise mode, whatever happened in between.
    These are the numbers of clock edges the calculation path takes from the
    stores' outputs to the partial sum and to the four depthwise results. *)
Theorem Sequencer_mul_done_is_delayed_gate
    (cfg : Sequencer.config) (i : nat -> Sequencer.inputs)
    (s0 : Sequencer.state) (t : nat) :
  (SequencerRun.mul_latency (i t) <= t)%nat ->
  Sequencer.mul_done (SequencerRun.at_tick cfg i s0 t) (i t) =
  Sequencer.gate
    (SequencerRun.at_tick cfg i s0 (t - SequencerRun.mul_latency (i t)))
    (i (t - SequencerRun.mul_latency (i t))%nat).
Proof.
  unfold SequencerRun.mul_latency, Sequencer.mul_done, Delayer.output.
  rewrite Sequencer_mul_delay_at.
  destruct (Sequencer.switch_PorD (i t)) eqn:E; intros Ht.
  - assert (Hc : Delayer.cycles
                   (Sequencer.mul_delay_in (SequencerRun.at_tick cfg i s0 t)
                      (i t)) = 5)
      by (unfold Sequencer.mul_delay_in; rewrite E; reflexivity).
    rewrite !Hc. change (5 =? 5) with true. cbv iota.
    rewrite (Delayer_bit_history _ _ t 4) by lia.
    cbn [Delayer.input Sequencer.mul_delay_in].
    replace (t - 1 - 4)%nat with (t - 5)%nat by lia. reflexivity.
  - assert (Hc : Delayer.cycles
                   (Sequencer.mul_delay_in (SequencerRun.at_tick cfg i s0 t)
                      (i t)) = 3)
      by (unfold Sequencer.mul_delay_in; rewrite E; reflexivity).
    rewrite !Hc. change (3 =? 5) with false. change (3 =? 4) with false.
    change (3 =? 3) with true. cbv iota.
    rewrite (Delayer_bit_history _ _ t 2) by lia.
    cbn [Delayer.input Sequencer.mul_delay_in].
    replace (t - 1 - 2)%nat with (t - 3)%nat by lia. reflexivity.
Qed.

(** The sample run: the gate of tick 1 comes out as [mul_done] at tick 4,
    although the FIFO has no space at ticks 2 and 3. *)
Lemma Sequencer_mul_done_is_delayed_gate_witness :
  Sequencer.mul_done
    (SequencerRun.at_tick Sequencer.sample_config SequencerRun.sample_run
       Sequencer.reset 4)
    (SequencerRun.sample_run 4) = true.
Proof.
  rewrite (Sequencer_mul_done_is_delayed_gate Sequencer.sample_config
             SequencerRun.sample_run Sequencer.reset 4 ltac:(cbn; lia)).
  reflexivity.
Defined.

Lemma Sequencer_run_words (cfg : Sequencer.config) (s : Sequencer.state)
    (i : Sequencer.inputs) :
  UpCounter.max (Sequencer.f_count_in cfg s i) = SequencerRun.run_words cfg i.
Proof. reflexivity. Qed.

(** One cycle of a run that has passed [n] of its [m] words. *)
Lemma Sequencer_run_step
    (cfg : Sequencer.config) (s : Sequencer.state) (i : Sequencer.inputs)
    (m : Z) (n : nat) :
  1 <= m < 2 ^ Sequencer.filter_value_words_width cfg ->
  Sequencer.restart i = false ->
  SequencerRun.run_words cfg i = m ->
  Z.of_nat n <= m ->
  GateCalculator.running (Sequencer.gate_calc s) || Sequencer.start_run i =
    negb (Z.of_nat n =? m) ->
  UpCounter.count (Sequencer.f_count s) =
    (if Z.of_nat n =? m then 0 else Z.of_nat n) ->
  let n' := (n + if Sequencer.gate s i then 1 else 0)%nat in
  Z.of_nat n' <= m /\
  GateCalculator.running (Sequencer.gate_calc (Sequencer.step cfg s i)) =
    negb (Z.of_nat n' =? m) /\
  UpCounter.count (Sequencer.f_count (Sequencer.step cfg s i)) =
    (if Z.of_nat n' =? m then 0 else Z.of_nat n') /\
  Sequencer.all_output_finished cfg s i =
    Sequencer.gate s i && (Z.of_nat n + 1 =? m).
Proof.
  intros Hm Hrs Hw Hn HR Hc n'. subst n'.
  unfold Sequencer.step.
  cbn [Sequencer.gate_calc Sequencer.f_count].
  unfold GateCalculator.step, UpCounter.step, UpCounter.next_count.
  cbn [GateCalculator.running GateCalculator.all_output_finished
       GateCalculator.start_run UpCounter.count].
  unfold Sequencer.all_output_finished, UpCounter.done, UpCounter.last_count.
  rewrite Sequencer_run_words, Hw.
  cbn [Sequencer.f_count_in UpCounter.en UpCounter.restart]. rewrite Hrs.
  assert (Hg : Sequencer.gate s i =
               negb (Z.of_nat n =? m) && Sequencer.in_store_ready i
               && Sequencer.fifo_has_space i).
  { unfold Sequencer.gate, GateCalculator.gate.
    cbn [GateCalculator.start_run GateCalculator.in_store_ready
         GateCalculator.fifo_has_space]. rewrite HR. reflexivity. }
  rewrite Hc.
  destruct (Z.eqb_spec (Z.of_nat n) m) as [E|N].
  - (* all the words have passed *)
    rewrite Hg. cbn [negb andb]. rewrite Nat.add_0_r.
    rewrite (proj2 (Z.eqb_eq (Z.of_nat n) m) E).
    cbn [negb] in HR. apply orb_false_iff in HR. destruct HR as [HR1 HR2].
    rewrite HR1, HR2. repeat split; try lia; reflexivity.
  - destruct (Sequencer.gate s i) eqn:G.
    + cbn [andb]. replace (Z.of_nat (n + 1)) with (Z.of_nat n + 1) by lia.
      destruct (Z.eqb_spec (Z.of_nat n) (m - 1)) as [E1|N1].
      * rewrite (proj2 (Z.eqb_eq (Z.of_nat n + 1) m)) by lia.
        repeat split; try lia; reflexivity.
      * rewrite (proj2 (Z.eqb_neq (Z.of_nat n + 1) m)) by lia.
        cbn [negb] in HR. cbn [negb].
        repeat split; try lia.
        -- destruct (Sequencer.start_run i); [reflexivity|].
           rewrite orb_false_r in HR. exact HR.
        -- unfold Amaranth.unsigned. apply Z.mod_small. lia.
    + cbn [andb]. rewrite Nat.add_0_r.
      rewrite (proj2 (Z.eqb_neq (Z.of_nat n) m)) by lia.
      cbn [negb] in HR. cbn [negb].
      repeat split; try lia.
      destruct (Sequencer.start_run i); [reflexivity|].
      rewrite orb_false_r in HR. exact HR.
Qed.

(** X11.  A run passes exactly as many words as its word count [m] (half
    the filter words in pointwise mode, [num_tile] in depthwise mode),
    however long the store or the FIFO stall it: after a start from an idle
    sequencer, with no restart and no second start, the number of gates so
    far never exceeds [m], the sequencer is running exactly while it is
    below [m], and [all_output_finished] accompanies the [m]-th gate and no
    other cycle. *)
Theorem Sequencer_run_passes_word_count
    (cfg : Sequencer.config) (i : nat -> Sequencer.inputs)
    (s0 : Sequencer.state) (m : Z) (t : nat) :
  1 <= m < 2 ^ Sequencer.filter_value_words_width cfg ->
  GateCalculator.running (Sequencer.gate_calc s0) = false ->
  UpCounter.count (Sequencer.f_count s0) = 0 ->
  (forall k, Sequencer.restart (i k) = false) ->
  (forall k, SequencerRun.run_words cfg (i k) = m) ->
  Sequencer.start_run (i 0%nat) = true ->
  (forall k, (0 < k)%nat -> Sequencer.start_run (i k) = false) ->
  (1 <= t)%nat ->
  Z.of_nat (SequencerRun.gates cfg i s0 t) <= m /\
  GateCalculator.running
    (Sequencer.gate_calc (SequencerRun.at_tick cfg i s0 t)) =
    negb (Z.of_nat (SequencerRun.gates cfg i s0 t) =? m) /\
  Sequencer.all_output_finished cfg (SequencerRun.at_tick cfg i s0 t) (i t) =
    Sequencer.gate (SequencerRun.at_tick cfg i s0 t) (i t) &&
    (Z.of_nat (SequencerRun.gates cfg i s0 t) + 1 =? m).
Proof.
  intros Hm Hidle Hzero Hrs Hw Hstart Hnostart Ht.
  assert (Inv : forall u, (1 <= u)%nat ->
    Z.of_nat (SequencerRun.gates cfg i s0 u) <= m /\
    GateCalculator.running
      (Sequencer.gate_calc (SequencerRun.at_tick cfg i s0 u)) =
      negb (Z.of_nat (SequencerRun.gates cfg i s0 u) =? m) /\
    UpCounter.count (Sequencer.f_count (SequencerRun.at_tick cfg i s0 u)) =
      (if Z.of_nat (SequencerRun.gates cfg i s0 u) =? m then 0
       else Z.of_nat (SequencerRun.gates cfg i s0 u))).
  { induction u as [|u IH]; intros Hu; [lia|].
    cbn [SequencerRun.at_tick SequencerRun.gates].
    destruct u as [|u].
    - cbn [SequencerRun.at_tick SequencerRun.gates].
      destruct (Sequencer_run_step cfg s0 (i 0%nat) m 0 Hm (Hrs _) (Hw _))
        as (H1 & H2 & H3 & _).
      + lia.
      + rewrite Hidle, Hstart.
        rewrite (proj2 (Z.eqb_neq (Z.of_nat 0) m)) by lia. reflexivity.
      + rewrite Hzero.
        rewrite (proj2 (Z.eqb_neq (Z.of_nat 0) m)) by lia. reflexivity.
      + repeat split; assumption.
    - destruct (IH ltac:(lia)) as (I1 & I2 & I3).
      destruct (Sequencer_run_step cfg
                  (SequencerRun.at_tick cfg i s0 (S u)) (i (S u)) m
                  (SequencerRun.gates cfg i s0 (S u)) Hm (Hrs _) (Hw _) I1)
        as (H1 & H2 & H3 & _).
      + rewrite (Hnostart (S u)) by lia. rewrite orb_false_r. exact I2.
      + exact I3.
      + repeat split; assumption. }
  destruct (Inv t Ht) as (I1 & I2 & I3).
  split; [exact I1|]. split; [exact I2|].
  destruct (Sequencer_run_step cfg (SequencerRun.at_tick cfg i s0 t) (i t) m
              (SequencerRun.gates cfg i s0 t) Hm (Hrs _) (Hw _) I1)
    as (_ & _ & _ & H4).
  - rewrite (Hnostart t) by lia. rewrite orb_false_r. exact I2.
  - exact I3.
  - exact H4.
Qed.

(** The sample run of 16 filter words: its eighth gate, at tick 9 because
    of the two stalled ticks, is the one that ends it. *)
Lemma Sequencer_run_passes_word_count_witness :
  Sequencer.all_output_finished Sequencer.sample_config
    (SequencerRun.at_tick Sequencer.sample_config SequencerRun.sample_run
       Sequencer.reset 9)
    (SequencerRun.sample_run 9) = true.
Proof.
  assert (Hns : forall k, (0 < k)%nat ->
                  Sequencer.start_run (SequencerRun.sample_run k) = false)
    by (intros [|k] Hk; [lia | reflexivity]).
  rewrite (proj2 (proj2
    (Sequencer_run_passes_word_count Sequencer.sample_config
       SequencerRun.sample_run Sequencer.reset 8 9
       ltac:(cbn; lia) eq_refl eq_refl
       (fun k => eq_refl) (fun k => eq_refl) eq_refl Hns ltac:(lia)))).
  reflexivity.
Defined.

Lemma unsigned_nonneg (w x : Z) : 0 <= x -> 0 <= Amaranth.unsigned w x.
Proof.
  intros Hx. unfold Amaranth.unsigned.
  destruct (Z.ltb_spec w 0) as [Hneg|Hpos].
  - rewrite Z.pow_neg_r by exact Hneg. rewrite Z.mod_0_r. exact Hx.
  - apply Z.mod_pos_bound. apply Z.pow_pos_nonneg; lia.
Qed.

(** X12.  A run whose word count is zero never ends: with fewer than two
    filter words in pointwise mode, or [num_tile] zero in depthwise mode,
    [all_output_finished] is never raised, so a sequencer that has been
    started keeps running (and gating words through) until a restart. *)
Theorem Sequencer_zero_word_count_never_finishes
    (cfg : Sequencer.config) (i : nat -> Sequencer.inputs) (t : nat) :
  (forall k, SequencerRun.run_words cfg (i k) = 0) ->
  Sequencer.all_output_finished cfg
    (SequencerRun.at_tick cfg i Sequencer.reset t) (i t) = false /\
  (Sequencer.start_run (i 0%nat) = true -> (1 <= t)%nat ->
   GateCalculator.running
     (Sequencer.gate_calc (SequencerRun.at_tick cfg i Sequencer.reset t))
   = true).
Proof.
  intros Hw.
  assert (Hcount : forall u,
            0 <= UpCounter.count
                   (Sequencer.f_count
                      (SequencerRun.at_tick cfg i Sequencer.reset u))).
  { induction u as [|u IH]; [cbn; lia|].
    cbn [SequencerRun.at_tick]. unfold Sequencer.step.
    cbn [Sequencer.f_count]. unfold UpCounter.step, UpCounter.next_count.
    cbn [UpCounter.count].
    repeat match goal with
           | |- context [if ?b then _ else _] => destruct b
           end; try lia; try exact IH.
    apply unsigned_nonneg. lia. }
  assert (Hnever : forall u,
            Sequencer.all_output_finished cfg
              (SequencerRun.at_tick cfg i Sequencer.reset u) (i u) = false).
  { intros u. unfold Sequencer.all_output_finished, UpCounter.done,
      UpCounter.last_count.
    rewrite Sequencer_run_words, Hw.
    apply andb_false_iff. right. apply Z.eqb_neq.
    pose proof (Hcount u). lia. }
  split; [apply Hnever|].
  intros Hstart Ht. induction t as [|t IH]; [lia|].
  cbn [SequencerRun.at_tick]. unfold Sequencer.step.
  cbn [Sequencer.gate_calc]. unfold GateCalculator.step.
  cbn [GateCalculator.running GateCalculator.all_output_finished
       GateCalculator.start_run].
  rewrite Hnever.
  destruct t as [|t]; [cbn [SequencerRun.at_tick]; rewrite Hstart; reflexivity|].
  rewrite IH by lia. destruct (Sequencer.start_run (i (S t))); reflexivity.
Qed.

(** A run over a single filter word: a hundred ticks after the start it is
    still running. *)
Lemma Sequencer_zero_word_count_never_finishes_witness :
  GateCalculator.running
    (Sequencer.gate_calc
       (SequencerRun.at_tick Sequencer.sample_config SequencerRun.sample_empty
          Sequencer.reset 100)) = true.
Proof.
  exact (proj2 (Sequencer_zero_word_count_never_finishes
                  Sequencer.sample_config SequencerRun.sample_empty 100
                  (fun k => eq_refl))
               eq_refl ltac:(lia)).
Defined.

(** ** store.py: [NextWordGetter] *)

Lemma NextWordGetter_keeps_waiting (l : list NextWordGetter.inputs) :
  Forall (fun c => NextWordGetter.ready c = false) l ->
  forall s, NextWordGetter.waiting s = true ->
  NextWordGetter.waiting (NextWordGetter.run s l) = true.
Proof.
  induction 1 as [|c l Hc _ IH]; intros s Hs; [exact Hs|].
  cbn [NextWordGetter.run fold_left]. apply IH.
  unfold NextWordGetter.step, NextWordGetter.completes.
  rewrite Hc, Hs. cbn. destruct (NextWordGetter.start c); reflexivity.
Qed.

(** X13.  A read request made while the store has no data ready is
    remembered: it completes in the first cycle in which [ready] is high,
    however long that takes, delivering the data of that cycle together with
    [next] and [done]; and it completes once, since the cycle after it only
    answers a new request. *)
Theorem NextWordGetter_request_waits_for_ready
    (s : NextWordGetter.state) (i0 : NextWordGetter.inputs)
    (l : list NextWordGetter.inputs) (i j : NextWordGetter.inputs) :
  NextWordGetter.start i0 = true ->
  Forall (fun c => NextWordGetter.ready c = false) (i0 :: l) ->
  NextWordGetter.ready i = true ->
  NextWordGetter.done (NextWordGetter.run s (i0 :: l)) i = true /\
  NextWordGetter.next (NextWordGetter.run s (i0 :: l)) i = true /\
  NextWordGetter.output (NextWordGetter.run s (i0 :: l)) i =
    Amaranth.unsigned 32 (NextWordGetter.data i) /\
  NextWordGetter.done (NextWordGetter.run s (i0 :: l ++ [i])) j =
    NextWordGetter.ready j && NextWordGetter.start j.
Proof.
  intros Hstart Hall Hready.
  inversion Hall as [|? ? H0 Hl]; subst.
  assert (Hw : NextWordGetter.waiting (NextWordGetter.run s (i0 :: l)) = true).
  { cbn [NextWordGetter.run fold_left].
    apply NextWordGetter_keeps_waiting; [exact Hl|].
    unfold NextWordGetter.step, NextWordGetter.completes.
    rewrite H0, Hstart. reflexivity. }
  assert (Hc : NextWordGetter.completes (NextWordGetter.run s (i0 :: l)) i
               = true).
  { unfold NextWordGetter.completes. rewrite Hready, Hw. reflexivity. }
  repeat split.
  - exact Hc.
  - exact Hc.
  - unfold NextWordGetter.output. rewrite Hc. reflexivity.
  - change (i0 :: l ++ [i]) with ((i0 :: l) ++ [i]).
    unfold NextWordGetter.run at 1. rewrite fold_left_app.
    fold (NextWordGetter.run s (i0 :: l)). cbn [fold_left].
    unfold NextWordGetter.done, NextWordGetter.completes at 1.
    unfold NextWordGetter.step. rewrite Hc. reflexivity.
Qed.

(** A request, one cycle of waiting, then the word 42 is ready. *)
Lemma NextWordGetter_request_waits_for_ready_witness :
  NextWordGetter.output
    (NextWordGetter.run NextWordGetter.reset
       [NextWordGetter.sample_request; NextWordGetter.sample_wait])
    NextWordGetter.sample_ready = 42.
Proof.
  assert (Hall : Forall (fun c => NextWordGetter.ready c = false)
                   [NextWordGetter.sample_request; NextWordGetter.sample_wait])
    by (repeat constructor).
  exact (proj1 (proj2 (proj2
    (NextWordGetter_request_waits_for_ready NextWordGetter.reset
       NextWordGetter.sample_request [NextWordGetter.sample_wait]
       NextWordGetter.sample_ready NextWordGetter.sample_ready
       eq_refl Hall eq_refl)))).
Defined.

(** ** store.py and mnv2_cfu.py: [InputStoreSetter] wired to the store *)

(** The store accepts a word from its setter only in a cycle in which the
    word is offered and the store is ready. *)
Lemma InputPort_accept (s : InputPort.state) (i : InputPort.inputs) :
  InputStore.w_accept (InputPort.store s) (InputPort.store_in s i) =
  InputPort.start i && InputStore.w_ready (InputPort.store s).
Proof.
  unfold InputStore.w_accept, InputPort.store_in. cbn [InputStore.w_en].
  unfold InputStoreSetter.w_en, InputStoreSetter.taken, InputPort.setter_in.
  cbn [InputStoreSetter.start InputStoreSetter.w_ready].
  destruct (InputPort.start i), (InputStore.w_ready (InputPort.store s)),
    (InputStoreSetter.waiting (InputPort.setter s)); reflexivity.
Qed.

Lemma InputPort_mem_kept (max_depth : Z) (s : InputPort.state)
    (i : InputPort.inputs) :
  InputPort.start i && InputStore.w_ready (InputPort.store s) = false ->
  forall n a,
    InputStore.mem (InputPort.store (InputPort.step max_depth s i)) n a =
    InputStore.mem (InputPort.store s) n a.
Proof.
  intros H n a. cbn [InputPort.step InputPort.store].
  unfold InputStore.step, InputStore.next_mem, InputStore.dp_w_en.
  cbn [InputStore.mem]. rewrite InputPort_accept, H. reflexivity.
Qed.

Lemma InputPort_waiting_kept (max_depth : Z) (s : InputPort.state)
    (i : InputPort.inputs) :
  InputStoreSetter.waiting (InputPort.setter s) = true ->
  InputStoreSetter.waiting
    (InputPort.setter (InputPort.step max_depth s i)) = true.
Proof.
  intros H. cbn [InputPort.step InputPort.setter].
  unfold InputStoreSetter.step.
  destruct (InputStoreSetter.taken _ _); try exact H; reflexivity.
Qed.

(** X14.  A word offered to the input store while it is not ready is never
    written: not in that cycle, and not in any later cycle in which no new
    word is offered.  From then on the setter stays in its waiting state, in
    which it reports [done] exactly in the cycles in which the store is
    still not ready, and never when it is ready. *)
Theorem InputPort_word_offered_to_full_store_is_dropped
    (max_depth : Z) (s : InputPort.state) (i0 : InputPort.inputs)
    (l : list InputPort.inputs) :
  InputPort.start i0 = true ->
  InputStore.w_ready (InputPort.store s) = false ->
  Forall (fun c => InputPort.start c = false) l ->
  (forall n a,
     InputStore.mem (InputPort.store (InputPort.run max_depth s (i0 :: l))) n a
     = InputStore.mem (InputPort.store s) n a) /\
  InputStoreSetter.waiting
    (InputPort.setter (InputPort.run max_depth s (i0 :: l))) = true /\
  (forall c, InputPort.start c = false ->
     InputPort.done (InputPort.run max_depth s (i0 :: l)) c =
     negb (InputStore.w_ready
             (InputPort.store (InputPort.run max_depth s (i0 :: l))))).
Proof.
  intros Hstart Hfull Hl.
  cbn [InputPort.run fold_left].
  set (s1 := InputPort.step max_depth s i0).
  assert (Hm1 : forall n a,
            InputStore.mem (InputPort.store s1) n a =
            InputStore.mem (InputPort.store s) n a).
  { apply InputPort_mem_kept. rewrite Hfull. apply andb_false_r. }
  assert (Hw1 : InputStoreSetter.waiting (InputPort.setter s1) = true).
  { unfold s1. cbn [InputPort.step InputPort.setter].
    unfold InputStoreSetter.step, InputStoreSetter.taken, InputPort.setter_in.
    cbn [InputStoreSetter.start InputStoreSetter.w_ready].
    rewrite Hstart, Hfull. reflexivity. }
  clearbody s1.
  assert (Hrun : (forall n a,
                    InputStore.mem
                      (InputPort.store (fold_left (InputPort.step max_depth) l s1))
                      n a = InputStore.mem (InputPort.store s) n a) /\
                 InputStoreSetter.waiting
                   (InputPort.setter (fold_left (InputPort.step max_depth) l s1))
                 = true).
  { revert s1 Hm1 Hw1.
    induction Hl as [|c l Hc _ IH]; intros s1 Hm1 Hw1; [split; assumption|].
    cbn [fold_left]. apply IH.
    - intros n a. rewrite InputPort_mem_kept by (rewrite Hc; reflexivity).
      apply Hm1.
    - apply InputPort_waiting_kept. exact Hw1. }
  destruct Hrun as [Hm Hw]. split; [exact Hm|]. split; [exact Hw|].
  intros c Hc. unfold InputPort.done, InputStoreSetter.done,
    InputStoreSetter.taken, InputPort.setter_in.
  cbn [InputStoreSetter.start InputStoreSetter.w_ready].
  rewrite Hc, Hw.
  destruct (InputStore.w_ready
              (InputPort.store (fold_left (InputPort.step max_depth) l s1)));
    reflexivity.
Qed.

(** Both buffers full: the word 7 is offered, and one cycle later [done] is
    reported although nothing was stored. *)
Lemma InputPort_word_offered_to_full_store_is_dropped_witness :
  InputPort.done
    (InputPort.run 8 InputPort.sample_full [InputPort.sample_offer true])
    (InputPort.sample_offer false) = true.
Proof.
  rewrite (proj2 (proj2
    (InputPort_word_offered_to_full_store_is_dropped 8 InputPort.sample_full
       (InputPort.sample_offer true) [] eq_refl eq_refl (Forall_nil _)))
    (InputPort.sample_offer false) eq_refl).
  reflexivity.
Defined.

(** ** store.py: [InputStore], neither side is left waiting *)

(** What holds of the control registers in every reachable state: the
    reader is offered only a full buffer, the writer is refused only while
    the reader's buffer is full, and [last_full] equals [r_ready]. *)
Lemma InputStore_control_step
    (max_depth : Z) (s : InputStore.state) (i : InputStore.inputs) :
  (InputStore.r_ready s = true -> InputStore.full s = true) /\
  (InputStore.w_ready s = false -> InputStore.full s = true) /\
  InputStore.last_full s = InputStore.r_ready s ->
  (InputStore.r_ready (InputStore.step max_depth s i) = true ->
   InputStore.full (InputStore.step max_depth s i) = true) /\
  (InputStore.w_ready (InputStore.step max_depth s i) = false ->
   InputStore.full (InputStore.step max_depth s i) = true) /\
  InputStore.last_full (InputStore.step max_depth s i) =
  InputStore.r_ready (InputStore.step max_depth s i).
Proof.
  assert (Hlast : InputStore.w_last s i = true ->
                  InputStore.r_full s (InputStore.w_curr_buf s) = false).
  { unfold InputStore.w_last, InputStore.w_accept, InputStore.w_ready.
    intros H. apply andb_true_iff in H. destruct H as [H _].
    apply andb_true_iff in H. destruct H as [_ H].
    apply negb_true_iff in H. exact H. }
  revert Hlast.
  unfold InputStore.step, InputStore.full, InputStore.w_ready,
    InputStore.full_rose, InputStore.full, InputStore.next_r_full,
    InputStore.r_full.
  cbn [InputStore.r_ready InputStore.r_curr_buf InputStore.w_curr_buf
       InputStore.r_full_0 InputStore.r_full_1 InputStore.last_full].
  destruct (InputStore.restart i), (InputStore.r_finished i),
    (InputStore.w_last s i), (InputStore.r_curr_buf s),
    (InputStore.w_curr_buf s), (InputStore.r_full_0 s),
    (InputStore.r_full_1 s), (InputStore.last_full s),
    (InputStore.r_ready s); cbn; intros Hlast (H1 & H2 & H3);
    repeat split; intros; try reflexivity; try discriminate;
    try (apply H1; reflexivity); try (apply H2; reflexivity);
    try (specialize (Hlast eq_refl); discriminate).
Qed.

Lemma InputStore_control_invariant (max_depth : Z) (s : InputStore.state) :
  InputStore.reachable max_depth s ->
  (InputStore.r_ready s = true -> InputStore.full s = true) /\
  (InputStore.w_ready s = false -> InputStore.full s = true) /\
  InputStore.last_full s = InputStore.r_ready s.
Proof.
  induction 1 as [|s i _ IH].
  - repeat split; discriminate.
  - apply InputStore_control_step. exact IH.
Qed.

(** X15.  The store never leaves both of its sides waiting.  In every state
    reached from reset, whatever the inputs were: when the writer is refused
    ([w_ready] low) the reader's buffer is full; and when the reader's
    buffer is full the reader is offered it ([r_ready] high) at the latest
    after the next clock edge, unless that edge restarts the store or ends
    the reading of the buffer. *)
Theorem InputStore_never_blocks_both_sides
    (max_depth : Z) (s : InputStore.state) (i : InputStore.inputs) :
  InputStore.reachable max_depth s ->
  (InputStore.w_ready s = false -> InputStore.full s = true) /\
  (InputStore.full s = true ->
   InputStore.restart i = false -> InputStore.r_finished i = false ->
   InputStore.r_ready (InputStore.step max_depth s i) = true).
Proof.
  intros Hreach.
  destruct (InputStore_control_invariant max_depth s Hreach) as (_ & H2 & H3).
  split; [exact H2|].
  intros Hfull Hrs Hfin. unfold InputStore.step. cbn [InputStore.r_ready].
  rewrite Hrs, Hfin. unfold InputStore.full_rose. rewrite Hfull, H3.
  destruct (InputStore.r_ready s); reflexivity.
Qed.

(** Two pixels of one word written from reset fill both buffers: the
    writer is refused, and the reader is offered buffer 0. *)
Lemma InputStore_never_blocks_both_sides_witness :
  InputStore.w_ready
    (InputStore.step 8
       (InputStore.step 8 InputStore.reset (InputStore.one_word false false))
       (InputStore.one_word false false)) = false /\
  InputStore.r_ready
    (InputStore.step 8
       (InputStore.step 8 InputStore.reset (InputStore.one_word false false))
       (InputStore.one_word false false)) = true.
Proof.
  split; [reflexivity|].
  refine (proj2 (InputStore_never_blocks_both_sides 8
                   (InputStore.step 8 InputStore.reset
                      (InputStore.one_word false false))
                   (InputStore.one_word false false) _) _ _ _).
  - apply InputStore.reachable_step. apply InputStore.reachable_reset.
  - reflexivity.
  - reflexivity.
  - reflexivity.
Defined.

(** ** store.py: [InputStore], a pixel from the writer to the reader *)

Lemma InputStore_run_reachable (max_depth : Z) (l : list InputStore.inputs) :
  forall s, InputStore.reachable max_depth s ->
  InputStore.reachable max_depth (InputStore.run max_depth s l).
Proof.
  induction l as [|i l IH]; intros s Hs; [exact Hs|].
  cbn [InputStore.run fold_left]. apply IH.
  apply InputStore.reachable_step. exact Hs.
Qed.

(** Cycles that neither restart the store nor end the reading. *)
Local Abbreviation quiet :=
  (fun c => InputStore.restart c = false /\ InputStore.r_finished c = false).

(** Such cycles leave the reader where it is and keep what it was offered:
    its buffer selector, a raised full flag and [r_ready], and the words of
    a full buffer. *)
Lemma InputStore_quiet_run (max_depth : Z) (b : bool)
    (l : list InputStore.inputs) :
  2 <= InputStore.depth_width max_depth ->
  Forall quiet l ->
  forall s,
  InputStore.r_curr_buf (InputStore.run max_depth s l) =
    InputStore.r_curr_buf s /\
  (InputStore.r_ready s = true ->
   InputStore.r_ready (InputStore.run max_depth s l) = true) /\
  (InputStore.r_full s b = true ->
   InputStore.r_full (InputStore.run max_depth s l) b = true /\
   forall n low,
     InputStore.mem (InputStore.run max_depth s l) n
       (InputStore.buf_addr max_depth low b) =
     InputStore.mem s n (InputStore.buf_addr max_depth low b)).
Proof.
  intros Hdw. induction 1 as [|c l [Hrs Hfin] _ IH]; intros s.
  - cbn. repeat split; auto.
  - cbn [InputStore.run fold_left].
    destruct (IH (InputStore.step max_depth s c)) as (I1 & I2 & I3).
    fold (InputStore.run max_depth (InputStore.step max_depth s c) l) in *.
    assert (Hbuf : InputStore.r_curr_buf (InputStore.step max_depth s c) =
                   InputStore.r_curr_buf s)
      by (unfold InputStore.step; cbn [InputStore.r_curr_buf];
          rewrite Hrs, Hfin; reflexivity).
    split; [rewrite I1; exact Hbuf|]. split.
    + intros Hr. apply I2. unfold InputStore.step. cbn [InputStore.r_ready].
      rewrite Hrs, Hfin, Hr. destruct (InputStore.full_rose s); reflexivity.
    + intros Hfull.
      assert (Hfull' : InputStore.r_full (InputStore.step max_depth s c) b
                       = true).
      { destruct b; unfold InputStore.r_full at 1; unfold InputStore.step;
          cbn [InputStore.r_full_0 InputStore.r_full_1];
          unfold InputStore.next_r_full; rewrite Hrs, Hfin, Hfull;
          cbn [andb];
          destruct (InputStore.w_last s c && _); reflexivity. }
      destruct (I3 Hfull') as [J1 J2]. split; [exact J1|].
      intros n low. rewrite J2.
      apply InputStore_full_buffer_frozen; assumption.
Qed.

Lemma InputStore_write_cycles_quiet (D : Z) (w : nat -> Z) (k n : nat) :
  Forall quiet (InputStore.write_cycles D w k n).
Proof.
  unfold InputStore.write_cycles. apply Forall_forall. intros c Hc.
  apply in_map_iff in Hc. destruct Hc as (j & <- & _). split; reflexivity.
Qed.

(** X16.  A pixel from the writer to the reader.  After the [D] words of a
    pixel have been written into the store, starting from reset, the reader
    is offered buffer 0 from the next clock edge on, and word [j] of the
    pixel is found in bank [j mod 4] at word address [j / 4] of that buffer.
    This stays so through any further cycles that neither restart the store
    nor end the reading, whatever is written or read in them. *)
Theorem InputStore_pixel_is_kept_for_the_reader
    (max_depth D : Z) (w : nat -> Z) (i : InputStore.inputs)
    (l : list InputStore.inputs) :
  2 <= InputStore.depth_width max_depth ->
  1 <= D < 2 ^ InputStore.depth_width max_depth ->
  Forall quiet (i :: l) ->
  InputStore.r_ready
    (InputStore.run max_depth
       (InputStore.run max_depth InputStore.reset
          (InputStore.write_cycles D w 0 (Z.to_nat D))) (i :: l)) = true /\
  InputStore.r_curr_buf
    (InputStore.run max_depth
       (InputStore.run max_depth InputStore.reset
          (InputStore.write_cycles D w 0 (Z.to_nat D))) (i :: l)) = false /\
  (forall j : nat, (j < Z.to_nat D)%nat ->
     InputStore.mem
       (InputStore.run max_depth
          (InputStore.run max_depth InputStore.reset
             (InputStore.write_cycles D w 0 (Z.to_nat D))) (i :: l))
       (Z.of_nat j mod 4)
       (InputStore.buf_addr max_depth (Z.of_nat j / 4) false)
     = Amaranth.unsigned 32 (w j)).
Proof.
  intros Hdw HD Hq.
  set (s1 := InputStore.run max_depth InputStore.reset
               (InputStore.write_cycles D w 0 (Z.to_nat D))).
  destruct (InputStore_fill_round_trip max_depth D w InputStore.reset
              Hdw HD eq_refl eq_refl) as (Hfull & _ & Hmem).
  fold s1 in Hfull, Hmem. cbn [InputStore.reset InputStore.w_curr_buf] in *.
  assert (Hreach : InputStore.reachable max_depth s1)
    by (apply InputStore_run_reachable; apply InputStore.reachable_reset).
  assert (Hbuf : InputStore.r_curr_buf s1 = false).
  { unfold s1.
    rewrite (proj1 (InputStore_quiet_run max_depth false _ Hdw
                      (InputStore_write_cycles_quiet D w 0 (Z.to_nat D))
                      InputStore.reset)).
    reflexivity. }
  destruct (InputStore_quiet_run max_depth false (i :: l) Hdw Hq s1)
    as (Q1 & _ & Q3).
  destruct (Q3 Hfull) as [_ Qmem].
  split; [|split].
  - inversion Hq as [|? ? [Hrs Hfin] Hql]; subst.
    cbn [InputStore.run fold_left].
    apply (InputStore_quiet_run max_depth false l Hdw Hql).
    destruct (InputStore_control_invariant max_depth s1 Hreach)
      as (_ & _ & H3).
    unfold InputStore.step. cbn [InputStore.r_ready].
    rewrite Hrs, Hfin. unfold InputStore.full_rose, InputStore.full.
    rewrite Hbuf, Hfull, H3.
    destruct (InputStore.r_ready s1); reflexivity.
  - rewrite Q1. exact Hbuf.
  - intros j Hj. rewrite Qmem. apply Hmem. exact Hj.
Qed.

(** A pixel of three words, 11, 22 and 33, in a store of depth 8: after one
    more cycle, which writes a word of the next pixel, the last word of the
    first pixel is in bank 2 at address 0. *)
Lemma InputStore_pixel_is_kept_for_the_reader_witness :
  InputStore.mem
    (InputStore.run 8
       (InputStore.run 8 InputStore.reset
          (InputStore.write_cycles 3
             (fun j => 11 * Z.of_nat (S j)) 0 (Z.to_nat 3)))
       [InputStore.write_cycle 3 44]) 2 0 = 33.
Proof.
  assert (Hdw : 2 <= InputStore.depth_width 8) by (vm_compute; discriminate).
  assert (HD : 1 <= 3 < 2 ^ InputStore.depth_width 8)
    by (vm_compute; split; [discriminate | reflexivity]).
  assert (Hq : Forall quiet [InputStore.write_cycle 3 44])
    by (repeat constructor).
  exact (proj2 (proj2
    (InputStore_pixel_is_kept_for_the_reader 8 3
       (fun j => 11 * Z.of_nat (S j)) (InputStore.write_cycle 3 44) []
       Hdw HD Hq)) 2%nat ltac:(cbn; lia)).
Defined.

(** ** store.py and mnv2_cfu.py: the depthwise gather of [InputStore] *)

(** The padding brings every row to two words more than a multiple of
    four. *)
Lemma Cfu_pad_row (input_width : Z) :
  (input_width + Cfu.pad input_width) mod 4 = 2 /\
  0 <= Cfu.pad input_width <= 3.
Proof.
  unfold Cfu.pad. rewrite slice_low by lia. change (2 ^ 2) with 4.
  pose proof (Z.mod_pos_bound input_width 4 ltac:(lia)).
  repeat match goal with
         | |- context [?a =? ?b] => destruct (Z.eqb_spec a b)
         end;
    (split; [|lia]); Z.to_euclidean_division_equations; lia.
Qed.

(** For a store whose depth is a power of two, the read side and the write
    side split a bank address at the same bit. *)
Lemma InputStore_widths (e : Z) :
  2 <= e ->
  InputStore.depth_width (2 ^ e) = e + 1 /\
  InputStoreRead.mem_addr_width (2 ^ e) = e - 1.
Proof.
  intros He. unfold InputStore.depth_width, InputStoreRead.mem_addr_width,
    Amaranth.bits_for.
  assert (H1 : 2 ^ e * 4 / 2 - 1 = Z.pred (2 ^ (e + 1))).
  { rewrite Z.pow_add_r by lia. change (2 ^ 1) with 2.
    replace (2 ^ e * 4) with (2 ^ e * 2 * 2) by lia.
    rewrite Z.div_mul by lia. lia. }
  assert (H2 : 2 ^ e / 2 - 1 = Z.pred (2 ^ (e - 1))).
  { replace e with (e - 1 + 1) at 1 by lia.
    rewrite Z.pow_add_r by lia. change (2 ^ 1) with 2.
    rewrite Z.div_mul by lia. lia. }
  rewrite H1, H2.
  assert (0 < Z.pred (2 ^ (e + 1))).
  { assert (2 ^ 1 <= 2 ^ (e + 1)) by (apply Z.pow_le_mono_r; lia).
    change (2 ^ 1) with 2 in *. lia. }
  assert (0 < Z.pred (2 ^ (e - 1))).
  { assert (2 ^ 1 <= 2 ^ (e - 1)) by (apply Z.pow_le_mono_r; lia).
    change (2 ^ 1) with 2 in *. lia. }
  rewrite !(proj2 (Z.leb_gt _ _)) by lia.
  rewrite !Z.log2_pred_pow2 by lia. lia.
Qed.

(** Word [k] of [tmp2] comes from bank [smr_no_d + k], modulo four. *)
Lemma InputStore_tmp2_word
    (s : InputStore.data_state) (i : InputStore.data_inputs) (k : Z) :
  0 <= InputStore.smr_no_d s < 4 -> 0 <= k < 4 ->
  Words.word 32 (InputStore.tmp2 s i) k =
  Amaranth.unsigned 32
    (nth (Z.to_nat ((InputStore.smr_no_d s + k) mod 4))
         (InputStore.smr_mem_datas i) 0).
Proof.
  intros Hc Hk. unfold InputStore.tmp2.
  apply four_cases in Hc. apply four_cases in Hk.
  destruct Hc as [-> | [-> | [-> | ->]]];
    destruct Hk as [-> | [-> | [-> | ->]]];
    cbn [Z.eqb Pos.eqb];
    match goal with
    | |- Words.word 32 (InputStore.Cat32 ?l) ?k = _ =>
        change (InputStore.Cat32 l) with (Words.cat 32 l);
        change k with (Z.of_nat (Z.to_nat k));
        rewrite word_cat by (cbn; lia)
    end; reflexivity.
Qed.

Lemma nth_banks (f : Z -> Z) (n : Z) :
  0 <= n < 4 -> nth (Z.to_nat n) (map f [0; 1; 2; 3]) 0 = f n.
Proof.
  intros H. apply four_cases in H.
  destruct H as [-> | [-> | [-> | ->]]]; reflexivity.
Qed.

Ltac euclid := Z.to_euclidean_division_equations; lia.

(** With rows of two words more than a multiple of four, the four words of
    a 2x2 neighbourhood lie in four different banks, and each bank is given
    the address of its word. *)
Lemma InputStoreRead_bank_address
    (max_depth : Z) (s : InputStore.state) (i : InputStore.inputs) (j : Z) :
  InputStore.switch_PorD i = true ->
  InputStoreRead.row i mod 4 = 2 ->
  0 <= InputStore.r_addr s -> 0 <= InputStoreRead.row i ->
  j = InputStoreRead.position s i \/
  j = InputStoreRead.position s i + 1 \/
  j = InputStoreRead.position s i + InputStoreRead.row i \/
  j = InputStoreRead.position s i + InputStoreRead.row i + 1 ->
  InputStoreRead.mem_addrs max_depth s i (j mod 4) =
  Amaranth.unsigned (InputStoreRead.mem_addr_width max_depth) (j / 4).
Proof.
  intros Hmode Hrow Hr HR Hj.
  unfold InputStoreRead.mem_addrs, InputStoreRead.mem_addr_writes.
  unfold InputStoreRead.position in Hj.
  set (R := InputStoreRead.row i) in *.
  set (r := InputStore.r_addr s) in *.
  destruct (InputStore.r_accept s i); rewrite ?Hmode;
    cbn [negb fold_left fst snd];
    rewrite ?low2_mod, ?Z.shiftr_div_pow2 by lia; change (2 ^ 2) with 4;
    destruct Hj as [-> | [-> | [-> | ->]]];
    repeat match goal with
           | |- context [if ?a =? ?b then _ else _] =>
               destruct (Z.eqb_spec a b)
           end;
    try (exfalso; euclid); f_equal; euclid.
Qed.

(** X17.  The depthwise gather.  In depthwise mode, with the padding the
    CFU computes from the input width, a cycle of the store presents the
    four banks with the addresses of a 2x2 neighbourhood of words: the word
    at the read position, the one after it, and the two a row below them
    (the read position is the read address when the read is accepted, and
    the start of the buffer otherwise).  One cycle later, when the banks
    deliver, the rotation by [smr_no_d] has put them in this order into
    [tmp], whichever banks they came from: word [k] of [tmp] is the word
    the writer stored at position [p + k mod 2 + row * (k / 2)]. *)
Theorem InputStore_depthwise_gathers_2x2_neighbourhood
    (e D : Z) (v : Z -> Z) (s : InputStore.state) (i : InputStore.inputs)
    (ds : InputStore.data_state) (readers banks : list Z)
    (next : InputStore.data_inputs) (k : Z) :
  2 <= e ->
  InputStore.switch_PorD i = true ->
  0 <= InputStore.input_width i ->
  InputStore.pad i = Cfu.pad (InputStore.input_width i) ->
  0 <= InputStore.r_addr s ->
  InputStoreRead.holds (2 ^ e) s (InputStore.r_curr_buf s) D v ->
  InputStoreRead.position s i + InputStoreRead.row i + 1 < D <= 2 ^ (e + 1) ->
  InputStore.smr_mem_datas next = InputStoreRead.read_data (2 ^ e) s i ->
  InputStore.d_switch_PorD next = true ->
  0 <= k < 4 ->
  Words.word 32
    (InputStore.tmp
       (InputStore.data_step ds (InputStoreRead.data_in s i readers banks))
       next) k =
  Amaranth.unsigned 32
    (v (InputStoreRead.position s i + k mod 2 + InputStoreRead.row i * (k / 2))).
Proof.
  intros He Hmode Hw Hpad Hr Hholds HD Hnext Hnmode Hk.
  destruct (InputStore_widths e He) as [Hdw Hmw].
  destruct (Cfu_pad_row (InputStore.input_width i)) as [Hrow Hpadb].
  rewrite <- Hpad in Hrow, Hpadb.
  fold (InputStoreRead.row i) in Hrow.
  assert (HR : 0 <= InputStoreRead.row i)
    by (unfold InputStoreRead.row; lia).
  set (R := InputStoreRead.row i) in *.
  set (p := InputStoreRead.position s i) in *.
  assert (Hp : 0 <= p)
    by (unfold p, InputStoreRead.position;
        destruct (InputStore.r_accept s i); lia).
  set (j := p + k mod 2 + R * (k / 2)).
  assert (Hj : j = p \/ j = p + 1 \/ j = p + R \/ j = p + R + 1).
  { unfold j. apply four_cases in Hk.
    destruct Hk as [-> | [-> | [-> | ->]]]; cbn; lia. }
  assert (Hjb : 0 <= j < D) by lia.
  (* the rotation *)
  unfold InputStore.tmp. rewrite Hnmode. cbn [negb].
  assert (Hno : InputStore.smr_no_d
                  (InputStore.data_step ds
                     (InputStoreRead.data_in s i readers banks)) = p mod 4).
  { unfold InputStore.data_step, InputStoreRead.data_in.
    cbn [InputStore.smr_no_d InputStore.d_r_accept InputStore.r_addr_low].
    unfold p, InputStoreRead.position. rewrite low2_mod.
    destruct (InputStore.r_accept s i); reflexivity. }
  rewrite InputStore_tmp2_word
    by (rewrite ?Hno; try apply Z.mod_pos_bound; lia).
  rewrite Hno, Hnext. f_equal.
  assert (Hjk : (p mod 4 + k) mod 4 = j mod 4).
  { unfold j. pose proof Hk as Hk'. apply four_cases in Hk'.
    destruct Hk' as [E | [E | [E | E]]]; rewrite E;
      [ change (0 mod 2) with 0; change (0 / 2) with 0
      | change (1 mod 2) with 1; change (1 / 2) with 0
      | change (2 mod 2) with 0; change (2 / 2) with 1
      | change (3 mod 2) with 1; change (3 / 2) with 1 ]; euclid. }
  rewrite Hjk.
  unfold InputStoreRead.read_data.
  rewrite nth_banks by (apply Z.mod_pos_bound; lia).
  (* the address *)
  unfold InputStoreRead.dp_r_addr.
  rewrite InputStoreRead_bank_address by assumption.
  rewrite unsigned_fits.
  - rewrite <- (Hholds j Hjb). f_equal.
    unfold InputStore.buf_addr. rewrite Hdw, Hmw. f_equal. lia.
  - unfold Amaranth.fits_unsigned. rewrite Hmw.
    assert (Hpow : 2 ^ (e + 1) = 4 * 2 ^ (e - 1)).
    { replace (e + 1) with (2 + (e - 1)) by lia.
      rewrite Z.pow_add_r by lia. reflexivity. }
    split; [apply Z.div_pos; lia|].
    apply Z.div_lt_upper_bound; lia.
Qed.

(** The sample store read at word 1 in rows of six words: the third word of
    [tmp] is word 7 of the buffer, the one below word 1. *)
Lemma InputStore_depthwise_gathers_2x2_neighbourhood_witness :
  Words.word 32
    (InputStore.tmp
       (InputStore.data_step InputStore.data_reset
          (InputStoreRead.data_in InputStoreRead.sample_store
             InputStoreRead.sample_read [0; 0; 0; 0] [0; 0; 0; 0]))
       InputStoreRead.sample_next) 2 = 107.
Proof.
  assert (Hholds : InputStoreRead.holds (2 ^ 3) InputStoreRead.sample_store
                     (InputStore.r_curr_buf InputStoreRead.sample_store) 12
                     (fun j => 100 + j)).
  { intros j Hj.
    assert (Hc : j = 0 \/ j = 1 \/ j = 2 \/ j = 3 \/ j = 4 \/ j = 5 \/
                 j = 6 \/ j = 7 \/ j = 8 \/ j = 9 \/ j = 10 \/ j = 11) by lia.
    repeat (destruct Hc as [-> | Hc]; [vm_compute; reflexivity|]).
    subst j. vm_compute. reflexivity. }
  rewrite (InputStore_depthwise_gathers_2x2_neighbourhood 3 12
             (fun j => 100 + j) InputStoreRead.sample_store
             InputStoreRead.sample_read InputStore.data_reset
             [0; 0; 0; 0] [0; 0; 0; 0] InputStoreRead.sample_next 2
             ltac:(lia) eq_refl ltac:(cbn; lia) eq_refl ltac:(cbn; lia)
             Hholds ltac:(vm_compute; split; [reflexivity | discriminate])
             eq_refl eq_refl ltac:(lia)).
  vm_compute. reflexivity.
Defined.

(** ** mnv2_cfu.py: a parameter store *)

Section ParamStoreFacts.

Variables (depth : Z) (w : nat -> Z) (n : nat).
Hypothesis words_fit : 1 <= Z.of_nat n <= depth - 1.

(** After [k] of the [n] words have been stored: the count, the read
    address, and the words in place. *)
Lemma ParamStore_after_stores (k : nat) :
  (k <= n)%nat ->
  StoreSetter.count
    (ParamStore.psset
       (ParamStore.run depth ParamStore.reset (ParamStore.store_words w k)))
    = Z.of_nat k /\
  CircularIncrementer.last_addr
    (ParamStore.inc
       (ParamStore.run depth ParamStore.reset (ParamStore.store_words w k)))
    = 0 /\
  (forall a : nat, (a < k)%nat ->
     ParamStore.mem
       (ParamStore.run depth ParamStore.reset (ParamStore.store_words w k))
       (Z.of_nat a) = Amaranth.unsigned 32 (w a)).
Proof.
  induction k as [|k IH]; intros Hk.
  - cbn. repeat split; try reflexivity. intros a Ha. lia.
  - destruct (IH ltac:(lia)) as (Hc & Ha & Hm).
    unfold ParamStore.store_words, ParamStore.run in *.
    rewrite seq_S, map_app, fold_left_app. cbn [map fold_left Nat.add].
    set (s := fold_left (ParamStore.step depth)
                (map (fun j => ParamStore.store_word (w j)) (seq 0 k))
                ParamStore.reset) in *.
    assert (Hroom : 0 <= StoreSetter.count (ParamStore.psset s) <
                    StoreSetter.depth (ParamStore.params depth) *
                    StoreSetter.num_memories (ParamStore.params depth)).
    { rewrite Hc. cbn. lia. }
    assert (Hbits : 0 <= StoreSetter.num_memories_bits (ParamStore.params depth))
      by (cbn; lia).
    cbn [ParamStore.step ParamStore.psset ParamStore.inc ParamStore.mem].
    split; [|split].
    + unfold StoreSetter.step. cbn [ParamStore.set_in ParamStore.store_word
        StoreSetter.restart StoreSetter.start StoreSetter.count].
      rewrite StoreSetter_count_succ by assumption.
      cbn [ParamStore.store_word ParamStore.restart ParamStore.start]. lia.
    + unfold CircularIncrementer.step, CircularIncrementer.r_addr.
      cbn [CircularIncrementer.last_addr]. exact Ha.
    + intros a Hlt. unfold StoreSetter.write_port, StoreSetter.w_en,
        StoreSetter.writing, StoreSetter.w_data.
      cbn [ParamStore.set_in ParamStore.store_word StoreSetter.restart
           StoreSetter.start StoreSetter.in0 ParamStore.restart
           ParamStore.start ParamStore.in0 negb andb].
      rewrite StoreSetter_bank, StoreSetter_w_addr by assumption.
      change (StoreSetter.num_memories (ParamStore.params depth)) with 1.
      rewrite Z.mod_1_r, Z.div_1_r, Hc. cbn [Z.eqb andb].
      destruct (Z.eqb_spec (Z.of_nat a) (Z.of_nat k)) as [E|N].
      * apply Nat2Z.inj in E. subst a. reflexivity.
      * apply Hm. lia.
Qed.

(** The read side afterwards: [m] requests for the next parameter. *)
Lemma ParamStore_after_advances (m : nat) :
  StoreSetter.count
    (ParamStore.psset
       (ParamStore.run depth ParamStore.reset
          (ParamStore.store_words w n ++ repeat ParamStore.advance m)))
    = Z.of_nat n /\
  CircularIncrementer.last_addr
    (ParamStore.inc
       (ParamStore.run depth ParamStore.reset
          (ParamStore.store_words w n ++ repeat ParamStore.advance m)))
    = Z.of_nat m mod Z.of_nat n /\
  (forall a : nat, (a < n)%nat ->
     ParamStore.mem
       (ParamStore.run depth ParamStore.reset
          (ParamStore.store_words w n ++ repeat ParamStore.advance m))
       (Z.of_nat a) = Amaranth.unsigned 32 (w a)).
Proof.
  pose proof (CircularIncrementer_limit_below_depth depth (Z.of_nat n)
                words_fit) as HL.
  induction m as [|m IH].
  - rewrite app_nil_r.
    destruct (ParamStore_after_stores n ltac:(lia)) as (Hc & Ha & Hm).
    split; [exact Hc|]. split; [|exact Hm].
    rewrite Ha. symmetry. apply Z.mod_0_l. lia.
  - destruct IH as (Hc & Ha & Hm).
    replace (repeat ParamStore.advance (S m))
      with (repeat ParamStore.advance m ++ [ParamStore.advance])
      by (rewrite <- repeat_cons; reflexivity).
    unfold ParamStore.run in *. rewrite app_assoc, fold_left_app.
    set (s := fold_left (ParamStore.step depth)
                (ParamStore.store_words w n ++ repeat ParamStore.advance m)
                ParamStore.reset) in *.
    cbn [fold_left ParamStore.step ParamStore.psset ParamStore.inc
         ParamStore.mem].
    split; [|split].
    + unfold StoreSetter.step. cbn. exact Hc.
    + unfold CircularIncrementer.step. cbn [CircularIncrementer.last_addr].
      assert (Hlim : CircularIncrementer.limit
                       (ParamStore.inc_in depth s ParamStore.advance)
                     = Z.of_nat n).
      { cbn [ParamStore.inc_in CircularIncrementer.limit]. rewrite Hc.
        apply unsigned_fits. unfold Amaranth.fits_unsigned. lia. }
      pose proof (Z.mod_pos_bound (Z.of_nat m) (Z.of_nat n) ltac:(lia)) as Hb.
      destruct (CircularIncrementer_step_below depth (Z.of_nat n) HL
                  (ParamStore.inc s)
                  (ParamStore.inc_in depth s ParamStore.advance) Hlim
                  ltac:(rewrite Ha; lia)) as [_ Hnext].
      rewrite (Hnext eq_refl eq_refl), Ha.
      replace (Z.of_nat (S m)) with (Z.of_nat m + 1) by lia.
      rewrite <- (Z.add_mod_idemp_l (Z.of_nat m)) by lia.
      destruct (Z.eqb_spec (Z.of_nat m mod Z.of_nat n) (Z.of_nat n - 1))
        as [E|N].
      * rewrite E. replace (Z.of_nat n - 1 + 1) with (Z.of_nat n) by lia.
        symmetry. apply Z.mod_same. lia.
      * symmetry. apply Z.mod_small. lia.
    + intros a Hlt. unfold StoreSetter.write_port, StoreSetter.w_en,
        StoreSetter.writing.
      cbn [ParamStore.set_in ParamStore.advance StoreSetter.restart
           StoreSetter.start ParamStore.restart ParamStore.start negb andb].
      apply Hm. exact Hlt.
Qed.

End ParamStoreFacts.

(** X18.  A parameter store gives its words back in the order they were
    stored, circularly.  After [n] words have been stored (at least one, and
    fewer than the depth) and the next parameter has been asked for [m]
    times, the address presented to the memory is [m mod n] and the word
    stored there is word [m mod n]; a further request presents the address
    of word [(m + 1) mod n]. *)
Theorem ParamStore_reads_back_in_order
    (depth : Z) (w : nat -> Z) (n m : nat) :
  1 <= Z.of_nat n <= depth - 1 ->
  ParamStore.r_addr depth
    (ParamStore.run depth ParamStore.reset
       (ParamStore.store_words w n ++ repeat ParamStore.advance m))
    ParamStore.idle = Z.of_nat (m mod n) /\
  ParamStore.mem
    (ParamStore.run depth ParamStore.reset
       (ParamStore.store_words w n ++ repeat ParamStore.advance m))
    (Z.of_nat (m mod n)) = Amaranth.unsigned 32 (w (m mod n)%nat) /\
  ParamStore.r_addr depth
    (ParamStore.run depth ParamStore.reset
       (ParamStore.store_words w n ++ repeat ParamStore.advance m))
    ParamStore.advance = Z.of_nat (S m mod n).
Proof.
  intros Hn.
  destruct (ParamStore_after_advances depth w n Hn m) as (Hc & Ha & Hm).
  destruct (ParamStore_after_advances depth w n Hn (S m)) as (_ & Ha' & _).
  assert (Hmod : forall x : nat,
            Z.of_nat x mod Z.of_nat n = Z.of_nat (x mod n)).
  { intros x. rewrite Nat2Z.inj_mod. reflexivity. }
  split; [|split].
  - unfold ParamStore.r_addr, CircularIncrementer.r_addr.
    cbn [ParamStore.inc_in ParamStore.idle CircularIncrementer.restart
         CircularIncrementer.next].
    rewrite Ha. apply Hmod.
  - apply Hm. apply Nat.mod_upper_bound. lia.
  - rewrite <- Hmod, <- Ha'.
    replace (repeat ParamStore.advance (S m))
      with (repeat ParamStore.advance m ++ [ParamStore.advance])
      by (rewrite <- repeat_cons; reflexivity).
    unfold ParamStore.run. rewrite app_assoc.
    rewrite (fold_left_app _
               (ParamStore.store_words w n ++ repeat ParamStore.advance m)
               [ParamStore.advance]).
    reflexivity.
Qed.

(** Three words in a store of depth 8: after four requests the word at the
    presented address is the second of them. *)
Lemma ParamStore_reads_back_in_order_witness :
  ParamStore.mem
    (ParamStore.run 8 ParamStore.reset
       (ParamStore.store_words (fun j => 10 + Z.of_nat j) 3 ++
        repeat ParamStore.advance 4)) 1 = 11.
Proof.
  exact (proj1 (proj2
    (ParamStore_reads_back_in_order 8 (fun j => 10 + Z.of_nat j) 3 4
       ltac:(lia)))).
Defined.

(** ** store.py: the read position of [FilterValueFetcher] over a run *)

Lemma bits_for_pos (n : Z) : 1 <= Amaranth.bits_for n.
Proof.
  unfold Amaranth.bits_for. destruct (Z.leb_spec n 0); [lia|].
  pose proof (Z.log2_nonneg n). lia.
Qed.

Lemma FilterValueFetcher_run_from
    (max_depth L : Z) (mode : bool) (l : list FilterValueFetcher.inputs) :
  let st := FilterValueFetcher.stride mode in
  st <= L < 2 ^ FilterValueFetcher.limit_width max_depth ->
  L mod st = 0 ->
  Forall (FilterValueFetcherRun.steady L mode) l ->
  forall (s : FilterValueFetcher.state) (q : Z),
  FilterValueFetcher.r_addr s = st * q -> 0 <= st * q < L ->
  FilterValueFetcher.r_addr (FilterValueFetcher.run max_depth s l) =
  (st * (q + Z.of_nat (FilterValueFetcherRun.pulses l))) mod L.
Proof.
  intros st HL Hdiv Hall.
  assert (Hst : st = 2 \/ st = 3) by (unfold st; destruct mode; cbn; lia).
  induction Hall as [|c l (Hlim & Hrs & Hmode) _ IH]; intros s q Hr Hq.
  - cbn. rewrite Z.add_0_r, <- Hr. symmetry. apply Z.mod_small. lia.
  - change (FilterValueFetcher.run max_depth s (c :: l))
      with (FilterValueFetcher.run max_depth
              (FilterValueFetcher.step max_depth s c) l).
    unfold FilterValueFetcherRun.pulses. cbn [filter].
    destruct (FilterValueFetcher.next c) eqn:Hn.
    + assert (Hstep : FilterValueFetcher.r_addr
                        (FilterValueFetcher.step max_depth s c) =
                      if st * q =? L - st then 0 else st * (q + 1)).
      { unfold FilterValueFetcher.step. rewrite Hrs, Hn, Hmode, Hlim, Hr.
        cbn [FilterValueFetcher.r_addr].
        assert (Hnowrap : st * q <> L - st ->
                  Amaranth.unsigned (FilterValueFetcher.limit_width max_depth)
                    (st * q + st) = st * (q + 1)).
        { intros Hne. rewrite unsigned_fits; [lia|].
          unfold Amaranth.fits_unsigned.
          destruct Hst as [E|E]; rewrite E in *; euclid. }
        unfold st in *.
        destruct mode; cbn [negb FilterValueFetcher.stride] in *.
        - destruct (Z.eqb_spec (3 * q) (L - 3));
            [reflexivity | apply Hnowrap; assumption].
        - destruct (Z.eqb_spec (2 * q) (L - 2));
            [reflexivity | apply Hnowrap; assumption]. }
      change (length (c :: filter FilterValueFetcher.next l))
        with (S (FilterValueFetcherRun.pulses l)).
      destruct (Z.eqb_spec (st * q) (L - st)) as [E|N].
      * rewrite (IH _ 0) by (rewrite ?Hstep; lia).
        replace (st * (q + Z.of_nat (S (FilterValueFetcherRun.pulses l))))
          with (st * (0 + Z.of_nat (FilterValueFetcherRun.pulses l)) + 1 * L)
          by lia.
        rewrite Z.mod_add by lia. reflexivity.
      * rewrite (IH _ (q + 1)).
        -- f_equal. lia.
        -- exact Hstep.
        -- destruct Hst as [E|E]; rewrite E in *; euclid.
    + assert (Hstep : FilterValueFetcher.r_addr
                        (FilterValueFetcher.step max_depth s c) = st * q).
      { unfold FilterValueFetcher.step. rewrite Hrs, Hn. exact Hr. }
      rewrite (IH _ q Hstep Hq). reflexivity.
Qed.

(** X19.  With a number [L] of filter words that is a multiple of the
    stride of the mode (2 in pointwise, 3 in depthwise mode), the read
    position goes round the stored words: from reset, after any cycles of
    one mode without restart, it is the stride times the number of [next]
    pulses, modulo [L]. *)
Theorem FilterValueFetcher_position_goes_round
    (max_depth L : Z) (mode : bool) (l : list FilterValueFetcher.inputs) :
  FilterValueFetcher.stride mode <= L
    < 2 ^ FilterValueFetcher.limit_width max_depth ->
  L mod FilterValueFetcher.stride mode = 0 ->
  Forall (FilterValueFetcherRun.steady L mode) l ->
  FilterValueFetcher.r_addr
    (FilterValueFetcher.run max_depth FilterValueFetcher.reset l) =
  (FilterValueFetcher.stride mode * Z.of_nat (FilterValueFetcherRun.pulses l))
    mod L.
Proof.
  intros HL Hdiv Hall.
  rewrite (FilterValueFetcher_run_from max_depth L mode l HL Hdiv Hall
             FilterValueFetcher.reset 0).
  - reflexivity.
  - cbn. lia.
  - assert (0 < FilterValueFetcher.stride mode) by (destruct mode; cbn; lia).
    lia.
Qed.

(** Nine filter words in depthwise mode: the fourth pulse finds the
    position back at word 0 and moves it to word 3. *)
Lemma FilterValueFetcher_position_goes_round_witness :
  FilterValueFetcher.r_addr
    (FilterValueFetcher.run 512 FilterValueFetcher.reset
       (repeat (FilterValueFetcherRun.pulse 9 true) 4)) = 3.
Proof.
  assert (Hall : Forall (FilterValueFetcherRun.steady 9 true)
                   (repeat (FilterValueFetcherRun.pulse 9 true) 4))
    by (repeat constructor).
  rewrite (FilterValueFetcher_position_goes_round 512 9 true _
             ltac:(vm_compute; split; [discriminate | reflexivity])
             eq_refl Hall).
  reflexivity.
Defined.

(** X20.  With an odd number of filter words the pointwise read position
    never wraps at the limit: it stays even, so it never stands at
    [limit - 2]; it runs on through the whole range of its register, past
    the stored words, and only the width of the register brings it back. *)
Theorem FilterValueFetcher_odd_limit_is_overrun
    (max_depth L : Z) (l : list FilterValueFetcher.inputs) :
  Z.odd L = true ->
  Forall (FilterValueFetcherRun.steady L false) l ->
  FilterValueFetcher.r_addr
    (FilterValueFetcher.run max_depth FilterValueFetcher.reset l) =
  (2 * Z.of_nat (FilterValueFetcherRun.pulses l))
    mod 2 ^ FilterValueFetcher.limit_width max_depth.
Proof.
  intros Hodd Hall.
  set (w := FilterValueFetcher.limit_width max_depth).
  assert (Hw : 1 <= w) by apply bits_for_pos.
  assert (Hp : 2 ^ w = 2 * 2 ^ (w - 1)).
  { replace w with (1 + (w - 1)) at 1 by lia.
    rewrite Z.pow_add_r by lia. reflexivity. }
  assert (Hpos : 0 < 2 ^ (w - 1)) by (apply Z.pow_pos_nonneg; lia).
  apply Z.odd_spec in Hodd. destruct Hodd as [h Hh].
  assert (Hgen : forall (s : FilterValueFetcher.state) (q : Z),
            FilterValueFetcher.r_addr s = (2 * q) mod 2 ^ w ->
            FilterValueFetcher.r_addr (FilterValueFetcher.run max_depth s l) =
            (2 * (q + Z.of_nat (FilterValueFetcherRun.pulses l))) mod 2 ^ w).
  { induction Hall as [|c l (Hlim & Hrs & Hmode) _ IH]; intros s q Hr.
    - cbn. rewrite Z.add_0_r. exact Hr.
    - change (FilterValueFetcher.run max_depth s (c :: l))
        with (FilterValueFetcher.run max_depth
                (FilterValueFetcher.step max_depth s c) l).
      unfold FilterValueFetcherRun.pulses. cbn [filter].
      destruct (FilterValueFetcher.next c) eqn:Hn.
      + change (length (c :: filter FilterValueFetcher.next l))
          with (S (FilterValueFetcherRun.pulses l)).
        rewrite (IH _ (q + 1)); [f_equal; lia|].
        unfold FilterValueFetcher.step. rewrite Hrs, Hn, Hmode, Hlim.
        cbn [negb FilterValueFetcher.r_addr]. fold w.
        destruct (Z.eqb_spec (FilterValueFetcher.r_addr s) (L - 2)) as [E|N].
        * exfalso.
          assert (Hev : (2 * q) mod 2 ^ w = 2 * (q mod 2 ^ (w - 1)))
            by (rewrite Hp; apply Z.mul_mod_distr_l; lia).
          lia.
        * unfold Amaranth.unsigned. rewrite Hr.
          rewrite Z.add_mod_idemp_l by lia. f_equal. lia.
      + rewrite (IH _ q); [reflexivity|].
        unfold FilterValueFetcher.step. rewrite Hrs, Hn. exact Hr. }
  rewrite (Hgen FilterValueFetcher.reset 0); [reflexivity|].
  cbn [FilterValueFetcher.reset FilterValueFetcher.r_addr].
  change (2 * 0) with 0. symmetry. apply Z.mod_0_l. lia.
Qed.

(** Five filter words in pointwise mode: three pulses leave the position at
    word 6, beyond the stored words. *)
Lemma FilterValueFetcher_odd_limit_is_overrun_witness :
  FilterValueFetcher.r_addr
    (FilterValueFetcher.run 512 FilterValueFetcher.reset
       (repeat (FilterValueFetcherRun.pulse 5 false) 3)) = 6.
Proof.
  assert (Hall : Forall (FilterValueFetcherRun.steady 5 false)
                   (repeat (FilterValueFetcherRun.pulse 5 false) 3))
    by (repeat constructor).
  rewrite (FilterValueFetcher_odd_limit_is_overrun 512 5 _ eq_refl Hall).
  reflexivity.
Defined.

(** ** mul.py: [AccOrTrans] over a pixel *)

Lemma signed_add_idemp (w x y : Z) :
  0 < w -> Amaranth.signed w (Amaranth.signed w x + y) = Amaranth.signed w (x + y).
Proof.
  intros Hw. unfold Amaranth.signed.
  replace ((x + 2 ^ (w - 1)) mod 2 ^ w - 2 ^ (w - 1) + y + 2 ^ (w - 1))
    with ((x + 2 ^ (w - 1)) mod 2 ^ w + y) by lia.
  rewrite Z.add_mod_idemp_l by (apply Z.pow_nonzero; lia).
  f_equal. f_equal. lia.
Qed.

(** X21.  Over the cycles of a pixel (pointwise, no clear) the accumulator
    ends up with its starting value plus all the partial sums added, wrapped
    to 32 bits once: wrapping at every addition gives the same as wrapping
    at the end, so an overflow in between does no harm when the total fits,
    and the total is then exact. *)
Theorem AccOrTrans_accumulates_modulo_2_32
    (s : AccOrTrans.state) (l : list AccOrTrans.inputs) :
  Amaranth.fits_signed 32 (AccOrTrans.accumulator s) ->
  Forall AccOrTransRun.accumulating l ->
  AccOrTrans.accumulator (AccOrTransRun.run s l) =
    Amaranth.signed 32 (AccOrTrans.accumulator s + AccOrTransRun.added s l) /\
  (Amaranth.fits_signed 32
     (AccOrTrans.accumulator s + AccOrTransRun.added s l) ->
   AccOrTrans.accumulator (AccOrTransRun.run s l) =
   AccOrTrans.accumulator s + AccOrTransRun.added s l).
Proof.
  intros Hfit Hall.
  assert (Hacc : AccOrTrans.accumulator (AccOrTransRun.run s l) =
                 Amaranth.signed 32
                   (AccOrTrans.accumulator s + AccOrTransRun.added s l)).
  { revert s Hfit.
    induction Hall as [|i l [Hmode Hclear] _ IH]; intros s Hfit.
    - cbn. rewrite Z.add_0_r. symmetry. apply signed_fits; [lia | exact Hfit].
    - change (AccOrTransRun.run s (i :: l))
        with (AccOrTransRun.run (AccOrTrans.step s i) l).
      cbn [AccOrTransRun.added].
      assert (Hstep : AccOrTrans.accumulator (AccOrTrans.step s i) =
                      Amaranth.signed 32
                        (AccOrTrans.accumulator s +
                         (if AccOrTrans.add_en i then AccOrTrans.add_sum s
                          else 0))).
      { unfold AccOrTrans.step, AccOrTrans.acc_plus_sum.
        rewrite Hmode, Hclear. cbn [negb AccOrTrans.accumulator].
        destruct (AccOrTrans.add_en i); [reflexivity|].
        rewrite Z.add_0_r. symmetry. apply signed_fits; [lia | exact Hfit]. }
      rewrite IH by (rewrite Hstep; apply signed_range; lia).
      rewrite Hstep, signed_add_idemp by lia. f_equal. lia. }
  split; [exact Hacc|].
  intros Htotal. rewrite Hacc. apply signed_fits; [lia | exact Htotal].
Qed.

(** Thirty-three partial sums of 8 * (2 ^ 23 - 1) added to an accumulator
    that starts at -2 ^ 31: the total fits, and is exact. *)
Lemma AccOrTrans_accumulates_modulo_2_32_witness :
  AccOrTrans.accumulator
    (AccOrTransRun.run
       {| AccOrTrans.add_sum := 67108856; AccOrTrans.accumulator := - 2147483648;
          AccOrTrans.Y := []; AccOrTrans.Y_tmp := [];
          AccOrTrans.late_in_values := [] |}
       (repeat AccOrTransRun.large 33)) = 67108600.
Proof.
  refine (proj1 (AccOrTrans_accumulates_modulo_2_32
                   {| AccOrTrans.add_sum := 67108856;
                      AccOrTrans.accumulator := - 2147483648;
                      AccOrTrans.Y := []; AccOrTrans.Y_tmp := [];
                      AccOrTrans.late_in_values := [] |}
                   (repeat AccOrTransRun.large 33) _ _)).
  - unfold Amaranth.fits_signed. cbn. lia.
  - repeat constructor.
Defined.

(** ** store.py: [InputStore], the depthwise read positions *)

(** While the reader is not offered a buffer, the row counter is at 0. *)
Lemma InputStore_idle_row_counter (max_depth : Z) (s : InputStore.state) :
  InputStore.reachable max_depth s ->
  InputStore.r_ready s = false ->
  UpCounter.count (InputStore.input_width_count s) = 0.
Proof.
  induction 1 as [|s i _ IH]; [reflexivity|].
  unfold InputStore.step.
  cbn [InputStore.r_ready InputStore.input_width_count].
  unfold UpCounter.step, InputStore.input_width_count_in.
  cbn [UpCounter.restart UpCounter.en UpCounter.count].
  destruct (InputStore.restart i); [reflexivity|].
  destruct (InputStore.r_finished i); [reflexivity|].
  cbn [orb]. destruct (InputStore.full_rose s); [discriminate|].
  intros Hr. cbn [andb]. unfold InputStore.r_accept. rewrite Hr.
  rewrite andb_false_r. apply IH. exact Hr.
Qed.

Lemma tile_position_next (W P k : Z) :
  3 <= W -> 0 <= k ->
  InputStoreScan.tile_position W P (k + 1) =
  (if k mod (W - 1) =? W - 2
   then InputStoreScan.tile_position W P k + P + 2
   else InputStoreScan.tile_position W P k + 1) /\
  (k + 1) mod (W - 1) =
  (if k mod (W - 1) =? W - 2 then 0 else k mod (W - 1) + 1).
Proof.
  intros HW Hk. unfold InputStoreScan.tile_position.
  set (m := W - 1). assert (Hm : 2 <= m) by (unfold m; lia).
  pose proof (Z.div_mod k m ltac:(lia)) as Hdm.
  pose proof (Z.mod_pos_bound k m ltac:(lia)) as Hb.
  replace (W - 2) with (m - 1) by (unfold m; lia).
  destruct (Z.eqb_spec (k mod m) (m - 1)) as [E|N].
  - assert (Hq : (k + 1) / m = k / m + 1).
    { symmetry. apply (Z.div_unique (k + 1) m (k / m + 1) 0); lia. }
    assert (Hr : (k + 1) mod m = 0).
    { symmetry. apply (Z.mod_unique (k + 1) m (k / m + 1) 0); lia. }
    rewrite Hq, Hr, E. split; [unfold m; lia | reflexivity].
  - assert (Hq : (k + 1) / m = k / m).
    { symmetry. apply (Z.div_unique (k + 1) m (k / m) (k mod m + 1)); lia. }
    assert (Hr : (k + 1) mod m = k mod m + 1).
    { symmetry. apply (Z.mod_unique (k + 1) m (k / m) (k mod m + 1)); lia. }
    rewrite Hq, Hr. split; [lia | reflexivity].
Qed.

Section Scan.

Variables (max_depth W P : Z).
Hypothesis width_ok : 3 <= W <= 256.

Local Abbreviation dw := (InputStore.depth_width max_depth).

(** One cycle of a pass that stands at tile [k]. *)
Lemma InputStore_scan_step
    (s : InputStore.state) (c : InputStore.inputs) (k : Z) :
  InputStore.reachable max_depth s ->
  InputStoreScan.scanning W P c ->
  InputStore.r_ready s = true ->
  1 <= k ->
  InputStore.r_addr s = InputStoreScan.tile_position W P k ->
  UpCounter.count (InputStore.input_width_count s) = k mod (W - 1) ->
  0 <= InputStoreScan.tile_position W P (k + 1) < 2 ^ dw ->
  let k' := if InputStore.r_next c then k + 1 else k in
  InputStore.r_ready (InputStore.step max_depth s c) = true /\
  InputStore.r_addr (InputStore.step max_depth s c) =
    InputStoreScan.tile_position W P k' /\
  UpCounter.count (InputStore.input_width_count (InputStore.step max_depth s c))
    = k' mod (W - 1).
Proof.
  intros Hreach (Hrs & Hfin & Hmode & Hw & Hp) Hready Hk Haddr Hcount Hfit k'.
  destruct (InputStore_control_invariant max_depth s Hreach) as (_ & _ & H3).
  assert (Hrose : InputStore.full_rose s = false).
  { unfold InputStore.full_rose. rewrite H3, Hready. apply andb_false_r. }
  destruct (tile_position_next W P k ltac:(lia) ltac:(lia)) as [Hpos Hmod].
  unfold InputStore.step.
  cbn [InputStore.r_ready InputStore.r_addr InputStore.input_width_count].
  unfold InputStore.next_r_addr, UpCounter.step, UpCounter.done,
    UpCounter.next_count, UpCounter.last_count,
    InputStore.input_width_count_in, InputStore.r_accept.
  cbn [UpCounter.restart UpCounter.en UpCounter.max UpCounter.count].
  rewrite Hrs, Hfin, Hmode, Hrose, Hready, Hw, Hp, Hcount, Haddr.
  cbn [orb andb negb]. rewrite andb_true_r.
  rewrite (unsigned_fits 8 (W - 1)) by (unfold Amaranth.fits_unsigned; lia).
  replace (W - 1 - 1) with (W - 2) by lia.
  pose proof (Z.mod_pos_bound k (W - 1) ltac:(lia)) as Hb.
  subst k'. destruct (InputStore.r_next c).
  - rewrite Hpos in Hfit. rewrite Hpos, Hmod.
    destruct (Z.eqb_spec (k mod (W - 1)) (W - 2)) as [E|N];
      cbn [negb andb].
    + repeat split.
      apply unsigned_fits. unfold Amaranth.fits_unsigned. lia.
    + repeat split.
      * apply unsigned_fits. unfold Amaranth.fits_unsigned. lia.
      * apply unsigned_fits. unfold Amaranth.fits_unsigned. lia.
  - repeat split.
Qed.

Lemma InputStore_scan_run (l : list InputStore.inputs) :
  Forall (InputStoreScan.scanning W P) l ->
  forall (s : InputStore.state) (k : Z),
  InputStore.reachable max_depth s ->
  InputStore.r_ready s = true ->
  1 <= k ->
  InputStore.r_addr s = InputStoreScan.tile_position W P k ->
  UpCounter.count (InputStore.input_width_count s) = k mod (W - 1) ->
  (forall j, k <= j <= k + Z.of_nat (InputStoreScan.reads l) ->
     0 <= InputStoreScan.tile_position W P j < 2 ^ dw) ->
  InputStore.r_ready (InputStore.run max_depth s l) = true /\
  InputStore.r_addr (InputStore.run max_depth s l) =
    InputStoreScan.tile_position W P (k + Z.of_nat (InputStoreScan.reads l)).
Proof.
  induction 1 as [|c l Hc _ IH]; intros s k Hreach Hready Hk Haddr Hcount Hfit.
  - cbn. rewrite Z.add_0_r. split; assumption.
  - change (InputStore.run max_depth s (c :: l))
      with (InputStore.run max_depth (InputStore.step max_depth s c) l).
    unfold InputStoreScan.reads in *. cbn [filter] in *.
    destruct (InputStore.r_next c) eqn:Hn.
    + change (length (c :: filter InputStore.r_next l))
        with (S (length (filter InputStore.r_next l))) in *.
      destruct (InputStore_scan_step s c k Hreach Hc Hready Hk Haddr Hcount
                  ltac:(apply Hfit; lia)) as (H1 & H2 & H3).
      rewrite Hn in H2, H3.
      replace (k + Z.of_nat (S (length (filter InputStore.r_next l))))
        with (k + 1 + Z.of_nat (length (filter InputStore.r_next l))) by lia.
      apply IH; try assumption; try lia.
      * apply InputStore.reachable_step. exact Hreach.
      * intros j Hj. apply Hfit. lia.
    + assert (Hstep :
        InputStore.r_ready (InputStore.step max_depth s c) = true /\
        InputStore.r_addr (InputStore.step max_depth s c) =
          InputStoreScan.tile_position W P k /\
        UpCounter.count
          (InputStore.input_width_count (InputStore.step max_depth s c))
        = k mod (W - 1)).
      { destruct Hc as (Hrs & Hfin & Hmode & Hw & Hp).
        destruct (InputStore_control_invariant max_depth s Hreach)
          as (_ & _ & H3).
        assert (Hrose : InputStore.full_rose s = false).
        { unfold InputStore.full_rose. rewrite H3, Hready.
          apply andb_false_r. }
        unfold InputStore.step.
        cbn [InputStore.r_ready InputStore.r_addr
             InputStore.input_width_count].
        unfold InputStore.next_r_addr, UpCounter.step,
          InputStore.input_width_count_in, InputStore.r_accept.
        cbn [UpCounter.restart UpCounter.en UpCounter.count].
        rewrite Hrs, Hfin, Hrose, Hready, Hn. cbn [orb andb].
        repeat split; assumption. }
      destruct Hstep as (H1 & H2 & H3).
      apply IH; try assumption.
      apply InputStore.reachable_step. exact Hreach.
Qed.

End Scan.

(** X22.  The depthwise read positions are row-major.  When a buffer is
    completed in depthwise mode, the read address is set to tile 1 (tile 0,
    at the start of the buffer, is the one presented while no read is
    accepted); from then on every accepted read moves it to the next tile,
    row by row: a row of [W] words holds [W - 1] overlapping tiles, and after
    the last tile of a row the address skips the padding to the start of the
    next row, [W + P] words after the start of this one. *)
Theorem InputStore_depthwise_positions_are_row_major
    (max_depth W P : Z) (s : InputStore.state) (i0 : InputStore.inputs)
    (l : list InputStore.inputs) :
  3 <= W <= 256 ->
  InputStore.reachable max_depth s ->
  InputStore.full_rose s = true ->
  Forall (InputStoreScan.scanning W P) (i0 :: l) ->
  (forall j, 1 <= j <= 1 + Z.of_nat (InputStoreScan.reads l) ->
     0 <= InputStoreScan.tile_position W P j
       < 2 ^ InputStore.depth_width max_depth) ->
  InputStore.r_ready (InputStore.run max_depth s (i0 :: l)) = true /\
  InputStore.r_addr (InputStore.run max_depth s (i0 :: l)) =
    InputStoreScan.tile_position W P (1 + Z.of_nat (InputStoreScan.reads l)).
Proof.
  intros HW Hreach Hrose Hall Hfit.
  inversion Hall as [|? ? (Hrs & Hfin & Hmode & Hw & Hp) Hl]; subst.
  destruct (InputStore_control_invariant max_depth s Hreach) as (_ & _ & H3).
  assert (Hnr : InputStore.r_ready s = false).
  { unfold InputStore.full_rose in Hrose. apply andb_true_iff in Hrose.
    destruct Hrose as [_ Hlf]. apply negb_true_iff in Hlf. congruence. }
  pose proof (InputStore_idle_row_counter max_depth s Hreach Hnr) as Hc0.
  change (InputStore.run max_depth s (i0 :: l))
    with (InputStore.run max_depth (InputStore.step max_depth s i0) l).
  assert (Hpos1 : InputStoreScan.tile_position (InputStore.input_width i0)
                    (InputStore.pad i0) 1 = 1).
  { unfold InputStoreScan.tile_position.
    rewrite Z.div_small, Z.mod_small by lia. lia. }
  apply (InputStore_scan_run max_depth (InputStore.input_width i0)
           (InputStore.pad i0) HW l Hl).
  - apply InputStore.reachable_step. exact Hreach.
  - unfold InputStore.step. cbn [InputStore.r_ready].
    rewrite Hrs, Hfin, Hrose. reflexivity.
  - lia.
  - rewrite Hpos1. unfold InputStore.step. cbn [InputStore.r_addr].
    unfold InputStore.next_r_addr, InputStore.r_accept.
    rewrite Hrs, Hfin, Hnr, Hrose, Hmode. rewrite andb_false_r. reflexivity.
  - unfold InputStore.step. cbn [InputStore.input_width_count].
    unfold UpCounter.step, UpCounter.next_count, UpCounter.last_count,
      InputStore.input_width_count_in.
    cbn [UpCounter.restart UpCounter.en UpCounter.max UpCounter.count].
    rewrite Hrs, Hfin, Hrose, Hmode, Hc0. cbn [orb andb].
    rewrite (unsigned_fits 8 (InputStore.input_width i0 - 1))
      by (unfold Amaranth.fits_unsigned; lia).
    rewrite (proj2 (Z.eqb_neq 0 (InputStore.input_width i0 - 1 - 1))) by lia.
    rewrite Z.mod_small by lia.
    apply unsigned_fits. unfold Amaranth.fits_unsigned. lia.
  - exact Hfit.
Qed.

(** Rows of four words with two words of padding: the tiles are at the
    positions 0, 1, 2, 6, 7, 8, ...; three reads after the buffer was
    completed the read address is at tile 4, word 7. *)
Lemma InputStore_depthwise_positions_are_row_major_witness :
  InputStore.r_addr
    (InputStore.run 8 InputStoreScan.sample_completed
       [ InputStoreScan.sample_cycle false; InputStoreScan.sample_cycle true;
         InputStoreScan.sample_cycle true; InputStoreScan.sample_cycle true ])
  = 7.
Proof.
  assert (Hall : Forall (InputStoreScan.scanning 4 2)
                   [ InputStoreScan.sample_cycle false;
                     InputStoreScan.sample_cycle true;
                     InputStoreScan.sample_cycle true;
                     InputStoreScan.sample_cycle true ])
    by (repeat constructor).
  assert (Hfit : forall j,
            1 <= j <= 1 + Z.of_nat (InputStoreScan.reads
                                      [ InputStoreScan.sample_cycle true;
                                        InputStoreScan.sample_cycle true;
                                        InputStoreScan.sample_cycle true ]) ->
            0 <= InputStoreScan.tile_position 4 2 j
              < 2 ^ InputStore.depth_width 8).
  { intros j Hj. cbn in Hj.
    assert (Hc : j = 1 \/ j = 2 \/ j = 3 \/ j = 4) by lia.
    destruct Hc as [-> | [-> | [-> | ->]]];
      vm_compute; (split; [discriminate | reflexivity]). }
  exact (proj2 (InputStore_depthwise_positions_are_row_major 8 4 2
                  InputStoreScan.sample_completed
                  (InputStoreScan.sample_cycle false) _
                  ltac:(lia)
                  (InputStore.reachable_step 8 _ _ (InputStore.reachable_reset 8))
                  eq_refl Hall Hfit)).
Defined.

(** ** mnv2_cfu.py and store.py: the filter store and its reader limits *)

Lemma reader_limit_step (c n : Z) :
  0 <= c -> 0 <= n < 4 ->
  Z.shiftr (c + 1 + 3 - n) 2 =
  Z.shiftr (c + 3 - n) 2 + (if n =? c mod 4 then 1 else 0).
Proof.
  intros Hc Hn. rewrite !Z.shiftr_div_pow2 by lia. change (2 ^ 2) with 4.
  destruct (Z.eqb_spec n (c mod 4)); euclid.
Qed.

Lemma FilterStore_written_from (depth : Z) (n : Z)
    (l : list StoreSetter.inputs) :
  0 <= n < 4 ->
  Forall FilterStore.storing l ->
  forall s : StoreSetter.state,
  0 <= StoreSetter.count s ->
  StoreSetter.count s + Z.of_nat (length l) <= depth * 4 ->
  StoreSetter.count (FilterStore.run depth s l) =
    StoreSetter.count s + Z.of_nat (length l) /\
  Z.of_nat (FilterStore.written_to depth s l n) =
    Z.shiftr (StoreSetter.count s + Z.of_nat (length l) + 3 - n) 2
    - Z.shiftr (StoreSetter.count s + 3 - n) 2.
Proof.
  intros Hn. induction 1 as [|i l [Hst Hrs] _ IH]; intros s Hc Hroom.
  - cbn. rewrite Z.add_0_r. lia.
  - cbn [length] in Hroom.
    assert (Hbits : 0 <= StoreSetter.num_memories_bits
                           (FilterStore.params depth)) by (cbn; lia).
    assert (Hhas : 0 <= StoreSetter.count s <
                   StoreSetter.depth (FilterStore.params depth) *
                   StoreSetter.num_memories (FilterStore.params depth)).
    { change (StoreSetter.num_memories (FilterStore.params depth)) with 4.
      cbn [StoreSetter.depth FilterStore.params]. lia. }
    assert (Hcount : StoreSetter.count
                       (StoreSetter.step (FilterStore.params depth) s i) =
                     StoreSetter.count s + 1).
    { unfold StoreSetter.step. rewrite Hrs, Hst. cbn [StoreSetter.count].
      apply StoreSetter_count_succ; assumption. }
    change (FilterStore.run depth s (i :: l))
      with (FilterStore.run depth
              (StoreSetter.step (FilterStore.params depth) s i) l).
    cbn [FilterStore.written_to length].
    destruct (IH (StoreSetter.step (FilterStore.params depth) s i))
      as [I1 I2]; [lia | lia |].
    rewrite Hcount in I1, I2. split; [lia|].
    rewrite Nat2Z.inj_add, I2.
    replace (StoreSetter.count s + Z.of_nat (S (length l)) + 3 - n)
      with (StoreSetter.count s + 1 + Z.of_nat (length l) + 3 - n) by lia.
    rewrite (reader_limit_step (StoreSetter.count s) n Hc Hn).
    unfold StoreSetter.w_en, StoreSetter.writing. rewrite Hrs, Hst.
    cbn [negb andb]. rewrite StoreSetter_bank by assumption.
    change (StoreSetter.num_memories (FilterStore.params depth)) with 4.
    destruct (n =? StoreSetter.count s mod 4); cbn [Z.of_nat]; lia.
Qed.

(** X23.  The limit the fetcher gives each of its four readers is the
    number of words the setter has stored in that reader's bank: after any
    number of words has been stored from reset (fewer than the store can
    hold), reader [n] has the limit [(count + 3 - n) >> 2], and that is how
    many of the writes went to bank [n]. *)
Theorem FilterStore_reader_limits_count_the_banks
    (depth : Z) (l : list StoreSetter.inputs) (n : Z) :
  0 <= n < 4 ->
  Forall FilterStore.storing l ->
  Z.of_nat (length l) < depth * 4 ->
  FilterStore.reader_limit depth
    (FilterStore.run depth StoreSetter.reset l) n =
  Z.of_nat (FilterStore.written_to depth StoreSetter.reset l n).
Proof.
  intros Hn Hall Hroom.
  destruct (FilterStore_written_from depth n l Hn Hall StoreSetter.reset)
    as [Hc Hw]; [cbn; lia | cbn; lia |].
  cbn [StoreSetter.reset StoreSetter.count] in Hc, Hw.
  rewrite Z.add_0_l in Hc, Hw.
  unfold FilterStore.reader_limit. rewrite Hc, Hw.
  rewrite unsigned_fits.
  - replace (Z.shiftr (0 + 3 - n) 2) with 0; [lia|].
    rewrite Z.shiftr_div_pow2 by lia. change (2 ^ 2) with 4.
    symmetry. apply Z.div_small. lia.
  - unfold Amaranth.fits_unsigned, FilterValueFetcher.limit_width.
    pose proof (bits_for_spec (depth * 4 - 1) ltac:(lia)). lia.
Qed.

(** Six words stored: banks 0 and 1 hold two of them, and reader 1 is
    limited to two words. *)
Lemma FilterStore_reader_limits_count_the_banks_witness :
  FilterStore.reader_limit 8
    (FilterStore.run 8 StoreSetter.reset (repeat StoreSetter.sample_write 6)) 1
  = 2.
Proof.
  assert (Hall : Forall FilterStore.storing (repeat StoreSetter.sample_write 6))
    by (repeat constructor).
  rewrite (FilterStore_reader_limits_count_the_banks 8 _ 1
             ltac:(lia) Hall ltac:(cbn; lia)).
  reflexivity.
Defined.

(** ** sequencing.py: the filter pulse in depthwise mode *)

(** X24.  In depthwise mode the filter moves on once per run: with
    [num_tile] held at a value from 1 upwards that both counters can hold,
    from reset, [filter_next] is raised in exactly the cycles in which
    [all_output_finished] is, whatever starts, stalls and restarts occur. *)
Theorem Sequencer_depthwise_filter_next_ends_the_run
    (cfg : Sequencer.config) (i : nat -> Sequencer.inputs) (T : Z) (t : nat) :
  1 <= T < 2 ^ 16 ->
  T < 2 ^ Sequencer.filter_value_words_width cfg ->
  (forall k, Sequencer.switch_PorD (i k) = true /\
             Sequencer.num_tile (i k) = T) ->
  Sequencer.filter_next (SequencerRun.at_tick cfg i Sequencer.reset t) (i t) =
  Sequencer.all_output_finished cfg
    (SequencerRun.at_tick cfg i Sequencer.reset t) (i t).
Proof.
  intros HT16 HTw Hdepth.
  assert (Hw : 0 <= Sequencer.filter_value_words_width cfg).
  { destruct (Z.ltb_spec (Sequencer.filter_value_words_width cfg) 0) as [H|H];
      [|exact H].
    rewrite Z.pow_neg_r in HTw by exact H. lia. }
  assert (Inv : forall u,
    UpCounter.count
      (Sequencer.fnext_count (SequencerRun.at_tick cfg i Sequencer.reset u)) =
    UpCounter.count
      (Sequencer.f_count (SequencerRun.at_tick cfg i Sequencer.reset u)) /\
    0 <= UpCounter.count
           (Sequencer.f_count (SequencerRun.at_tick cfg i Sequencer.reset u))
      < T).
  { induction u as [|u [IH1 IH2]]; [cbn; lia|].
    cbn [SequencerRun.at_tick]. unfold Sequencer.step.
    cbn [Sequencer.fnext_count Sequencer.f_count].
    unfold UpCounter.step, UpCounter.next_count, UpCounter.last_count,
      Sequencer.fnext_count_in, Sequencer.f_count_in.
    cbn [UpCounter.restart UpCounter.en UpCounter.max UpCounter.count].
    destruct (Hdepth u) as [Hm Hn]. rewrite Hm, Hn, IH1. cbn [negb].
    rewrite (unsigned_fits _ T) by (unfold Amaranth.fits_unsigned; lia).
    destruct (Sequencer.restart (i u)); [lia|].
    destruct (Sequencer.gate _ _); [|lia].
    destruct (Z.eqb_spec
                (UpCounter.count
                   (Sequencer.f_count
                      (SequencerRun.at_tick cfg i Sequencer.reset u)))
                (T - 1)); [lia|].
    rewrite !unsigned_fits by (unfold Amaranth.fits_unsigned; lia). lia. }
  destruct (Inv t) as [I1 _]. destruct (Hdepth t) as [Hm Hn].
  unfold Sequencer.filter_next, Sequencer.all_output_finished,
    UpCounter.done, UpCounter.last_count,
    Sequencer.fnext_count_in, Sequencer.f_count_in.
  cbn [UpCounter.en UpCounter.max]. rewrite Hm, Hn, I1. cbn [negb].
  rewrite (unsigned_fits _ T) by (unfold Amaranth.fits_unsigned; lia).
  reflexivity.
Qed.

(** A depthwise run over two tiles: the filter pulse comes with the second
    gate, at tick 1. *)
Lemma Sequencer_depthwise_filter_next_ends_the_run_witness :
  Sequencer.filter_next
    (SequencerRun.at_tick Sequencer.sample_config
       SequencerRun.sample_depthwise Sequencer.reset 1)
    (SequencerRun.sample_depthwise 1) = true.
Proof.
  rewrite (Sequencer_depthwise_filter_next_ends_the_run
             Sequencer.sample_config SequencerRun.sample_depthwise 2 1
             ltac:(cbn; lia) ltac:(cbn; lia)
             (fun k => conj eq_refl eq_refl)).
  reflexivity.
Defined.
